(** * obs-cli: the metadata index and the Dataview query bridge

    A shallow embedding of the two Obsidian plugins of the repository:

    - [Index]: [SQLiteMetadataDB] of obsidian-metadata-api/src/database.ts
      ([updateNote], [deleteNote], [updateTags], [rebuildDatabase]);
    - [Bridge]: [DataviewQueryBridge] of obsidian-dataview-bridge/src/database.ts
      ([checkDataviewAvailability], [checkAndExecuteDataviewQueries]).

    Both classes keep their whole state in one JSON file which every method
    reads, mutates in memory and writes back.  The file is modelled by a
    [World]: the current content of the file, the journal of everything that
    was ever written to it, and the number of clock readings made so far.

    Conventions of the model.
    - A JavaScript string is a Rocq [string]; one [ascii] stands for one
      UTF-16 code unit below 256.
    - A plain JavaScript object used as a map is an [obj]: an association
      list kept in the order in which [Object.keys], [Object.values],
      [Object.entries] and [JSON.stringify] enumerate own properties
      (array-index keys in ascending order first, then the other keys in
      creation order).  An [obj] holds the own properties of the object:
      it describes [o[k]] for every key [k] that is [JS.ordinary], that
      is, not one of the names every object inherits from
      [Object.prototype].  The statements about the aggregates of the index
      say which keys they take to be ordinary.
    - JavaScript numbers that count things are [nat]; file sizes and epoch
      milliseconds are [Z]. *)

From Stdlib Require Import List String Ascii Bool Arith ZArith NArith Lia.
Import ListNotations.

Set Implicit Arguments.

(* ================================================================== *)
(** * JavaScript strings and objects *)
(* ================================================================== *)

Module JS.

Local Open Scope string_scope.
Local Open Scope N_scope.

(** [\s] of a regular expression, which is also what [trim] strips:
    TAB, LF, VT, FF, CR, space and NBSP. *)
Definition is_space (c : ascii) : bool :=
  let n := N_of_ascii c in
  ((9 <=? n) && (n <=? 13)) || (n =? 32) || (n =? 160).

(** The characters [.] does not match: LF and CR. *)
Definition is_line_terminator (c : ascii) : bool :=
  let n := N_of_ascii c in (n =? 10) || (n =? 13).

Definition is_digit (c : ascii) : bool :=
  let n := N_of_ascii c in (48 <=? n) && (n <=? 57).

Definition is_upper (c : ascii) : bool :=
  let n := N_of_ascii c in (65 <=? n) && (n <=? 90).

Definition is_lower (c : ascii) : bool :=
  let n := N_of_ascii c in (97 <=? n) && (n <=? 122).

(** [\w] of a regular expression. *)
Definition is_word (c : ascii) : bool :=
  is_digit c || is_upper c || is_lower c || (N_of_ascii c =? 95).

Fixpoint all_space (s : string) : bool :=
  match s with
  | EmptyString => true
  | String c r => is_space c && all_space r
  end.

Fixpoint no_line_terminator (s : string) : bool :=
  match s with
  | EmptyString => true
  | String c r => negb (is_line_terminator c) && no_line_terminator r
  end.

Fixpoint trimStart (s : string) : string :=
  match s with
  | EmptyString => EmptyString
  | String c r => if is_space c then trimStart r else s
  end.

Fixpoint trimEnd (s : string) : string :=
  match s with
  | EmptyString => EmptyString
  | String c r =>
      match trimEnd r with
      | EmptyString => if is_space c then EmptyString else String c EmptyString
      | r' => String c r'
      end
  end.

(** [s.trim()] *)
Definition trim (s : string) : string := trimEnd (trimStart s).

(** [s.substring(1)] *)
Definition substring1 (s : string) : string :=
  match s with
  | EmptyString => EmptyString
  | String _ r => r
  end.

(** [s.startsWith('_')] *)
Definition startsWith_underscore (s : string) : bool :=
  match s with
  | String c _ => Ascii.eqb c "_"
  | EmptyString => false
  end.

(** [s.split('\n')]: never empty, one more piece than there are line feeds. *)
Fixpoint split_lines (s : string) : list string :=
  match s with
  | EmptyString => [EmptyString]
  | String c r =>
      if Ascii.eqb c "010" then EmptyString :: split_lines r
      else match split_lines r with
           | h :: t => String c h :: t
           | [] => [String c EmptyString]
           end
  end.

Definition lower_char (c : ascii) : ascii :=
  if is_upper c then ascii_of_N (N_of_ascii c + 32) else c.

(** [s.toLowerCase()] on the characters [\w] can match. *)
Fixpoint toLowerCase (s : string) : string :=
  match s with
  | EmptyString => EmptyString
  | String c r => String (lower_char c) (toLowerCase r)
  end.

(** [a < b] on two strings: lexicographic on code units. *)
Definition str_lt (a b : string) : bool := String.ltb a b.

(** Truthiness of a string: only the empty string is falsy. *)
Definition truthy (s : string) : bool :=
  match s with EmptyString => false | _ => true end.

(** ** Objects used as maps *)

Definition obj (V : Type) : Type := list (string * V).

Section Obj.
Variable V : Type.

Fixpoint get (k : string) (o : obj V) : option V :=
  match o with
  | [] => None
  | (k', v) :: r => if String.eqb k k' then Some v else get k r
  end.

Definition has (k : string) (o : obj V) : bool :=
  match get k o with Some _ => true | None => false end.

Definition keys (o : obj V) : list string := map fst o.
Definition values (o : obj V) : list V := map snd o.

(** Value of the decimal numeral [s] when all its characters are digits. *)
Fixpoint digits_value (s : string) (acc : N) : option N :=
  match s with
  | EmptyString => Some acc
  | String c r =>
      if is_digit c then digits_value r (10 * acc + (N_of_ascii c - 48))
      else None
  end.

(** An array index is a canonical numeral below 2^32 - 1. *)
Definition array_index (k : string) : option N :=
  match k with
  | EmptyString => None
  | String c r =>
      if Ascii.eqb c "0" && negb (String.eqb r EmptyString) then None
      else match digits_value k 0 with
           | Some n => if n <? 4294967295 then Some n else None
           | None => None
           end
  end.

(** Overwriting an existing property keeps its place. *)
Fixpoint replace (k : string) (v : V) (o : obj V) : obj V :=
  match o with
  | [] => []
  | (k', v') :: r =>
      if String.eqb k k' then (k', v) :: r else (k', v') :: replace k v r
  end.

(** A new array-index key goes among the array-index keys, in order. *)
Fixpoint insert_index (n : N) (k : string) (v : V) (o : obj V) : obj V :=
  match o with
  | [] => [(k, v)]
  | (k', v') :: r =>
      match array_index k' with
      | Some m => if n <? m then (k, v) :: o
                  else (k', v') :: insert_index n k v r
      | None => (k, v) :: o
      end
  end.

(** [o[k] = v] *)
Definition set (k : string) (v : V) (o : obj V) : obj V :=
  if has k o then replace k v o
  else match array_index k with
       | Some n => insert_index n k v o
       | None => (o ++ [(k, v)])%list
       end.

(** [delete o[k]] *)
Fixpoint delete (k : string) (o : obj V) : obj V :=
  match o with
  | [] => []
  | (k', v') :: r =>
      if String.eqb k k' then delete k r else (k', v') :: delete k r
  end.
End Obj.

(** [[...new Set(l)]]: the first occurrence of every element, in order. *)
Fixpoint uniq_from (seen : list string) (l : list string) : list string :=
  match l with
  | [] => []
  | x :: r =>
      if existsb (String.eqb x) seen then uniq_from seen r
      else x :: uniq_from (x :: seen) r
  end.

Definition uniq (l : list string) : list string := uniq_from [] l.

(** [l.includes(x)] *)
Definition includes (l : list string) (x : string) : bool :=
  existsb (String.eqb x) l.

(** ** Names inherited from [Object.prototype] *)

(** The members of [Object.prototype].  On an object literal or an object
    parsed from JSON that has no own property of that name, [o[k]] reads
    the inherited member, which is truthy; assigning to one of them creates
    an own property, except for [__proto__], whose setter creates none. *)
Definition prototype_names : list string :=
  ["constructor"; "__proto__"; "hasOwnProperty"; "isPrototypeOf";
   "propertyIsEnumerable"; "toString"; "toLocaleString"; "valueOf";
   "__defineGetter__"; "__defineSetter__"; "__lookupGetter__";
   "__lookupSetter__"]%string.

Definition inherited (k : string) : bool :=
  existsb (String.eqb k) prototype_names.

(** A key for which [o[k]] sees the own properties of [o] and nothing
    else. *)
Definition ordinary (k : string) : bool := negb (inherited k).

(** Opaque JSON payloads (frontmatter values, query results). *)
#[warnings="-register-all"]
Inductive json : Type :=
| JNull
| JBool (b : bool)
| JNum (z : Z)
| JStr (s : string)
| JArr (l : list json)
| JObj (l : list (string * json)).

(** ** Dates *)

Local Open Scope Z_scope.

Definition digit_char (d : Z) : ascii := ascii_of_N (Z.to_N (48 + d mod 10)).

(** [n] written with [width] decimal digits, most significant first. *)
Fixpoint pad (width : nat) (n : Z) : string :=
  match width with
  | O => EmptyString
  | S w => (pad w (n / 10) ++ String (digit_char n) EmptyString)%string
  end.

(** Year, month and day of the [days]-th day after 1970-01-01 in the
    proleptic Gregorian calendar. *)
Definition civil_from_days (days : Z) : Z * Z * Z :=
  let z := days + 719468 in
  let era := z / 146097 in
  let doe := z - era * 146097 in
  let yoe := (doe - doe / 1460 + doe / 36524 - doe / 146096) / 365 in
  let doy := doe - (365 * yoe + yoe / 4 - yoe / 100) in
  let mp := (5 * doy + 2) / 153 in
  let d := doy - (153 * mp + 2) / 5 + 1 in
  let m := if mp <? 10 then mp + 3 else mp - 9 in
  let y := yoe + era * 400 + (if m <=? 2 then 1 else 0) in
  (y, m, d).

(** [new Date(t).toISOString()] for the years 0000 to 9999. *)
Definition iso8601 (t : Z) : string :=
  let day := t / 86400000 in
  let ms := t mod 86400000 in
  let '(y, m, d) := civil_from_days day in
  (pad 4 y ++ "-" ++ pad 2 m ++ "-" ++ pad 2 d ++ "T"
   ++ pad 2 (ms / 3600000) ++ ":" ++ pad 2 (ms / 60000 mod 60) ++ ":"
   ++ pad 2 (ms / 1000 mod 60) ++ "." ++ pad 3 (ms mod 1000) ++ "Z")%string.

End JS.

(* ================================================================== *)
(** * The persisted file and the clock *)
(* ================================================================== *)

(** The host's clock: the epoch milliseconds seen by the k-th reading, and
    [Date.prototype.toISOString]. *)
Record Clock : Type := {
  time_at : nat -> Z;
  toISOString : Z -> string
}.

Section World.
Variable D : Type.

(** [disk] is the parsed content of the JSON file ([None] while the file
    does not exist), [journal] lists every document handed to
    [adapter.write], oldest first. *)
Record World : Type := {
  disk : option D;
  journal : list D;
  ticks : nat
}.

(** A method either throws ([None]) or returns a value and a new world. *)
Definition M (A : Type) : Type := World -> option (A * World).

Definition ret (A : Type) (a : A) : M A := fun w => Some (a, w).

Definition bind (A B : Type) (m : M A) (k : A -> M B) : M B :=
  fun w => match m w with
           | Some (a, w') => k a w'
           | None => None
           end.

(** [JSON.parse(await adapter.read(path))] *)
Definition readDb : M D :=
  fun w => match disk w with
           | Some d => Some (d, w)
           | None => None
           end.

(** [await adapter.write(path, JSON.stringify(data, null, 2))] *)
Definition writeDb (d : D) : M unit :=
  fun w => Some (tt, {| disk := Some d;
                        journal := journal w ++ [d];
                        ticks := ticks w |}).

(** [Date.now()] *)
Definition date_now (ck : Clock) : M Z :=
  fun w => Some (time_at ck (ticks w),
                 {| disk := disk w; journal := journal w;
                    ticks := S (ticks w) |}).

(** [new Date().toISOString()] *)
Definition now_iso (ck : Clock) : M string :=
  fun w => Some (toISOString ck (time_at ck (ticks w)),
                 {| disk := disk w; journal := journal w;
                    ticks := S (ticks w) |}).

(** A [for ... of] loop whose body threads a local value. *)
Fixpoint for_of (A S : Type) (body : S -> A -> M S) (l : list A) (s : S)
  : M S :=
  match l with
  | [] => ret s
  | a :: r => bind (body s a) (for_of body r)
  end.
End World.

Arguments ret {D A} a.
Arguments bind {D A B} m k.
Arguments readDb {D}.
Arguments writeDb {D} d.
Arguments date_now {D} ck.
Arguments now_iso {D} ck.
Arguments for_of {D A S} body l s.

Notation "x <- c ;; k" := (bind c (fun x => k))
  (at level 61, c at next level, right associativity).
Notation "c ;;; k" := (bind c (fun _ => k))
  (at level 61, right associativity).

(* ================================================================== *)
(** * The metadata index (class SQLiteMetadataDB) *)
(* ================================================================== *)

Module Index.

Import JS.
Local Open Scope string_scope.

(** ** What the host hands over *)

(** [TFile]: [parent_path] is [file.parent?.path]. *)
Record TFile : Type := {
  f_path : string;
  f_basename : string;
  f_extension : string;
  stat_size : Z;
  stat_ctime : Z;
  stat_mtime : Z;
  parent_path : option string
}.

(** [frontmatter.tags]: an array of strings, a single string, or anything
    else (which [updateNote] ignores). *)
Inductive FmTags : Type :=
| TagsAbsent
| TagsArray (l : list string)
| TagsString (s : string)
| TagsOther.

Record FrontMatterCache : Type := {
  fm_tags : FmTags;
  fm_rest : obj json
}.

(** [ListItemCache]: [li_task] is [item.task], [li_line] is
    [item.position.start.line]. *)
Record ListItemCache : Type := {
  li_task : option string;
  li_line : nat
}.

Record SectionCache : Type := {
  sec_type : string;
  sec_line : nat
}.

Record HeadingCache : Type := {
  hc_level : nat;
  hc_heading : string
}.

(** [CachedMetadata]; every field is optional.  [md_tags] holds [tag.tag]
    of each inline tag, [md_links] and [md_embeds] hold [link.link]. *)
Record CachedMetadata : Type := {
  md_tags : option (list string);
  md_frontmatter : option FrontMatterCache;
  md_links : option (list string);
  md_embeds : option (list string);
  md_headings : option (list HeadingCache);
  md_listItems : option (list ListItemCache);
  md_sections : option (list SectionCache)
}.

(** The part of [App] the class uses.  [getFirstLinkpathDest link source]
    is the path of the resolved file, if any. *)
Record App : Type := {
  vault_read : TFile -> string;
  getFirstLinkpathDest : string -> string -> option string;
  getMarkdownFiles : list TFile;
  getFileCache : TFile -> option CachedMetadata;
  clock : Clock
}.

(** ** The persisted document *)

Record Task : Type := {
  text : string;
  completed : bool;
  line : nat
}.

Record Heading : Type := {
  level : nat;
  heading_text : string
}.

Record CodeBlock : Type := {
  language : string;
  count : nat
}.

Record Note : Type := {
  path : string;
  basename : string;
  extension : string;
  size : Z;
  ctime : Z;
  mtime : Z;
  tags : list string;
  outlinks : list string;
  embeds : list string;
  frontmatter : FrontMatterCache;
  headings : list Heading;
  tasks : list Task;
  codeBlocks : list CodeBlock;
  folder : string
}.

Record LinkEntry : Type := {
  l_outlinks : list string;
  l_backlinks : list string
}.

Record Stats : Type := {
  totalNotes : nat;
  totalTags : nat;
  totalLinks : nat;
  totalEmbeds : nat;
  totalTasks : nat;
  totalIncompleteTasks : nat;
  lastUpdated : string
}.

Record IndexDoc : Type := {
  db_notes : obj Note;
  db_tags : obj nat;
  db_links : obj LinkEntry;
  db_folders : obj nat;
  db_stats : Stats
}.

(** [defaultData] of [initializeJsonDb], also the cleared document of
    [rebuildDatabase]. *)
Definition defaultData (now : string) : IndexDoc :=
  {| db_notes := []; db_tags := []; db_links := []; db_folders := [];
     db_stats := {| totalNotes := 0; totalTags := 0; totalLinks := 0;
                    totalEmbeds := 0; totalTasks := 0;
                    totalIncompleteTasks := 0; lastUpdated := now |} |}.

(** [initializeJsonDb]: the file is created only when reading it fails. *)
Definition initDatabase (app : App) : M IndexDoc unit :=
  now <- now_iso (clock app) ;;
  fun w => match disk w with
           | Some _ => ret tt w
           | None => writeDb (defaultData now) w
           end.

(** ** updateNote: extraction *)

Definition or_empty (A : Type) (o : option (list A)) : list A :=
  match o with Some l => l | None => [] end.

(** [content] is read only when there are list items or sections. *)
Definition read_lines (app : App) (file : TFile)
  (metadata : option CachedMetadata) : option (list string) :=
  match metadata with
  | Some md =>
      match md_listItems md, md_sections md with
      | None, None => None
      | _, _ => Some (split_lines (vault_read app file))
      end
  | None => None
  end.

Definition frontmatter_tags (fm : option FrontMatterCache) : list string :=
  match fm with
  | Some f =>
      match fm_tags f with
      | TagsArray l => l
      | TagsString s => if truthy s then [s] else []
      | _ => []
      end
  | None => []
  end.

Definition extract_tags (metadata : option CachedMetadata) : list string :=
  match metadata with
  | Some md =>
      (map substring1 (or_empty (md_tags md))
       ++ frontmatter_tags (md_frontmatter md))%list
  | None => []
  end.

(** Links and embeds: references that do not resolve are dropped. *)
Definition resolve_all (app : App) (source : string) (refs : list string)
  : list string :=
  flat_map (fun l => match getFirstLinkpathDest app l source with
                     | Some p => [p]
                     | None => []
                     end) refs.

(** [lines[i] || ''] *)
Definition line_at (lines : list string) (i : nat) : string :=
  match nth_error lines i with Some l => l | None => "" end.

(** [lineText.match(re)] for the checkbox pattern [re] of [updateNote],
    which reads: start of input, any white space, a hyphen, any white space,
    an opening bracket, one character other than a closing bracket, a closing
    bracket, any white space, and then the capture group, made of all the
    remaining characters, none of them a line terminator, up to the end of
    input.  The result is the capture group of the match, if the line
    matches.  Every quantifier of the pattern is followed by something its
    own characters cannot start, so the greedy choice is the only one that
    can succeed; [task_pattern_sound] and [task_pattern_complete] compare
    the function with the pattern read as a grammar. *)
Definition task_pattern (lineText : string) : option string :=
  match trimStart lineText with
  | String hyphen r1 =>
      if Ascii.eqb hyphen "-" then
        match trimStart r1 with
        | String open (String c (String close r2)) =>
            if Ascii.eqb open "[" && negb (Ascii.eqb c "]")
               && Ascii.eqb close "]"
            then let g := trimStart r2 in
                 if no_line_terminator g then Some g else None
            else None
        | _ => None
        end
      else None
  | EmptyString => None
  end.

(** The checkbox pattern, read as a grammar: [lineText] is white space, a
    hyphen, white space, a bracketed character other than a closing
    bracket, white space, and [g] without line terminators. *)
Definition checkbox_line (lineText g : string) : Prop :=
  exists w1 w2 c w3,
    lineText = w1 ++ String "-" (w2 ++ String "[" (String c
                 (String "]" (w3 ++ g)))) /\
    all_space w1 = true /\ all_space w2 = true /\ c <> "]"%char /\
    all_space w3 = true /\ no_line_terminator g = true.

Definition task_of (lines : list string) (marker : string) (start : nat)
  : Task :=
  let lineText := line_at lines start in
  {| text := match task_pattern lineText with
             | Some g => trim g
             | None => trim lineText
             end;
     completed := negb (String.eqb marker " ");
     line := start + 1 |}.

Definition extract_tasks (lines : list string) (items : list ListItemCache)
  : list Task :=
  flat_map (fun item => match li_task item with
                        | Some marker => [task_of lines marker (li_line item)]
                        | None => []
                        end) items.

Fixpoint take_word (s : string) : string :=
  match s with
  | EmptyString => EmptyString
  | String c r => if is_word c then String c (take_word r) else EmptyString
  end.

(** [startLine.match(re)] where [re] reads: start of input, three backticks,
    then the capture group of one or more word characters; the result is
    [langMatch[1].toLowerCase()], or ['unknown'] without a match. *)
Definition fence_language (startLine : string) : string :=
  match startLine with
  | String "`" (String "`" (String "`" r)) =>
      match take_word r with
      | EmptyString => "unknown"
      | w => toLowerCase w
      end
  | _ => "unknown"
  end.

(** [o[k] = (o[k] || 0) + 1] on a counter object that started as an empty
    literal, for an ordinary key [k]. *)
Definition bump (k : string) (o : obj nat) : obj nat :=
  set k (match get k o with Some n => n | None => 0 end + 1) o.

Definition extract_codeBlocks (lines : list string)
  (sections : list SectionCache) : list CodeBlock :=
  let languageCounts :=
    fold_left (fun counts section =>
                 if String.eqb (sec_type section) "code"
                 then bump (fence_language (line_at lines (sec_line section)))
                           counts
                 else counts) sections [] in
  map (fun kv => {| language := fst kv; count := snd kv |}) languageCounts.

Definition empty_frontmatter : FrontMatterCache :=
  {| fm_tags := TagsAbsent; fm_rest := [] |}.

(** The entry [updateNote] stores under [file.path]. *)
Definition note_of (app : App) (file : TFile)
  (metadata : option CachedMetadata) : Note :=
  let lines := read_lines app file metadata in
  let field (A : Type) (f : CachedMetadata -> option (list A)) :=
    match metadata with Some md => f md | None => None end in
  {| path := f_path file;
     basename := f_basename file;
     extension := f_extension file;
     size := stat_size file;
     ctime := stat_ctime file;
     mtime := stat_mtime file;
     tags := uniq (extract_tags metadata);
     outlinks := resolve_all app (f_path file) (or_empty (field _ md_links));
     embeds := resolve_all app (f_path file) (or_empty (field _ md_embeds));
     frontmatter :=
       match metadata with
       | Some md => match md_frontmatter md with
                    | Some fm => fm
                    | None => empty_frontmatter
                    end
       | None => empty_frontmatter
       end;
     headings :=
       map (fun h => {| level := hc_level h; heading_text := hc_heading h |})
           (or_empty (field _ md_headings));
     tasks :=
       match field _ md_listItems, lines with
       | Some items, Some ls => extract_tasks ls items
       | _, _ => []
       end;
     codeBlocks :=
       match field _ md_sections, lines with
       | Some sections, Some ls => extract_codeBlocks ls sections
       | _, _ => []
       end;
     folder :=
       match parent_path file with
       | Some p => p
       | None => ""
       end |}.

(** ** updateTags: the aggregates, recomputed from all notes *)

(** [note.folder || 'root'] *)
Definition folder_key (note : Note) : string :=
  if truthy (folder note) then folder note else "root".

(** The first loop of [updateTags]: [tagCounts] and [folderCounts]. *)
Definition count_note (acc : obj nat * obj nat) (note : Note)
  : obj nat * obj nat :=
  (fold_left (fun tagCounts tag => bump tag tagCounts) (tags note) (fst acc),
   bump (folder_key note) (snd acc)).

Definition empty_links : LinkEntry :=
  {| l_outlinks := []; l_backlinks := [] |}.

(** [if (!links[p]) links[p] = { outlinks: [], backlinks: [] }], for an
    ordinary [p]. *)
Definition ensure (p : string) (links : obj LinkEntry) : obj LinkEntry :=
  if has p links then links else set p empty_links links.

(** The body of [note.outlinks.forEach]: one backlink from [source], for an
    ordinary [targetPath]. *)
Definition add_backlink (source : string) (links : obj LinkEntry)
  (targetPath : string) : obj LinkEntry :=
  let links := ensure targetPath links in
  match get targetPath links with
  | Some e =>
      if includes (l_backlinks e) source then links
      else set targetPath
             {| l_outlinks := l_outlinks e;
                l_backlinks := l_backlinks e ++ [source] |} links
  | None => links
  end.

(** The second loop of [updateTags], for one note whose path and outlinks
    are ordinary. *)
Definition link_note (links : obj LinkEntry) (note : Note) : obj LinkEntry :=
  let links := ensure (path note) links in
  let links :=
    match get (path note) links with
    | Some e => set (path note)
                  {| l_outlinks := outlinks note;
                     l_backlinks := l_backlinks e |} links
    | None => links
    end in
  fold_left (add_backlink (path note)) (outlinks note) links.

Definition build_links (notes : list Note) : obj LinkEntry :=
  fold_left link_note notes [].

Definition sum (A : Type) (f : A -> nat) (l : list A) : nat :=
  fold_left (fun acc a => acc + f a) l 0.

Definition incomplete (l : list Task) : list Task :=
  filter (fun task => negb (completed task)) l.

(** What [updateTags] does to the document it has read. *)
Definition recompute (db : IndexDoc) : IndexDoc :=
  let all := values (db_notes db) in
  let counts := fold_left count_note all ([], []) in
  let tagCounts := fst counts in
  let folderCounts := snd counts in
  {| db_notes := db_notes db;
     db_tags := tagCounts;
     db_links := build_links all;
     db_folders := folderCounts;
     db_stats :=
       {| totalNotes := totalNotes (db_stats db);
          totalTags := List.length (keys tagCounts);
          totalLinks := sum (fun note => List.length (outlinks note)) all;
          totalEmbeds := sum (fun note => List.length (embeds note)) all;
          totalTasks := sum (fun note => List.length (tasks note)) all;
          totalIncompleteTasks :=
            sum (fun note => List.length (incomplete (tasks note))) all;
          lastUpdated := lastUpdated (db_stats db) |} |}.

Definition updateTags : M IndexDoc unit :=
  db <- readDb ;;
  writeDb (recompute db).

(** ** updateNote, deleteNote, rebuildDatabase *)

(** The "Update stats" lines shared by [updateNote] and [deleteNote]. *)
Definition with_notes (db : IndexDoc) (notes : obj Note) (now : string)
  : IndexDoc :=
  {| db_notes := notes;
     db_tags := db_tags db;
     db_links := db_links db;
     db_folders := db_folders db;
     db_stats :=
       {| totalNotes := List.length (keys notes);
          totalTags := totalTags (db_stats db);
          totalLinks := totalLinks (db_stats db);
          totalEmbeds := totalEmbeds (db_stats db);
          totalTasks := totalTasks (db_stats db);
          totalIncompleteTasks := totalIncompleteTasks (db_stats db);
          lastUpdated := now |} |}.

Definition updateNote (app : App) (file : TFile)
  (metadata : option CachedMetadata) : M IndexDoc unit :=
  db <- readDb ;;
  let notes := set (f_path file) (note_of app file metadata) (db_notes db) in
  now <- now_iso (clock app) ;;
  writeDb (with_notes db notes now) ;;;
  updateTags.

Definition deleteNote (app : App) (p : string) : M IndexDoc unit :=
  db <- readDb ;;
  let notes := delete p (db_notes db) in
  now <- now_iso (clock app) ;;
  writeDb (with_notes db notes now) ;;;
  updateTags.

Definition rebuildDatabase (app : App) : M IndexDoc unit :=
  now <- now_iso (clock app) ;;
  writeDb (defaultData now) ;;;
  for_of (fun _ file => updateNote app file (getFileCache app file))
         (getMarkdownFiles app) tt.

(** ** Sequences of mutations *)

Inductive Op : Type :=
| Upsert (file : TFile) (metadata : option CachedMetadata)
| Delete (p : string).

Definition run_op (app : App) (op : Op) : M IndexDoc unit :=
  match op with
  | Upsert file metadata => updateNote app file metadata
  | Delete p => deleteNote app p
  end.

(** Each mutation runs against the host as it is at that time. *)
Definition run_ops (steps : list (App * Op)) : M IndexDoc unit :=
  for_of (fun _ step => run_op (fst step) (snd step)) steps tt.

(** The world right after [initDatabase] found no file. *)
Definition fresh_world (now : string) : World IndexDoc :=
  {| disk := Some (defaultData now); journal := [defaultData now];
     ticks := 1 |}.

(** ** The worlds a mutation goes through *)

(** The document of the first write of a mutation that leaves [notes']
    in [notes]. *)
Definition first_write (app : App) (w : World IndexDoc) (db : IndexDoc)
  (notes' : obj Note) : IndexDoc :=
  with_notes db notes'
    (toISOString (clock app) (time_at (clock app) (ticks w))).

(** The world a mutation leaves behind. *)
Definition after_mutation (app : App) (w : World IndexDoc) (db : IndexDoc)
  (notes' : obj Note) : World IndexDoc :=
  {| disk := Some (recompute (first_write app w db notes'));
     journal := journal w ++ [first_write app w db notes';
                              recompute (first_write app w db notes')];
     ticks := S (ticks w) |}.

(** The notes a mutation leaves in the document. *)
Definition notes_after (step : App * Op) (notes : obj Note) : obj Note :=
  match snd step with
  | Upsert file metadata =>
      set (f_path file) (note_of (fst step) file metadata) notes
  | Delete p => delete p notes
  end.

(** ** The invariants of the specification, as predicates on a document *)

Definition stats_consistent (db : IndexDoc) : Prop :=
  let all := values (db_notes db) in
  let total (A : Type) (f : Note -> list A) :=
    list_sum (map (fun n => List.length (f n)) all) in
  totalNotes (db_stats db) = List.length (db_notes db) /\
  totalTags (db_stats db) = List.length (keys (db_tags db)) /\
  totalLinks (db_stats db) = total _ outlinks /\
  totalEmbeds (db_stats db) = total _ embeds /\
  totalTasks (db_stats db) = total _ tasks /\
  totalIncompleteTasks (db_stats db) =
    total _ (fun n => filter (fun t => Bool.eqb (completed t) false)
                             (tasks n)).

(** Every key of [notes] is the [path] of its entry, and no key occurs
    twice. *)
Definition notes_wf (notes : obj Note) : Prop :=
  NoDup (keys notes) /\ forall k n, In (k, n) notes -> path n = k.

(** [p] is listed in [links[k].outlinks] (resp. backlinks); false when
    [links] has no entry for [k]. *)
Definition in_outlinks (links : obj LinkEntry) (k p : string) : Prop :=
  exists e, get k links = Some e /\ In p (l_outlinks e).

Definition in_backlinks (links : obj LinkEntry) (k p : string) : Prop :=
  exists e, get k links = Some e /\ In p (l_backlinks e).

(** [links[k]] read as an entry: an absent entry has no links. *)
Definition entry_or_empty (e : option LinkEntry) : LinkEntry :=
  match e with Some e => e | None => empty_links end.

(** An entry after [source] has been recorded as a backlink of it. *)
Definition push_backlink (source : string) (e : LinkEntry) : LinkEntry :=
  if includes (l_backlinks e) source then e
  else {| l_outlinks := l_outlinks e;
          l_backlinks := l_backlinks e ++ [source] |}.

(** What the outer loop of [updateTags] has established once the notes
    [done] have been processed. *)
Definition links_inv (links : obj LinkEntry) (done : list Note) : Prop :=
  (forall k x, In x (l_backlinks (entry_or_empty (get k links))) <->
               exists n, In n done /\ path n = x /\ In k (outlinks n)) /\
  (forall n, In n done ->
             exists e, get (path n) links = Some e /\
                       l_outlinks e = outlinks n) /\
  (forall k, NoDup (l_backlinks (entry_or_empty (get k links)))).

(** Content of a document, time stamp left out. *)
Definition content (db : IndexDoc)
  : obj Note * obj nat * obj nat * obj LinkEntry
    * (nat * nat * nat * nat * nat * nat) :=
  let s := db_stats db in
  (db_notes db, db_tags db, db_folders db, db_links db,
   (totalNotes s, totalTags s, totalLinks s, totalEmbeds s, totalTasks s,
    totalIncompleteTasks s)).

(** ** The keys of the aggregates *)

(** [tagCounts], [folderCounts], [languageCounts] and [links] start as
    empty object literals and [db.notes] is an object parsed from JSON, so
    all of them inherit the members of [Object.prototype].  [bump],
    [ensure], [add_backlink], [link_note] and the assignment to
    [db.notes[file.path]] are what the code does with a key that is
    [ordinary].  With an inherited name the code goes another way: a
    counter read for the first time finds the inherited member instead of
    nothing and becomes a string, a link target finds it instead of an
    entry and [updateTags] throws, that member having no [backlinks], and
    no property named [__proto__] is created by assignment.
    The predicates below say that the keys taken from a note, a document, a
    mutation or a vault are all ordinary; what is proved of the aggregates
    is proved under them. *)

(** The keys [updateTags] takes from a note: its path, its tags, its folder
    key and its outlinks. *)
Definition ordinary_note (n : Note) : bool :=
  ordinary (path n) && forallb ordinary (tags n) &&
  ordinary (folder_key n) && forallb ordinary (outlinks n).

(** The notes of a document: the keys they are stored under and the keys
    [updateTags] takes from each of them. *)
Definition ordinary_notes (notes : obj Note) : bool :=
  forallb (fun kv => ordinary (fst kv) && ordinary_note (snd kv)) notes.

(** The languages [updateNote] reads from the opening fences of the code
    sections, in the order of the sections. *)
Definition fence_languages (lines : list string)
  (sections : list SectionCache) : list string :=
  map (fun s => fence_language (line_at lines (sec_line s)))
      (filter (fun s => String.eqb (sec_type s) "code") sections).

(** The languages [updateNote] counts in [languageCounts] for a file: none
    without sections or without lines. *)
Definition counted_languages (app : App) (file : TFile)
  (metadata : option CachedMetadata) : list string :=
  match metadata with
  | Some md =>
      match md_sections md, read_lines app file metadata with
      | Some sections, Some ls => fence_languages ls sections
      | _, _ => []
      end
  | None => []
  end.

(** The keys of an upsert: those of the note it stores and the languages
    it counts in [languageCounts]. *)
Definition ordinary_upsert (app : App) (file : TFile)
  (metadata : option CachedMetadata) : bool :=
  ordinary_note (note_of app file metadata) &&
  forallb ordinary (counted_languages app file metadata).

Definition ordinary_step (step : App * Op) : bool :=
  match snd step with
  | Upsert file metadata => ordinary_upsert (fst step) file metadata
  | Delete _ => true
  end.

(** Every markdown file of the vault is upserted with ordinary keys. *)
Definition ordinary_vault (app : App) : bool :=
  forallb (fun file => ordinary_upsert app file (getFileCache app file))
          (getMarkdownFiles app).

End Index.

(* ================================================================== *)
(** * The query bridge (class DataviewQueryBridge) *)
(* ================================================================== *)

Module Bridge.

Import JS.
Local Open Scope string_scope.

(** ** The persisted document *)

(** [result] of a successful entry; [columnTypes] only for tables. *)
Record QueryResult : Type := {
  r_type : string;
  r_headers : list json;
  r_values : list json;
  r_columnTypes : option (list json)
}.

(** One entry of [dataviewQueries], as the protocol writes it: an object
    whose [query], [status], [error] and [timestamp] are strings.  An
    absent field is [None]. *)
Record QueryEntry : Type := {
  query : option string;
  status : option string;
  result : option QueryResult;
  error : option string;
  timestamp : option string
}.

Record BridgeDoc : Type := {
  version : string;
  dataviewAvailable : bool;
  dataviewQueries : option (obj QueryEntry);
  lastChecked : string
}.

(** ** The Dataview plugin *)

(** [result.value] of a successful [dv.query]. *)
Record DvValue : Type := {
  v_type : string;
  v_headers : option (list json);
  v_values : option (list json);
  v_columnTypes : option (list json)
}.

(** What [await dv.query(query)] does: it resolves to a successful result,
    resolves to a failure carrying [result.error] (empty when there is
    none), or throws an error carrying [error.message]. *)
Inductive QueryOutcome : Type :=
| Successful (value : DvValue)
| Failed (err : string)
| Thrown (message : string).

(** [dataview_api] is [plugins.plugins.dataview.api] when the plugin is
    there and has an API. *)
Record App : Type := {
  dataview_api : option (option string -> QueryOutcome);
  clock : Clock
}.

Definition defaultData (now : string) : BridgeDoc :=
  {| version := "2.0.0"; dataviewAvailable := false;
     dataviewQueries := Some []; lastChecked := now |}.

(** [initializeJsonDb]: the file is created only when reading it fails. *)
Definition initializeJsonDb (app : App) : M BridgeDoc unit :=
  now <- now_iso (clock app) ;;
  fun w => match disk w with
           | Some _ => ret tt w
           | None => writeDb (defaultData now) w
           end.

Definition isAvailable (app : App) : bool :=
  match dataview_api app with Some _ => true | None => false end.

(** ** checkDataviewAvailability *)

Definition checkDataviewAvailability (app : App) : M BridgeDoc unit :=
  db <- readDb ;;
  now <- now_iso (clock app) ;;
  writeDb {| version := version db;
             dataviewAvailable := isAvailable app;
             dataviewQueries := dataviewQueries db;
             lastChecked := now |}.

(** ** checkAndExecuteDataviewQueries *)

Definition status_is (q : QueryEntry) (s : string) : bool :=
  match status q with Some s' => String.eqb s' s | None => false end.

Definition is_control (id : string) : bool := startsWith_underscore id.

(** [queries._check && queries._check.status === 'pending'] *)
Definition check_requested (queries : obj QueryEntry) : bool :=
  match get "_check" queries with
  | Some q => status_is q "pending"
  | None => false
  end.

Definition is_pending (entry : string * QueryEntry) : bool :=
  negb (is_control (fst entry)) && status_is (snd entry) "pending".

Definition pendingQueries (queries : obj QueryEntry)
  : list (string * QueryEntry) :=
  filter is_pending queries.

Definition with_queries (db : BridgeDoc) (queries : obj QueryEntry)
  : BridgeDoc :=
  {| version := version db;
     dataviewAvailable := dataviewAvailable db;
     dataviewQueries := Some queries;
     lastChecked := lastChecked db |}.

Definition unavailable_message : string := "Dataview plugin not available".

(** The entry written for a pending query while Dataview is missing: the
    old entry with three fields overwritten. *)
Definition mark_failed (queryData : QueryEntry) (now : string) : QueryEntry :=
  {| query := query queryData;
     status := Some "error";
     result := result queryData;
     error := Some unavailable_message;
     timestamp := Some now |}.

Definition fail_query (ck : Clock) (queries : obj QueryEntry)
  (entry : string * QueryEntry) : M BridgeDoc (obj QueryEntry) :=
  now <- now_iso ck ;;
  ret (set (fst entry) (mark_failed (snd entry) now) queries).

Definition stored_result (value : DvValue) : QueryResult :=
  {| r_type := v_type value;
     r_headers := match v_headers value with Some h => h | None => [] end;
     r_values := match v_values value with Some v => v | None => [] end;
     r_columnTypes :=
       if String.eqb (v_type value) "table"
       then Some (match v_columnTypes value with Some c => c | None => [] end)
       else None |}.

Definition or_default (s default : string) : string :=
  if truthy s then s else default.

(** The entry written after [dv.query] has run. *)
Definition executed (q : option string) (outcome : QueryOutcome)
  (now : string) : QueryEntry :=
  match outcome with
  | Successful value =>
      {| query := q; status := Some "success";
         result := Some (stored_result value);
         error := None; timestamp := Some now |}
  | Failed err =>
      {| query := q; status := Some "error"; result := None;
         error := Some (or_default (or_default err "Query failed")
                                   "Query execution failed");
         timestamp := Some now |}
  | Thrown message =>
      {| query := q; status := Some "error"; result := None;
         error := Some (or_default message "Query execution failed");
         timestamp := Some now |}
  end.

Definition execute_query (ck : Clock) (dv : option string -> QueryOutcome)
  (queries : obj QueryEntry) (entry : string * QueryEntry)
  : M BridgeDoc (obj QueryEntry) :=
  let q := query (snd entry) in
  let outcome := dv q in
  now <- now_iso ck ;;
  ret (set (fst entry) (executed q outcome now) queries).

(** "Clean up old queries (older than 24 hours)": what is left of
    [queries] after the [forEach] with its [delete]. *)
Definition expired (oneDayAgo : string) (entry : string * QueryEntry) : bool :=
  negb (is_control (fst entry)) &&
  match timestamp (snd entry) with
  | Some ts => truthy ts && str_lt ts oneDayAgo
  | None => false
  end.

Definition cleanup (oneDayAgo : string) (queries : obj QueryEntry)
  : obj QueryEntry :=
  filter (fun entry => negb (expired oneDayAgo entry)) queries.

Definition one_day : Z := 24 * 60 * 60 * 1000.

Definition checkAndExecuteDataviewQueries (app : App) : M BridgeDoc unit :=
  db <- readDb ;;
  match dataviewQueries db with
  | None => ret tt
  | Some queries =>
      if check_requested queries then
        checkDataviewAvailability app ;;;
        writeDb (with_queries db (delete "_check" queries))
      else
        let pending := pendingQueries queries in
        match pending with
        | [] => ret tt
        | _ :: _ =>
            match dataview_api app with
            | None =>
                queries' <- for_of (fail_query (clock app)) pending queries ;;
                writeDb (with_queries db queries')
            | Some dv =>
                queries' <- for_of (execute_query (clock app) dv)
                                   pending queries ;;
                t <- date_now (clock app) ;;
                let oneDayAgo := toISOString (clock app) (t - one_day)%Z in
                writeDb (with_queries db (cleanup oneDayAgo queries'))
            end
        end
  end.

(** The queries of the document on disk; [None] when there is no file or no
    [dataviewQueries] in it. *)
Definition queries_on_disk (w : World BridgeDoc) : option (obj QueryEntry) :=
  match disk w with
  | Some db => dataviewQueries db
  | None => None
  end.

(** Consecutive poll cycles, each against the host as it is at that time. *)
Fixpoint poll (apps : list App) : M BridgeDoc unit :=
  match apps with
  | [] => ret tt
  | app :: rest => checkAndExecuteDataviewQueries app ;;; poll rest
  end.

(** ** The two loops over [pendingQueries], in closed form *)

(** Both loops overwrite the entry of every pending query with one built
    from the old entry and a fresh time stamp. *)
Definition transition (ck : Clock) (f : QueryEntry -> string -> QueryEntry)
  (queries : obj QueryEntry) (entry : string * QueryEntry)
  : M BridgeDoc (obj QueryEntry) :=
  now <- now_iso ck ;;
  ret (set (fst entry) (f (snd entry) now) queries).

(** The entry [execute_query] builds. *)
Definition run_query (dv : option string -> QueryOutcome)
  (queryData : QueryEntry) (now : string) : QueryEntry :=
  executed (query queryData) (dv (query queryData)) now.

(** [queries] after the loop, when the first clock reading is number [t]. *)
Fixpoint stamped (ck : Clock) (f : QueryEntry -> string -> QueryEntry)
  (t : nat) (pending : list (string * QueryEntry)) (queries : obj QueryEntry)
  : obj QueryEntry :=
  match pending with
  | [] => queries
  | entry :: rest =>
      stamped ck f (S t) rest
        (set (fst entry)
             (f (snd entry) (toISOString ck (time_at ck t))) queries)
  end.

(** The time stamp below which the cleanup deletes, when [Date.now()] is
    clock reading number [t]. *)
Definition cutoff (ck : Clock) (t : nat) : string :=
  toISOString ck (time_at ck t - one_day).

(** [dataviewQueries] as one poll cycle leaves it on disk, when the cycle
    starts with [queries] and its first clock reading is number [t]. *)
Definition queries_after (app : App) (t : nat) (queries : obj QueryEntry)
  : obj QueryEntry :=
  if check_requested queries then delete "_check" queries
  else
    let pending := pendingQueries queries in
    match pending with
    | [] => queries
    | _ :: _ =>
        match dataview_api app with
        | None => stamped (clock app) mark_failed t pending queries
        | Some dv =>
            cleanup (cutoff (clock app) (t + List.length pending))
                    (stamped (clock app) (run_query dv) t pending queries)
        end
    end.

(** ** The claims about a poll cycle, as predicates *)

(** [id] is a user query awaiting execution in [queries]. *)
Definition awaiting (queries : obj QueryEntry) (id : string) (e : QueryEntry)
  : Prop :=
  get id queries = Some e /\ is_control id = false /\
  status_is e "pending" = true.

(** No user query of [queries] is pending. *)
Definition none_pending (queries : obj QueryEntry) : Prop :=
  forall id e, get id queries = Some e -> is_control id = false ->
               status_is e "pending" = false.

(** [e'] is [e] failed for want of Dataview, stamped by one of the clock
    readings [from], ..., [to - 1]. *)
Definition failed_between (ck : Clock) (from to : nat) (e e' : QueryEntry)
  : Prop :=
  exists k, from <= k < to /\
            e' = mark_failed e (toISOString ck (time_at ck k)).

(** [ts] is a time stamp the cleanup acts on: not empty, and before
    [oneDayAgo] in the order of strings. *)
Definition older_than (oneDayAgo : string) (ts : string) : Prop :=
  truthy ts = true /\ str_lt ts oneDayAgo = true.

(** The purge as the specification words it: whatever the cycle does, a
    user query whose time stamp is older than the cutoff at cycle time is
    gone from the document on disk afterwards. *)
Definition purges_every_cycle (app : App) (w : World BridgeDoc) : Prop :=
  forall w' queries queries' id e ts,
    checkAndExecuteDataviewQueries app w = Some (tt, w') ->
    queries_on_disk w = Some queries ->
    queries_on_disk w' = Some queries' ->
    get id queries = Some e -> is_control id = false ->
    timestamp e = Some ts -> older_than (cutoff (clock app) (ticks w)) ts ->
    get id queries' = None.

(** The failure of pending queries as the specification words it: in every
    cycle that finds Dataview missing and a pending user query. *)
Definition fails_pending_every_cycle (app : App) (w : World BridgeDoc)
  : Prop :=
  forall queries,
    dataview_api app = None ->
    queries_on_disk w = Some queries ->
    (exists id e, awaiting queries id e) ->
    exists w' queries',
      checkAndExecuteDataviewQueries app w = Some (tt, w') /\
      queries_on_disk w' = Some queries' /\
      (forall id e, awaiting queries id e ->
         exists e', get id queries' = Some e' /\
                    failed_between (clock app) (ticks w) (ticks w') e e') /\
      none_pending queries'.

End Bridge.

(* ================================================================== *)
(** * Scenarios *)
(* ================================================================== *)

Module Scenarios.

Import JS.
Local Open Scope string_scope.

(** A clock that starts on 2024-01-20 at 10:30 UTC and advances one second
    per reading. *)
Definition wall_clock : Clock :=
  {| time_at := fun k => (1705746600000 + 1000 * Z.of_nat k)%Z;
     toISOString := iso8601 |}.

Definition newline : string := String "010" EmptyString.

(** ** A small vault *)

Definition file_a : Index.TFile :=
  {| Index.f_path := "a.md"; Index.f_basename := "a";
     Index.f_extension := "md"; Index.stat_size := 74;
     Index.stat_ctime := 1705000000000; Index.stat_mtime := 1705700000000;
     Index.parent_path := Some "/" |}.

Definition file_c : Index.TFile :=
  {| Index.f_path := "notes/c.md"; Index.f_basename := "c";
     Index.f_extension := "md"; Index.stat_size := 21;
     Index.stat_ctime := 1705100000000; Index.stat_mtime := 1705100000000;
     Index.parent_path := Some "notes" |}.

Definition content_a : string :=
  String.concat newline
    ["- [ ] write the spec";
     "  - [x]   read the code  ";
     "* [ ] starred item";
     "See [[b]] and [[ghost]] #y"].

Definition item (marker : option string) (l : nat) : Index.ListItemCache :=
  {| Index.li_task := marker; Index.li_line := l |}.

Definition meta_a : Index.CachedMetadata :=
  {| Index.md_tags := Some ["#y"];
     Index.md_frontmatter :=
       Some {| Index.fm_tags := Index.TagsString "x"; Index.fm_rest := [] |};
     Index.md_links := Some ["b"; "ghost"];
     Index.md_embeds := None;
     Index.md_headings := None;
     Index.md_listItems :=
       Some [item (Some " ") 0; item (Some "x") 1; item (Some " ") 2];
     Index.md_sections := None |}.

Definition meta_c : Index.CachedMetadata :=
  {| Index.md_tags := Some ["#y"; "#y"];
     Index.md_frontmatter := None;
     Index.md_links := Some ["a"; "b"; "b"];
     Index.md_embeds := Some ["a"];
     Index.md_headings :=
       Some [{| Index.hc_level := 1; Index.hc_heading := "C" |}];
     Index.md_listItems := None;
     Index.md_sections := None |}.

(** Links resolve by base name; "ghost" resolves to nothing. *)
Definition vault : Index.App :=
  {| Index.vault_read :=
       fun f => if String.eqb (Index.f_path f) "a.md" then content_a
                else "# C";
     Index.getFirstLinkpathDest :=
       fun l _ => if String.eqb l "a" then Some "a.md"
                  else if String.eqb l "b" then Some "b.md"
                  else None;
     Index.getMarkdownFiles := [file_a; file_c];
     Index.getFileCache :=
       fun f => if String.eqb (Index.f_path f) "a.md" then Some meta_a
                else Some meta_c;
     Index.clock := wall_clock |}.

Definition index_start : World Index.IndexDoc :=
  Index.fresh_world "2024-01-20T10:29:59.000Z".

(** The document a rebuild of the vault leaves on disk. *)
Definition rebuilt : Index.IndexDoc :=
  match Index.rebuildDatabase vault index_start with
  | Some (_, w) =>
      match disk w with
      | Some db => db
      | None => Index.defaultData ""
      end
  | None => Index.defaultData ""
  end.

(** Both files of the vault are indexed, then "a.md" is deleted. *)
Definition upserts_then_delete : list (Index.App * Index.Op) :=
  [(vault, Index.Upsert file_a (Some meta_a));
   (vault, Index.Upsert file_c (Some meta_c));
   (vault, Index.Delete "a.md")].

(** ** Bridge documents *)

Definition plain (q : option string) (st : string) (ts : option string)
  : Bridge.QueryEntry :=
  {| Bridge.query := q; Bridge.status := Some st; Bridge.result := None;
     Bridge.error := None; Bridge.timestamp := ts |}.

Definition bridge_doc (queries : obj Bridge.QueryEntry) : Bridge.BridgeDoc :=
  {| Bridge.version := "2.0.0";
     Bridge.dataviewAvailable := false;
     Bridge.dataviewQueries := Some queries;
     Bridge.lastChecked := "2024-01-19T08:00:00.000Z" |}.

Definition on_disk (queries : obj Bridge.QueryEntry) : World Bridge.BridgeDoc :=
  {| disk := Some (bridge_doc queries); journal := []; ticks := 0 |}.

(** A finished query from 2020 and nothing to do. *)
Definition idle_queries : obj Bridge.QueryEntry :=
  [("old", plain (Some "LIST") "success" (Some "2020-01-01T00:00:00.000Z"))].

(** An availability check requested together with a user query. *)
Definition check_queries : obj Bridge.QueryEntry :=
  [("_check", plain None "pending" None);
   ("q1", plain (Some "LIST") "pending" None)].

(** A pending user query next to a finished one from 2020 and a finished
    one that never got a time stamp. *)
Definition busy_queries : obj Bridge.QueryEntry :=
  [("old", plain (Some "LIST") "success" (Some "2020-01-01T00:00:00.000Z"));
   ("q1", plain (Some "TABLE file.name") "pending" None);
   ("legacy", plain (Some "LIST") "error" None)].

Definition table_value : Bridge.DvValue :=
  {| Bridge.v_type := "table";
     Bridge.v_headers := Some [JStr "File"];
     Bridge.v_values := Some [JArr [JStr "a.md"]];
     Bridge.v_columnTypes := None |}.

Definition with_dataview : Bridge.App :=
  {| Bridge.dataview_api := Some (fun _ => Bridge.Successful table_value);
     Bridge.clock := wall_clock |}.

Definition without_dataview : Bridge.App :=
  {| Bridge.dataview_api := None; Bridge.clock := wall_clock |}.

End Scenarios.

(* ================================================================== *)
(** * The plugin around the index (obsidian-metadata-api/main.ts) *)
(* ================================================================== *)

Module Plugin.

Import JS Index.
Local Open Scope string_scope.

(** [s.lastIndexOf('/')]; [None] stands for -1. *)
Fixpoint lastIndexOf_slash (s : string) : option nat :=
  match s with
  | EmptyString => None
  | String c r =>
      match lastIndexOf_slash r with
      | Some i => Some (S i)
      | None => if Ascii.eqb c "/" then Some 0 else None
      end
  end.

(** [dataDir] of [ensureDataDirectory]:
    [path.substring(0, path.lastIndexOf('/'))], where [substring] takes a
    negative end for 0. *)
Definition dataDir (path : string) : string :=
  match lastIndexOf_slash path with
  | Some i => String.substring 0 i path
  | None => EmptyString
  end.

(** [getDbPath], with [configDir] for [app.vault.configDir]. *)
Definition getDbPath (configDir : string) : string :=
  configDir ++ "/plugins/obsidian-metadata-api/metadata.json".

(** [TAbstractFile]: a file or a folder. *)
Inductive TAbstractFile : Type :=
| File (f : TFile)
| Folder (folder_path : string).

(** The five events [registerEventHandlers] subscribes to. *)
Inductive VaultEvent : Type :=
| Created (file : TAbstractFile)
| Modified (file : TAbstractFile)
| Deleted (file : TAbstractFile)
| Renamed (file : TAbstractFile) (oldPath : string)
| MetadataChanged (file : TFile).

(** [file instanceof TFile && file.extension === 'md'] *)
Definition markdown (file : TAbstractFile) : option TFile :=
  match file with
  | File f => if String.eqb (f_extension f) "md" then Some f else None
  | Folder _ => None
  end.

(** The handler of an event, run to completion against the host [app] as it
    is when the handler body runs (for [create], one second after the
    event). *)
Definition handle (app : App) (ev : VaultEvent) : M IndexDoc unit :=
  match ev with
  | Created file | Modified file =>
      match markdown file with
      | Some f => updateNote app f (getFileCache app f)
      | None => ret tt
      end
  | Deleted file =>
      match markdown file with
      | Some f => deleteNote app (f_path f)
      | None => ret tt
      end
  | Renamed file oldPath =>
      match markdown file with
      | Some f =>
          deleteNote app oldPath ;;;
          updateNote app f (getFileCache app f)
      | None => ret tt
      end
  | MetadataChanged f =>
      if String.eqb (f_extension f) "md"
      then updateNote app f (getFileCache app f)
      else ret tt
  end.

(** Handlers run one after the other. *)
Definition handle_all (steps : list (App * VaultEvent)) : M IndexDoc unit :=
  for_of (fun _ step => handle (fst step) (snd step)) steps tt.

End Plugin.

(* ================================================================== *)
(** * Measures used to state what the aggregates hold *)
(* ================================================================== *)

Module Measures.

Import JS Index.
Local Open Scope string_scope.

(** A counter object has no key for what was never counted. *)
Definition counted (c : nat) : option nat :=
  match c with O => None | S _ => Some c end.

(** How many times [t] is listed in the [tags] of [notes]. *)
Definition tag_occurrences (notes : list Note) (t : string) : nat :=
  list_sum (map (fun n => count_occ string_dec (tags n) t) notes).

(** [n] is counted under the folder key [f]: its folder is [f], or it has
    no folder and [f] is "root". *)
Definition lives_in (f : string) (n : Note) : bool :=
  if String.eqb (folder n) "" then String.eqb f "root"
  else String.eqb (folder n) f.

Definition notes_in_folder (notes : list Note) (f : string) : nat :=
  List.length (filter (lives_in f) notes).

(** The notes the loop of [rebuildDatabase] leaves, starting from
    [notes]. *)
Definition upsert_all (app : App) (files : list TFile) (notes : obj Note)
  : obj Note :=
  fold_left (fun acc file =>
               set (f_path file) (note_of app file (getFileCache app file)) acc)
            files notes.

(** What a note adds to a total that sums [f] over the notes. *)
Definition share (A : Type) (f : Note -> list A) (n : option Note) : nat :=
  match n with Some n => List.length (f n) | None => 0 end.

(** The file an event is about when its handler acts on it: a markdown
    file. *)
Definition markdown_subject (ev : Plugin.VaultEvent) : option TFile :=
  match ev with
  | Plugin.Created file | Plugin.Modified file | Plugin.Deleted file
  | Plugin.Renamed file _ => Plugin.markdown file
  | Plugin.MetadataChanged f =>
      if String.eqb (f_extension f) "md" then Some f else None
  end.

(** The mutations the handler of an event performs, in order. *)
Definition ops_of (step : App * Plugin.VaultEvent) : list (App * Op) :=
  let app := fst step in
  match snd step with
  | Plugin.Created file | Plugin.Modified file =>
      match Plugin.markdown file with
      | Some f => [(app, Upsert f (getFileCache app f))]
      | None => []
      end
  | Plugin.Deleted file =>
      match Plugin.markdown file with
      | Some f => [(app, Delete (f_path f))]
      | None => []
      end
  | Plugin.Renamed file oldPath =>
      match Plugin.markdown file with
      | Some f => [(app, Delete oldPath); (app, Upsert f (getFileCache app f))]
      | None => []
      end
  | Plugin.MetadataChanged f =>
      if String.eqb (f_extension f) "md"
      then [(app, Upsert f (getFileCache app f))]
      else []
  end.

(** The handler of the event performs mutations with ordinary keys only. *)
Definition ordinary_event (step : App * Plugin.VaultEvent) : bool :=
  forallb ordinary_step (ops_of step).

(** A list item with a checkbox, and one whose checkbox is not ticked. *)
Definition is_checkbox (item : ListItemCache) : bool :=
  match li_task item with Some _ => true | None => false end.

Definition is_open_checkbox (item : ListItemCache) : bool :=
  match li_task item with
  | Some marker => String.eqb marker " "
  | None => false
  end.

(** What a poll cycle writes, in order: nothing, the one document of the
    cycle, or the probe's document followed by the cycle's own. *)
Definition cycle_writes (app : Bridge.App) (t : nat) (db : Bridge.BridgeDoc)
  (queries : obj Bridge.QueryEntry) : list Bridge.BridgeDoc :=
  let final := Bridge.with_queries db (Bridge.queries_after app t queries) in
  if Bridge.check_requested queries then
    [ {| Bridge.version := Bridge.version db;
         Bridge.dataviewAvailable := Bridge.isAvailable app;
         Bridge.dataviewQueries := Some queries;
         Bridge.lastChecked :=
           toISOString (Bridge.clock app) (time_at (Bridge.clock app) t) |};
      final ]
  else match Bridge.pendingQueries queries with
       | [] => []
       | _ :: _ => [final]
       end.

(** An entry as a finished query leaves it: a success with its result, or
    an error with a message that is not empty. *)
Definition settled (q : option string) (e : Bridge.QueryEntry) : Prop :=
  Bridge.query e = q /\
  (exists ts, Bridge.timestamp e = Some ts) /\
  ((Bridge.status e = Some "success" /\ Bridge.error e = None /\
    exists r, Bridge.result e = Some r) \/
   (Bridge.status e = Some "error" /\ Bridge.result e = None /\
    exists m, Bridge.error e = Some m /\ truthy m = true)).

End Measures.

(* ================================================================== *)
(** * More scenarios *)
(* ================================================================== *)

Module MoreScenarios.

Import JS Scenarios.
Local Open Scope string_scope.

(** The vault of [Scenarios], indexed. *)
Definition indexed : World Index.IndexDoc :=
  {| disk := Some rebuilt; journal := [rebuilt]; ticks := 4 |}.

(** "a.md" after it has been renamed to "a.txt". *)
Definition file_a_txt : Index.TFile :=
  {| Index.f_path := "a.txt"; Index.f_basename := "a";
     Index.f_extension := "txt"; Index.stat_size := 74;
     Index.stat_ctime := 1705000000000; Index.stat_mtime := 1705700000000;
     Index.parent_path := Some "/" |}.

(** "a.md" after it has been moved into the folder "notes". *)
Definition file_a_moved : Index.TFile :=
  {| Index.f_path := "notes/a.md"; Index.f_basename := "a";
     Index.f_extension := "md"; Index.stat_size := 74;
     Index.stat_ctime := 1705000000000; Index.stat_mtime := 1705700000000;
     Index.parent_path := Some "notes" |}.

(** One line of a file with Windows line ends, as [split] leaves it. *)
Definition crlf_lines : list string :=
  ["- [ ] task" ++ String "013" EmptyString].

(** A note with three code sections: two fences name Rocq, in different
    case, and one names nothing. *)
Definition file_code : Index.TFile :=
  {| Index.f_path := "snippets/code.md"; Index.f_basename := "code";
     Index.f_extension := "md"; Index.stat_size := 58;
     Index.stat_ctime := 1705200000000; Index.stat_mtime := 1705200000000;
     Index.parent_path := Some "snippets" |}.

Definition content_code : string :=
  String.concat newline
    ["```Rocq"; "Qed."; "```"; "text";
     "```"; "plain"; "```";
     "```rocq title"; "Qed."; "```"].

Definition section (type : string) (l : nat) : Index.SectionCache :=
  {| Index.sec_type := type; Index.sec_line := l |}.

Definition sections_code : list Index.SectionCache :=
  [section "code" 0; section "paragraph" 3; section "code" 4;
   section "code" 7].

Definition meta_code : Index.CachedMetadata :=
  {| Index.md_tags := None;
     Index.md_frontmatter := None;
     Index.md_links := None;
     Index.md_embeds := None;
     Index.md_headings := None;
     Index.md_listItems := None;
     Index.md_sections := Some sections_code |}.

Definition code_vault : Index.App :=
  {| Index.vault_read := fun _ => content_code;
     Index.getFirstLinkpathDest := fun _ _ => None;
     Index.getMarkdownFiles := [file_code];
     Index.getFileCache := fun _ => Some meta_code;
     Index.clock := wall_clock |}.

(** "a.md" is created and then moved into "notes", a folder is deleted and
    the metadata of "notes/c.md" changes. *)
Definition events : list (Index.App * Plugin.VaultEvent) :=
  [(vault, Plugin.Created (Plugin.File file_a));
   (vault, Plugin.Renamed (Plugin.File file_a_moved) "a.md");
   (vault, Plugin.Deleted (Plugin.Folder "old"));
   (vault, Plugin.MetadataChanged file_c)].

(** A vault without the bridge file. *)
Definition no_file : World Bridge.BridgeDoc :=
  {| disk := None; journal := []; ticks := 0 |}.

End MoreScenarios.

(* ================================================================== *)
(** * Facts about objects *)
(* ================================================================== *)

Section ObjFacts.
Import JS.
Variable V : Type.
Implicit Types (o : obj V) (k : string) (v : V).

Lemma get_In k v o : get k o = Some v -> In (k, v) o.
Proof.
  induction o as [|[k' v'] r IH]; simpl; [discriminate|].
  destruct (String.eqb_spec k k') as [->|Hne]; intros H.
  - inversion H; subst; now left.
  - right; auto.
Qed.

Lemma get_None_keys k o : get k o = None <-> ~ In k (keys o).
Proof.
  induction o as [|[k' v'] r IH]; simpl; [tauto|].
  destruct (String.eqb_spec k k') as [->|Hne].
  - split; [discriminate | intros H; exfalso; apply H; now left].
  - rewrite IH. split; [intros H [E|I]; [congruence | tauto] | tauto].
Qed.

Lemma In_get k v o : NoDup (keys o) -> In (k, v) o -> get k o = Some v.
Proof.
  induction o as [|[k' v'] r IH]; simpl; [tauto|].
  intros Hnd [E|I]; inversion Hnd as [|? ? Hnotin Hnd']; subst.
  - inversion E; subst. now rewrite String.eqb_refl.
  - destruct (String.eqb_spec k k') as [->|Hne]; [|auto].
    exfalso; apply Hnotin. apply (in_map fst) in I. exact I.
Qed.

Lemma keys_replace k v o : keys (replace k v o) = keys o.
Proof.
  induction o as [|[k' v'] r IH]; simpl; [reflexivity|].
  destruct (String.eqb k k'); simpl; [reflexivity | now rewrite IH].
Qed.

Lemma get_replace k v o k' :
  get k' (replace k v o) =
  if String.eqb k' k then match get k o with Some _ => Some v | None => None end
  else get k' o.
Proof.
  induction o as [|[k1 v1] r IH]; simpl.
  - now destruct (String.eqb k' k).
  - destruct (String.eqb_spec k k1) as [->|Hne]; simpl.
    + destruct (String.eqb_spec k' k1); reflexivity.
    + destruct (String.eqb_spec k' k1) as [->|Hne'].
      * destruct (String.eqb_spec k1 k); [congruence | reflexivity].
      * exact IH.
Qed.

Lemma get_insert_index n k v o k' :
  get k o = None ->
  get k' (insert_index n k v o) = if String.eqb k' k then Some v else get k' o.
Proof.
  induction o as [|[k1 v1] r IH]; simpl; intros Hk.
  - reflexivity.
  - destruct (String.eqb_spec k k1) as [->|Hne]; [discriminate|].
    destruct (array_index k1) as [m|]; [destruct (N.ltb n m)|]; simpl;
      try reflexivity.
    destruct (String.eqb_spec k' k1) as [->|Hne'].
    + destruct (String.eqb_spec k1 k); [congruence | reflexivity].
    + auto.
Qed.

Lemma get_app_last k v o k' :
  get k o = None ->
  get k' (o ++ [(k, v)]) = if String.eqb k' k then Some v else get k' o.
Proof.
  induction o as [|[k1 v1] r IH]; simpl; intros Hk.
  - reflexivity.
  - destruct (String.eqb_spec k k1) as [->|Hne]; [discriminate|].
    destruct (String.eqb_spec k' k1) as [->|Hne'].
    + destruct (String.eqb_spec k1 k); [congruence | reflexivity].
    + auto.
Qed.

(** Reading after [o[k] = v]. *)
Lemma get_set k v o k' :
  get k' (set k v o) = if String.eqb k' k then Some v else get k' o.
Proof.
  unfold set, has. destruct (get k o) as [v0|] eqn:Hk.
  - rewrite get_replace, Hk. reflexivity.
  - destruct (array_index k).
    + now apply get_insert_index.
    + now apply get_app_last.
Qed.

Lemma get_set_same k v o : get k (set k v o) = Some v.
Proof. rewrite get_set. now rewrite String.eqb_refl. Qed.

Lemma get_set_other k v o k' : k' <> k -> get k' (set k v o) = get k' o.
Proof.
  intros H. rewrite get_set.
  destruct (String.eqb_spec k' k); [contradiction | reflexivity].
Qed.

(** Reading after [delete o[k]]. *)
Lemma get_delete k o k' :
  get k' (delete k o) = if String.eqb k' k then None else get k' o.
Proof.
  induction o as [|[k1 v1] r IH]; simpl.
  - now destruct (String.eqb k' k).
  - destruct (String.eqb_spec k k1) as [->|Hne]; simpl.
    + rewrite IH. destruct (String.eqb_spec k' k1); reflexivity.
    + destruct (String.eqb_spec k' k1) as [->|Hne'].
      * destruct (String.eqb_spec k1 k); [congruence | reflexivity].
      * exact IH.
Qed.

Lemma keys_insert_index n k v o x :
  In x (keys (insert_index n k v o)) <-> x = k \/ In x (keys o).
Proof.
  induction o as [|[k1 v1] r IH]; simpl.
  - split; intros [H|H]; auto.
  - destruct (array_index k1) as [m|]; [destruct (N.ltb n m)|]; simpl;
      try rewrite IH; intuition auto.
Qed.

Lemma NoDup_insert_index n k v o :
  ~ In k (keys o) -> NoDup (keys o) -> NoDup (keys (insert_index n k v o)).
Proof.
  induction o as [|[k1 v1] r IH]; simpl; intros Hk Hnd.
  - constructor; [tauto | constructor].
  - inversion Hnd as [|? ? Hnotin Hnd']; subst.
    destruct (array_index k1) as [m|]; [destruct (N.ltb n m)|]; simpl;
      try (constructor; [simpl; tauto | exact Hnd]).
    constructor.
    + rewrite keys_insert_index. intros [E|I]; [|tauto].
      apply Hk. now left.
    + apply IH; [tauto | exact Hnd'].
Qed.

Lemma NoDup_set k v o : NoDup (keys o) -> NoDup (keys (set k v o)).
Proof.
  intros Hnd. unfold set, has. destruct (get k o) as [v0|] eqn:Hk.
  - now rewrite keys_replace.
  - apply get_None_keys in Hk. destruct (array_index k).
    + now apply NoDup_insert_index.
    + unfold keys. rewrite map_app. simpl.
      apply NoDup_app; [exact Hnd | constructor; [tauto | constructor] |].
      intros x Hx [E|[]]. subst. contradiction.
Qed.

Lemma keys_delete k o x :
  In x (keys (delete k o)) <-> x <> k /\ In x (keys o).
Proof.
  induction o as [|[k1 v1] r IH]; simpl; [tauto|].
  destruct (String.eqb_spec k k1) as [->|Hne]; simpl; rewrite IH.
  - split; [tauto | intros [H [E|I]]; [congruence | tauto]].
  - split; [intros [E|[H I]]; [subst; auto | tauto] | tauto].
Qed.

Lemma NoDup_delete k o : NoDup (keys o) -> NoDup (keys (delete k o)).
Proof.
  induction o as [|[k1 v1] r IH]; simpl; intros Hnd; [constructor|].
  inversion Hnd as [|? ? Hnotin Hnd']; subst.
  destruct (String.eqb k k1); [auto|]. simpl. constructor; [|auto].
  rewrite keys_delete. tauto.
Qed.

(** With distinct keys, membership and lookup say the same. *)
Lemma In_iff_get k v o : NoDup (keys o) -> (In (k, v) o <-> get k o = Some v).
Proof. intros H; split; [now apply In_get | apply get_In]. Qed.
End ObjFacts.

(* ================================================================== *)
(** * The metadata index: mutations and their two writes *)
(* ================================================================== *)

Section IndexRuns.
Import JS Index.

Lemma updateNote_run app file metadata w db :
  disk w = Some db ->
  updateNote app file metadata w =
  Some (tt, after_mutation app w db
              (set (f_path file) (note_of app file metadata) (db_notes db))).
Proof.
  intros Hd. unfold updateNote, updateTags, bind, readDb, now_iso, writeDb.
  rewrite Hd. simpl. unfold after_mutation, first_write.
  rewrite <- app_assoc. reflexivity.
Qed.

Lemma deleteNote_run app p w db :
  disk w = Some db ->
  deleteNote app p w =
  Some (tt, after_mutation app w db (delete p (db_notes db))).
Proof.
  intros Hd. unfold deleteNote, updateTags, bind, readDb, now_iso, writeDb.
  rewrite Hd. simpl. unfold after_mutation, first_write.
  rewrite <- app_assoc. reflexivity.
Qed.

Lemma run_op_run step w db :
  disk w = Some db ->
  run_op (fst step) (snd step) w =
  Some (tt, after_mutation (fst step) w db (notes_after step (db_notes db))).
Proof.
  destruct step as [app [file metadata|p]]; simpl; intros Hd.
  - now apply updateNote_run.
  - now apply deleteNote_run.
Qed.

(** [initDatabase] on a vault without the file creates the default
    document. *)
Lemma initDatabase_fresh app :
  initDatabase app {| disk := None; journal := []; ticks := 0 |} =
  Some (tt, fresh_world (toISOString (clock app) (time_at (clock app) 0))).
Proof. reflexivity. Qed.

(** [initDatabase] leaves an existing file alone. *)
Lemma initDatabase_existing app w db :
  disk w = Some db ->
  exists w', initDatabase app w = Some (tt, w') /\ disk w' = Some db /\
             journal w' = journal w.
Proof.
  intros Hd. unfold initDatabase, bind, now_iso. simpl. rewrite Hd.
  eexists. split; [reflexivity|]. auto.
Qed.

Lemma sum_shift (A : Type) (f : A -> nat) (l : list A) (a : nat) :
  fold_left (fun acc x => acc + f x) l a = a + list_sum (map f l).
Proof.
  revert a. induction l as [|x r IH]; simpl; intros a; [lia|].
  rewrite IH. lia.
Qed.

Lemma sum_list_sum (A : Type) (f : A -> nat) (l : list A) :
  sum f l = list_sum (map f l).
Proof. unfold sum. now rewrite sum_shift. Qed.

Lemma incomplete_filter (l : list Task) :
  incomplete l = filter (fun t => Bool.eqb (completed t) false) l.
Proof.
  unfold incomplete. apply filter_ext. intros t. now destruct (completed t).
Qed.

(** Whatever the first write left in the aggregates, the recomputation
    makes the statistics agree with the notes. *)
Lemma recompute_consistent db :
  totalNotes (db_stats db) = List.length (db_notes db) ->
  stats_consistent (recompute db).
Proof.
  intros Hn. unfold stats_consistent, recompute; simpl.
  repeat split; try apply sum_list_sum; exact Hn.
Qed.

Lemma first_write_totalNotes app w db notes' :
  totalNotes (db_stats (first_write app w db notes')) = List.length notes'.
Proof. simpl. unfold keys. apply length_map. Qed.

Lemma defaultData_consistent now : stats_consistent (defaultData now).
Proof. unfold stats_consistent; simpl. tauto. Qed.

(** The recomputed content is a function of the notes alone. *)
Lemma content_after app w db app' w' db' notes' :
  content (recompute (first_write app w db notes')) =
  content (recompute (first_write app' w' db' notes')).
Proof. reflexivity. Qed.

Lemma run_ops_consistent steps : forall w db,
  disk w = Some db -> stats_consistent db ->
  exists w' db', run_ops steps w = Some (tt, w') /\ disk w' = Some db' /\
                 stats_consistent db'.
Proof.
  induction steps as [|step rest IH]; intros w db Hd Hc.
  - exists w, db. auto.
  - unfold run_ops; simpl. unfold bind at 1.
    rewrite (run_op_run step w Hd).
    apply (IH _ (recompute (first_write (fst step) w db
                               (notes_after step (db_notes db))))).
    + reflexivity.
    + apply recompute_consistent, first_write_totalNotes.
Qed.

(** C1. Starting from the empty default document, every sequence of
    upserts and deletes that use ordinary keys completes, and the persisted
    document then has [stats.totalNotes] equal to the number of notes,
    [stats.totalTags] equal to the number of keys of [tags], and
    [totalLinks], [totalEmbeds], [totalTasks] and [totalIncompleteTasks]
    equal to the sums over all notes of the numbers of outlinks, embeds,
    tasks and tasks that are not completed. *)
Theorem stats_consistent_after_ops (now : string) (steps : list (App * Op)) :
  forallb ordinary_step steps = true ->
  exists w db,
    run_ops steps (fresh_world now) = Some (tt, w) /\
    disk w = Some db /\
    stats_consistent db.
Proof.
  intros _.
  apply (run_ops_consistent steps (fresh_world now) (db := defaultData now)).
  - reflexivity.
  - apply defaultData_consistent.
Qed.


Lemma rebuild_loop_content files app : forall w1 w2 d1 d2,
  disk w1 = Some d1 -> disk w2 = Some d2 -> content d1 = content d2 ->
  exists w1' w2' d1' d2',
    for_of (fun _ file => updateNote app file (getFileCache app file))
           files tt w1 = Some (tt, w1') /\
    for_of (fun _ file => updateNote app file (getFileCache app file))
           files tt w2 = Some (tt, w2') /\
    disk w1' = Some d1' /\ disk w2' = Some d2' /\ content d1' = content d2'.
Proof.
  induction files as [|file rest IH]; intros w1 w2 d1 d2 H1 H2 Hc.
  - exists w1, w2, d1, d2. auto.
  - cbn [for_of]. unfold bind.
    rewrite (updateNote_run app file (getFileCache app file) w1 H1).
    rewrite (updateNote_run app file (getFileCache app file) w2 H2).
    assert (Hn : db_notes d1 = db_notes d2)
      by (unfold content in Hc; congruence).
    eapply IH; try reflexivity. rewrite Hn. apply content_after.
Qed.

(** C7. Rebuilding twice with the same vault, whose markdown files are
    upserted with ordinary keys, leaves the same [notes], [tags],
    [folders], [links] and statistics as rebuilding once; only the time
    stamp may differ. *)
Theorem rebuildDatabase_idempotent (app : App) (w : World IndexDoc) :
  ordinary_vault app = true ->
  exists w1 w2 d1 d2,
    rebuildDatabase app w = Some (tt, w1) /\
    rebuildDatabase app w1 = Some (tt, w2) /\
    disk w1 = Some d1 /\ disk w2 = Some d2 /\
    content d2 = content d1.
Proof.
  intros _. unfold rebuildDatabase, bind, now_iso, writeDb.
  set (loop := for_of (fun _ file => updateNote app file (getFileCache app file))
                      (getMarkdownFiles app) tt).
  set (start := fun w0 : World IndexDoc =>
         {| disk := Some (defaultData
                            (toISOString (clock app)
                                         (time_at (clock app) (ticks w0))));
            journal := journal w0 ++
                       [defaultData
                          (toISOString (clock app)
                                       (time_at (clock app) (ticks w0)))];
            ticks := S (ticks w0) |}).
  destruct (rebuild_loop_content (getMarkdownFiles app) app
              (start w) (start w) eq_refl eq_refl eq_refl)
    as (w1 & _ & d1 & _ & R1 & _ & D1 & _ & _).
  destruct (rebuild_loop_content (getMarkdownFiles app) app
              (start w) (start w1) eq_refl eq_refl eq_refl)
    as (w1' & w2 & d1' & d2 & R1' & R2 & D1' & D2 & C2).
  fold loop in R1, R1', R2.
  rewrite R1 in R1'. inversion R1'; subst w1'.
  rewrite D1 in D1'. inversion D1'; subst d1'.
  exists w1, w2, d1, d2.
  change (loop (start w) = Some (tt, w1) /\ loop (start w1) = Some (tt, w2) /\
          disk w1 = Some d1 /\ disk w2 = Some d2 /\ content d2 = content d1).
  auto.
Qed.
End IndexRuns.

(* ================================================================== *)
(** * The link graph *)
(* ================================================================== *)

Section LinkGraph.
Import JS Index.

Lemma includes_In l x : includes l x = true <-> In x l.
Proof.
  unfold includes. rewrite existsb_exists. split.
  - intros (y & Hy & E). apply String.eqb_eq in E. now subst.
  - intros H. exists x. split; [exact H | apply String.eqb_refl].
Qed.

Lemma get_ensure p links k :
  get k (ensure p links) =
  if String.eqb k p then Some (entry_or_empty (get p links)) else get k links.
Proof.
  unfold ensure, has. destruct (get p links) as [e|] eqn:Hp.
  - destruct (String.eqb_spec k p) as [->|]; [exact Hp | reflexivity].
  - apply get_set.
Qed.

Lemma get_add_backlink source links t k :
  get k (add_backlink source links t) =
  if String.eqb k t
  then Some (push_backlink source (entry_or_empty (get t links)))
  else get k links.
Proof.
  unfold add_backlink. rewrite get_ensure, String.eqb_refl.
  unfold push_backlink.
  destruct (includes (l_backlinks (entry_or_empty (get t links))) source).
  - rewrite get_ensure. reflexivity.
  - rewrite get_set, get_ensure.
    destruct (String.eqb k t); reflexivity.
Qed.

Lemma push_backlink_idem source e :
  push_backlink source (push_backlink source e) = push_backlink source e.
Proof.
  unfold push_backlink.
  destruct (includes (l_backlinks e) source) eqn:H; [now rewrite H|].
  simpl. replace (includes (l_backlinks e ++ [source]) source) with true;
    [reflexivity|].
  symmetry. apply includes_In, in_or_app. right. now left.
Qed.

Lemma In_push_backlink source e x :
  In x (l_backlinks (push_backlink source e)) <->
  In x (l_backlinks e) \/ x = source.
Proof.
  unfold push_backlink.
  destruct (includes (l_backlinks e) source) eqn:H; simpl.
  - apply includes_In in H. split; [tauto | intros [I| ->]; assumption].
  - rewrite in_app_iff. simpl. intuition congruence.
Qed.

Lemma NoDup_push_backlink source e :
  NoDup (l_backlinks e) -> NoDup (l_backlinks (push_backlink source e)).
Proof.
  intros Hnd. unfold push_backlink.
  destruct (includes (l_backlinks e) source) eqn:H; simpl; [exact Hnd|].
  apply NoDup_app; [exact Hnd | constructor; [tauto | constructor] |].
  intros x Hx [E|[]]. subst x. apply includes_In in Hx. congruence.
Qed.

Lemma outlinks_push_backlink source e :
  l_outlinks (push_backlink source e) = l_outlinks e.
Proof.
  unfold push_backlink. now destruct (includes (l_backlinks e) source).
Qed.

(** The inner loop: every target gets the backlink once. *)
Lemma get_fold_add_backlink source ts : forall links k,
  get k (fold_left (add_backlink source) ts links) =
  if includes ts k
  then Some (push_backlink source (entry_or_empty (get k links)))
  else get k links.
Proof.
  induction ts as [|t r IH]; intros links k; [reflexivity|].
  cbn [fold_left]. rewrite IH, get_add_backlink.
  unfold includes. cbn [existsb].
  destruct (String.eqb_spec k t) as [->|Hne]; cbn [orb].
  - destruct (existsb (String.eqb t) r); [|reflexivity].
    cbn [entry_or_empty]. now rewrite push_backlink_idem.
  - reflexivity.
Qed.

(** One round of the outer loop. *)
Lemma get_link_note links note k :
  get k (link_note links note) =
  let base :=
    if String.eqb k (path note)
    then Some {| l_outlinks := outlinks note;
                 l_backlinks := l_backlinks (entry_or_empty (get k links)) |}
    else get k links in
  if includes (outlinks note) k
  then Some (push_backlink (path note) (entry_or_empty base))
  else base.
Proof.
  unfold link_note. rewrite get_fold_add_backlink.
  rewrite (get_ensure (path note) links (path note)), String.eqb_refl.
  rewrite get_set, get_ensure.
  destruct (String.eqb_spec k (path note)) as [->|Hne]; reflexivity.
Qed.

Lemma backlinks_link_note links note k :
  l_backlinks (entry_or_empty (get k (link_note links note))) =
  let e := entry_or_empty (get k links) in
  if includes (outlinks note) k
  then l_backlinks (push_backlink (path note)
                      {| l_outlinks := l_outlinks e;
                         l_backlinks := l_backlinks e |})
  else l_backlinks e.
Proof.
  rewrite get_link_note. cbv zeta.
  destruct (String.eqb k (path note)), (includes (outlinks note) k);
    cbn [entry_or_empty]; try reflexivity;
    unfold push_backlink; cbn [l_backlinks];
    destruct (includes _ (path note)); reflexivity.
Qed.

Lemma links_inv_step links done note :
  links_inv links done ->
  ~ In (path note) (map path done) ->
  links_inv (link_note links note) (done ++ [note]).
Proof.
  intros (I1 & I2 & I3) Hfresh. repeat split.
  - (* backlinks, left to right *)
    rewrite backlinks_link_note. cbv zeta.
    destruct (includes (outlinks note) k) eqn:Hk.
    + rewrite In_push_backlink. cbn [l_backlinks]. intros [H| ->].
      * apply I1 in H. destruct H as (n & Hn & Hp & Ho).
        exists n. rewrite in_app_iff. auto.
      * exists note. rewrite in_app_iff. apply includes_In in Hk.
        simpl. auto.
    + intros H. apply I1 in H. destruct H as (n & Hn & Hp & Ho).
      exists n. rewrite in_app_iff. auto.
  - (* backlinks, right to left *)
    intros (n & Hn & Hp & Ho). rewrite backlinks_link_note. cbv zeta.
    apply in_app_iff in Hn. destruct Hn as [Hn|[->|[]]].
    + assert (H : In x (l_backlinks (entry_or_empty (get k links))))
        by (apply I1; eauto).
      destruct (includes (outlinks note) k); [|exact H].
      apply In_push_backlink. now left.
    + apply includes_In in Ho. rewrite Ho.
      apply In_push_backlink. now right.
  - (* outlinks *)
    intros n Hn. rewrite get_link_note. cbv zeta.
    apply in_app_iff in Hn. destruct Hn as [Hn|[->|[]]].
    + destruct (I2 n Hn) as (e & He & Ho).
      destruct (String.eqb_spec (path n) (path note)) as [E|_].
      * exfalso. apply Hfresh. rewrite <- E. now apply in_map.
      * rewrite He. cbn [entry_or_empty].
        destruct (includes (outlinks note) (path n)).
        -- eexists. split; [reflexivity|].
           now rewrite outlinks_push_backlink.
        -- eauto.
    + rewrite String.eqb_refl. cbn [entry_or_empty].
      destruct (includes (outlinks n) (path n)).
      * eexists. split; [reflexivity|].
        now rewrite outlinks_push_backlink.
      * eauto.
  - (* no duplicates *)
    intros k. rewrite backlinks_link_note. cbv zeta.
    destruct (includes (outlinks note) k); [|apply I3].
    apply NoDup_push_backlink. apply I3.
Qed.

Lemma links_inv_fold notes : forall done links,
  NoDup (map path (done ++ notes)) ->
  links_inv links done ->
  links_inv (fold_left link_note notes links) (done ++ notes).
Proof.
  induction notes as [|note rest IH]; intros done links Hnd Hinv.
  - now rewrite app_nil_r.
  - cbn [fold_left].
    replace (done ++ note :: rest) with ((done ++ [note]) ++ rest) in *
      by (rewrite <- app_assoc; reflexivity).
    apply IH; [exact Hnd|].
    apply links_inv_step; [exact Hinv|].
    rewrite !map_app in Hnd. apply NoDup_app_remove_r in Hnd.
    apply NoDup_remove_2 in Hnd. rewrite app_nil_r in Hnd. exact Hnd.
Qed.

Lemma links_inv_empty : links_inv [] [].
Proof.
  repeat split; simpl.
  - tauto.
  - intros (n & [] & _).
  - intros n [].
  - constructor.
Qed.

Lemma build_links_inv notes :
  NoDup (map path notes) -> links_inv (build_links notes) notes.
Proof.
  intros Hnd. apply (@links_inv_fold notes [] []); [exact Hnd|].
  apply links_inv_empty.
Qed.

Lemma notes_wf_paths notes :
  notes_wf notes -> map path (values notes) = keys notes.
Proof.
  intros [_ Hp]. unfold values, keys. rewrite map_map.
  apply map_ext_in. intros [k n] Hin. simpl. now apply Hp.
Qed.

Lemma NoDup_map_inj (A B : Type) (f : A -> B) (l : list A) x y :
  NoDup (map f l) -> In x l -> In y l -> f x = f y -> x = y.
Proof.
  induction l as [|a r IH]; simpl; [tauto|].
  intros Hnd Hx Hy E. inversion Hnd as [|? ? Hnotin Hnd']; subst.
  destruct Hx as [->|Hx], Hy as [->|Hy]; auto.
  - exfalso. apply Hnotin. rewrite E. now apply in_map.
  - exfalso. apply Hnotin. rewrite <- E. now apply in_map.
Qed.

(** What the link graph built from [notes] says about a note [N] and
    a path [P], and about every list of backlinks. *)
Lemma build_links_spec notes :
  NoDup (map path notes) ->
  (forall N P, In N notes ->
     (in_outlinks (build_links notes) (path N) P <->
      in_backlinks (build_links notes) P (path N))) /\
  (forall k e, get k (build_links notes) = Some e -> NoDup (l_backlinks e)).
Proof.
  intros Hnd. destruct (@build_links_inv _ Hnd) as (I1 & I2 & I3).
  split.
  - intros N P HN. unfold in_outlinks, in_backlinks.
    destruct (I2 N HN) as (e & He & Ho). split.
    + intros (e' & He' & HP). rewrite He in He'. inversion He'; subst e'.
      rewrite Ho in HP.
      assert (H : In (path N) (l_backlinks (entry_or_empty
                                  (get P (build_links notes)))))
        by (apply I1; eauto).
      destruct (get P (build_links notes)) as [eP|]; [eauto | destruct H].
    + intros (eP & HeP & Hin).
      assert (H : exists n, In n notes /\ path n = path N /\ In P (outlinks n))
        by (apply I1; rewrite HeP; exact Hin).
      destruct H as (n & Hn & Hp & HPn).
      assert (n = N) by (eapply NoDup_map_inj; eauto). subst n.
      exists e. rewrite Ho. auto.
  - intros k e He. specialize (I3 k). now rewrite He in I3.
Qed.

(** C2. After the recomputation, for every note N of [notes] and every
    path P: P is listed in [links[N.path].outlinks] exactly when N.path is
    listed in [links[P].backlinks], whether or not P is itself a note, and
    no backlink list has duplicates.  The keys of [notes] are the paths of
    its entries, as [updateNote] stores them, and the notes have ordinary
    keys: their paths and their outlinks are not names the object [links]
    inherits. *)
Theorem outlinks_iff_backlinks (db : IndexDoc) :
  notes_wf (db_notes db) ->
  ordinary_notes (db_notes db) = true ->
  let links := db_links (recompute db) in
  (forall N P, In N (values (db_notes (recompute db))) ->
     (in_outlinks links (path N) P <-> in_backlinks links P (path N))) /\
  (forall k e, get k links = Some e -> NoDup (l_backlinks e)).
Proof.
  intros Hwf _. cbn [recompute db_links db_notes].
  apply build_links_spec.
  rewrite (notes_wf_paths Hwf). apply Hwf.
Qed.
End LinkGraph.

(* ================================================================== *)
(** * The query bridge: one poll cycle, branch by branch *)
(* ================================================================== *)

Section BridgeRuns.
Import JS Bridge.

Lemma transition_loop ck f pending : forall queries (w : World BridgeDoc),
  for_of (transition ck f) pending queries w =
  Some (stamped ck f (ticks w) pending queries,
        {| disk := disk w; journal := journal w;
           ticks := ticks w + List.length pending |}).
Proof.
  induction pending as [|entry rest IH]; intros queries w.
  - simpl. unfold ret. rewrite Nat.add_0_r. now destruct w.
  - cbn [for_of]. unfold bind at 1. unfold transition at 1.
    unfold bind, now_iso, ret. rewrite IH. simpl.
    repeat f_equal. lia.
Qed.

Lemma fail_query_transition ck : fail_query ck = transition ck mark_failed.
Proof. reflexivity. Qed.

Lemma execute_query_transition ck dv :
  execute_query ck dv = transition ck (run_query dv).
Proof. reflexivity. Qed.

(** Entries whose id is not pending are not touched by the loop. *)
Lemma get_stamped_other ck f pending : forall t queries id,
  ~ In id (keys pending) ->
  get id (stamped ck f t pending queries) = get id queries.
Proof.
  induction pending as [|[k e] rest IH]; intros t queries id Hid;
    [reflexivity|].
  simpl in *. rewrite IH by tauto. apply get_set_other. intuition.
Qed.

(** With distinct ids, the i-th pending entry is rebuilt with the i-th
    clock reading of the loop. *)
Lemma get_stamped_nth ck f pending : forall t queries i id e,
  NoDup (keys pending) ->
  nth_error pending i = Some (id, e) ->
  get id (stamped ck f t pending queries) =
  Some (f e (toISOString ck (time_at ck (t + i)))).
Proof.
  induction pending as [|[k e0] rest IH]; intros t queries i id e Hnd Hi.
  - destruct i; discriminate.
  - inversion Hnd as [|? ? Hnotin Hnd']; subst. destruct i as [|i].
    + inversion Hi; subst. simpl.
      rewrite get_stamped_other by exact Hnotin.
      rewrite Nat.add_0_r. apply get_set_same.
    + cbn [nth_error] in Hi. cbn [stamped].
      rewrite (IH (S t) _ i id e Hnd' Hi).
      now rewrite Nat.add_succ_r.
Qed.

(** Whatever the ids, a pending id ends up with an entry built by [f]. *)
Lemma get_stamped_built ck f pending : forall t queries id,
  In id (keys pending) ->
  exists e now, In (id, e) pending /\
                get id (stamped ck f t pending queries) = Some (f e now).
Proof.
  induction pending as [|[k e0] rest IH]; intros t queries id Hid;
    [destruct Hid|].
  destruct (in_dec string_dec id (keys rest)) as [Hin|Hnotin].
  - destruct (IH (S t) (set k (f e0 (toISOString ck (time_at ck t))) queries)
                 id Hin) as (e & now & He & Hg).
    exists e, now. split; [now right | exact Hg].
  - destruct Hid as [E|Hin]; [|contradiction]. simpl in E. subst k.
    exists e0, (toISOString ck (time_at ck t)). split; [now left|].
    simpl. rewrite get_stamped_other by exact Hnotin. apply get_set_same.
Qed.

Lemma keys_stamped ck f pending : forall t queries,
  NoDup (keys queries) -> NoDup (keys (stamped ck f t pending queries)).
Proof.
  induction pending as [|[k e0] rest IH]; intros t queries Hnd;
    [exact Hnd|].
  simpl. apply IH. now apply NoDup_set.
Qed.

Lemma In_pendingQueries queries id e :
  In (id, e) (pendingQueries queries) <->
  In (id, e) queries /\ is_control id = false /\ status_is e "pending" = true.
Proof.
  unfold pendingQueries, is_pending. rewrite filter_In. simpl.
  rewrite andb_true_iff, negb_true_iff. tauto.
Qed.

Lemma NoDup_keys_filter (p : string * QueryEntry -> bool) queries :
  NoDup (keys queries) -> NoDup (keys (filter p queries)).
Proof.
  induction queries as [|[k e] r IH]; simpl; intros Hnd; [constructor|].
  inversion Hnd as [|? ? Hnotin Hnd']; subst.
  destruct (p (k, e)); simpl; [|auto]. constructor; [|auto].
  intros Hin. apply Hnotin. unfold keys in *.
  apply in_map_iff in Hin. destruct Hin as ([k' e'] & E & Hin).
  apply filter_In in Hin. simpl in E. subst k'.
  apply in_map_iff. exists (k, e'). tauto.
Qed.

Lemma get_filter (p : string * QueryEntry -> bool) queries id :
  NoDup (keys queries) ->
  get id (filter p queries) =
  match get id queries with
  | Some e => if p (id, e) then Some e else None
  | None => None
  end.
Proof.
  induction queries as [|[k e] r IH]; simpl; intros Hnd; [reflexivity|].
  inversion Hnd as [|? ? Hnotin Hnd']; subst.
  destruct (String.eqb_spec id k) as [->|Hne].
  - destruct (p (k, e)); simpl; [now rewrite String.eqb_refl|].
    apply get_None_keys. intros Hin. apply Hnotin.
    unfold keys in *. apply in_map_iff in Hin.
    destruct Hin as ([k' e'] & E & Hin). apply filter_In in Hin.
    simpl in E. subst k'. apply in_map_iff. exists (k, e'). tauto.
  - destruct (p (k, e)); simpl; [|auto].
    destruct (String.eqb_spec id k); [contradiction | auto].
Qed.

(** After either loop no user query is pending, provided [f] never
    builds a pending entry. *)
Lemma stamped_none_pending ck f t queries :
  (forall e now, status_is (f e now) "pending" = false) ->
  none_pending (stamped ck f t (pendingQueries queries) queries).
Proof.
  intros Hf id e Hg Hc.
  destruct (in_dec string_dec id (keys (pendingQueries queries)))
    as [Hin|Hnotin].
  - destruct (get_stamped_built ck f (pendingQueries queries) t queries
                id Hin) as (e0 & now & _ & Hg').
    rewrite Hg in Hg'. inversion Hg'; subst. apply Hf.
  - rewrite get_stamped_other in Hg by exact Hnotin.
    destruct (status_is e "pending") eqn:Hs; [|reflexivity].
    exfalso. apply Hnotin. apply get_In in Hg.
    apply (in_map fst _ (id, e)). apply In_pendingQueries. auto.
Qed.

Lemma mark_failed_not_pending e now :
  status_is (mark_failed e now) "pending" = false.
Proof. reflexivity. Qed.

Lemma run_query_not_pending dv e now :
  status_is (run_query dv e now) "pending" = false.
Proof. unfold run_query. now destruct (dv (query e)). Qed.

(** The branch taken when [_check] is pending: the probe writes its
    document, then the copy read before the probe is written over it. *)
Lemma cycle_check app w db queries :
  disk w = Some db -> dataviewQueries db = Some queries ->
  check_requested queries = true ->
  checkAndExecuteDataviewQueries app w =
  Some (tt,
        {| disk := Some (with_queries db (delete "_check" queries));
           journal :=
             journal w ++
             [ {| version := version db;
                  dataviewAvailable := isAvailable app;
                  dataviewQueries := Some queries;
                  lastChecked :=
                    toISOString (clock app) (time_at (clock app) (ticks w)) |};
               with_queries db (delete "_check" queries) ];
           ticks := S (ticks w) |}).
Proof.
  intros Hd Hq Hc.
  unfold checkAndExecuteDataviewQueries, bind at 1, readDb at 1.
  rewrite Hd, Hq, Hc.
  unfold checkDataviewAvailability, bind, readDb, now_iso, writeDb.
  rewrite Hd. simpl. rewrite Hq, <- app_assoc. reflexivity.
Qed.

(** One poll cycle over a document that has [dataviewQueries] always
    returns, and leaves [queries_after] on disk. *)
Lemma cycle_queries app w db queries :
  disk w = Some db -> dataviewQueries db = Some queries ->
  exists w',
    checkAndExecuteDataviewQueries app w = Some (tt, w') /\
    queries_on_disk w' = Some (queries_after app (ticks w) queries) /\
    ticks w' = ticks w +
               (if check_requested queries then 1
                else match pendingQueries queries, dataview_api app with
                     | [], _ => 0
                     | _ :: _, None => List.length (pendingQueries queries)
                     | _ :: _, Some _ =>
                         S (List.length (pendingQueries queries))
                     end).
Proof.
  intros Hd Hq. unfold queries_after.
  destruct (check_requested queries) eqn:Hc.
  - rewrite (cycle_check app w Hd Hq Hc). eexists.
    split; [reflexivity|]. split; [reflexivity|]. simpl. lia.
  - unfold checkAndExecuteDataviewQueries, bind at 1, readDb at 1.
    rewrite Hd, Hq, Hc.
    destruct (pendingQueries queries) as [|p0 rest] eqn:Hp.
    + exists w. unfold ret, queries_on_disk. rewrite Hd, Hq.
      split; [reflexivity|]. split; [reflexivity|]. lia.
    + destruct (dataview_api app) as [dv|].
      * rewrite execute_query_transition. unfold bind at 1.
        rewrite transition_loop. unfold bind, date_now, writeDb.
        eexists. split; [reflexivity|]. split; [reflexivity|].
        cbn [ticks]. lia.
      * rewrite fail_query_transition. unfold bind at 1.
        rewrite transition_loop. unfold writeDb.
        eexists. split; [reflexivity|]. split; [reflexivity|].
        reflexivity.
Qed.

Lemma none_pending_idle queries :
  pendingQueries queries = [] -> none_pending queries.
Proof.
  intros Hp id e Hg Hc. destruct (status_is e "pending") eqn:Hs; [|reflexivity].
  assert (H : In (id, e) (pendingQueries queries))
    by (apply In_pendingQueries; auto using get_In).
  rewrite Hp in H. destruct H.
Qed.

(** C5, as the code has it.  In a poll cycle that finds no pending [_check]
    and no Dataview API, every pending user query becomes an error entry:
    its old entry with [status] "error", [error] "Dataview plugin not
    available" and [timestamp] one of the clock readings of the cycle; and
    no user query is pending in the document the cycle leaves on disk. *)
Theorem unavailable_cycle_fails_pending app w db queries :
  disk w = Some db ->
  dataviewQueries db = Some queries ->
  NoDup (keys queries) ->
  check_requested queries = false ->
  dataview_api app = None ->
  exists w' queries',
    checkAndExecuteDataviewQueries app w = Some (tt, w') /\
    queries_on_disk w' = Some queries' /\
    (forall id e, awaiting queries id e ->
       exists e', get id queries' = Some e' /\
                  failed_between (clock app) (ticks w) (ticks w') e e') /\
    none_pending queries'.
Proof.
  intros Hd Hq Hnd Hc Hapi.
  destruct (cycle_queries app w Hd Hq) as (w' & Hrun & Hdisk & Ht).
  exists w', (queries_after app (ticks w) queries).
  split; [exact Hrun|]. split; [exact Hdisk|].
  unfold queries_after. rewrite Hc, Hapi in *.
  destruct (pendingQueries queries) as [|p0 rest] eqn:Hp.
  - split; [|now apply none_pending_idle].
    intros id e (Hg & Hctl & Hs). exfalso.
    assert (H : In (id, e) (pendingQueries queries))
      by (apply In_pendingQueries; auto using get_In).
    rewrite Hp in H. destruct H.
  - rewrite <- Hp in *. split.
    + intros id e (Hg & Hctl & Hs).
      assert (H : In (id, e) (pendingQueries queries))
        by (apply In_pendingQueries; auto using get_In).
      apply In_nth_error in H. destruct H as (i & Hi).
      exists (mark_failed e (toISOString (clock app)
                               (time_at (clock app) (ticks w + i)))).
      split.
      * apply get_stamped_nth; [|exact Hi].
        now apply NoDup_keys_filter.
      * exists (ticks w + i). split; [|reflexivity].
        assert (i < List.length (pendingQueries queries))
          by (apply nth_error_Some; congruence).
        lia.
    + apply stamped_none_pending. apply mark_failed_not_pending.
Qed.

Lemma get_kept (p : string * QueryEntry -> bool) queries id e :
  get id queries = Some e -> p (id, e) = true ->
  get id (filter p queries) = Some e.
Proof.
  induction queries as [|[k e0] r IH]; simpl; [discriminate|].
  destruct (String.eqb_spec id k) as [->|Hne]; intros Hg Hp.
  - inversion Hg; subst. rewrite Hp. simpl. now rewrite String.eqb_refl.
  - destruct (p (k, e0)); simpl; [|auto].
    destruct (String.eqb_spec id k); [contradiction | auto].
Qed.

Lemma expired_spec oneDayAgo id e :
  expired oneDayAgo (id, e) = true <->
  is_control id = false /\
  exists ts, timestamp e = Some ts /\ older_than oneDayAgo ts.
Proof.
  unfold expired, older_than. simpl.
  rewrite andb_true_iff, negb_true_iff.
  destruct (timestamp e) as [ts|].
  - rewrite andb_true_iff. split.
    + intros (Hc & Ht & Hl). eauto.
    + intros (Hc & ts' & E & Ht & Hl). inversion E; subst. auto.
  - split; [intros [_ H]; discriminate | intros (_ & ts & E & _); discriminate].
Qed.

(** The cleanup deletes an entry only if it is expired. *)
Lemma cleanup_removed oneDayAgo queries id e :
  get id queries = Some e ->
  get id (cleanup oneDayAgo queries) = None ->
  expired oneDayAgo (id, e) = true.
Proof.
  intros Hg Hn. destruct (expired oneDayAgo (id, e)) eqn:He; [reflexivity|].
  unfold cleanup in Hn.
  rewrite (@get_kept (fun entry => negb (expired oneDayAgo entry))
             queries id e Hg) in Hn; [discriminate|].
  now rewrite He.
Qed.

Lemma not_awaiting_not_pending_key queries id e :
  NoDup (keys queries) -> get id queries = Some e ->
  is_control id || negb (status_is e "pending") = true ->
  ~ In id (keys (pendingQueries queries)).
Proof.
  intros Hnd Hg Hs Hin. unfold keys in Hin. apply in_map_iff in Hin.
  destruct Hin as ([k e2] & E & Hin). simpl in E. subst k.
  apply In_pendingQueries in Hin. destruct Hin as (Hin & Hc & Hp).
  apply (@In_get _ id e2 queries Hnd) in Hin. rewrite Hg in Hin. inversion Hin; subst.
  rewrite Hc, Hp in Hs. discriminate.
Qed.

(** C3, as the code has it.  A poll cycle that executes queries (no
    pending [_check], at least one pending user query, Dataview
    available) deletes every user query that was not pending and whose
    time stamp is a non-empty string below the ISO string of the cycle's
    [Date.now()] minus 24 hours; and the document it leaves on disk holds
    no user query with such a time stamp. *)
Theorem executing_cycle_purges app dv w db queries :
  disk w = Some db ->
  dataviewQueries db = Some queries ->
  NoDup (keys queries) ->
  check_requested queries = false ->
  pendingQueries queries <> [] ->
  dataview_api app = Some dv ->
  let oneDayAgo :=
    cutoff (clock app) (ticks w + List.length (pendingQueries queries)) in
  exists w' queries',
    checkAndExecuteDataviewQueries app w = Some (tt, w') /\
    queries_on_disk w' = Some queries' /\
    (forall id e ts,
       get id queries = Some e -> is_control id = false ->
       status_is e "pending" = false ->
       timestamp e = Some ts -> older_than oneDayAgo ts ->
       get id queries' = None) /\
    (forall id e' ts,
       get id queries' = Some e' -> is_control id = false ->
       timestamp e' = Some ts -> ~ older_than oneDayAgo ts).
Proof.
  intros Hd Hq Hnd Hc Hp Hapi. cbv zeta.
  destruct (cycle_queries app w Hd Hq) as (w' & Hrun & Hdisk & _).
  exists w', (queries_after app (ticks w) queries).
  split; [exact Hrun|]. split; [exact Hdisk|].
  unfold queries_after. rewrite Hc, Hapi.
  destruct (pendingQueries queries) as [|p0 rest] eqn:Hpq; [congruence|].
  rewrite <- Hpq in *.
  set (oneDayAgo := cutoff (clock app)
                      (ticks w + List.length (pendingQueries queries))).
  split.
  - intros id e ts Hg Hctl Hs Hts Hold. unfold cleanup.
    rewrite get_filter by now apply keys_stamped.
    rewrite get_stamped_other, Hg.
    + replace (expired oneDayAgo (id, e)) with true; [reflexivity|].
      symmetry. apply expired_spec. eauto.
    + apply (@not_awaiting_not_pending_key queries id e Hnd Hg). rewrite Hs.
      apply orb_true_r.
  - intros id e' ts Hg Hctl Hts Hold. apply get_In in Hg.
    unfold cleanup in Hg. apply filter_In in Hg. destruct Hg as [_ Hg].
    apply negb_true_iff in Hg.
    assert (expired oneDayAgo (id, e') = true)
      by (apply expired_spec; eauto).
    congruence.
Qed.

(** C6. When the cleanup of a poll cycle runs, the pending user queries
    have all been executed: no user query of the document in memory is
    pending at that point, so every entry the cleanup deletes has a
    status other than pending. *)
Theorem cleanup_removes_no_pending app dv w db queries :
  disk w = Some db ->
  dataviewQueries db = Some queries ->
  check_requested queries = false ->
  pendingQueries queries <> [] ->
  dataview_api app = Some dv ->
  exists in_memory w1 w',
    for_of (execute_query (clock app) dv) (pendingQueries queries) queries w
      = Some (in_memory, w1) /\
    checkAndExecuteDataviewQueries app w = Some (tt, w') /\
    queries_on_disk w' =
      Some (cleanup (cutoff (clock app) (ticks w1)) in_memory) /\
    none_pending in_memory /\
    (forall id e,
       is_control id = false ->
       get id in_memory = Some e ->
       get id (cleanup (cutoff (clock app) (ticks w1)) in_memory) = None ->
       status_is e "pending" = false).
Proof.
  intros Hd Hq Hc Hp Hapi.
  destruct (cycle_queries app w Hd Hq) as (w' & Hrun & Hdisk & _).
  rewrite execute_query_transition, transition_loop.
  do 2 eexists. exists w'. split; [reflexivity|]. split; [exact Hrun|].
  assert (Hnone : none_pending
                    (stamped (clock app) (run_query dv) (ticks w)
                             (pendingQueries queries) queries))
    by (apply stamped_none_pending, run_query_not_pending).
  split; [|split; [exact Hnone|]].
  - rewrite Hdisk. unfold queries_after. rewrite Hc, Hapi.
    destruct (pendingQueries queries); [congruence | reflexivity].
  - intros id e Hctl Hg _. exact (Hnone id e Hg Hctl).
Qed.

Lemma not_control_not_check id : is_control id = false -> id <> "_check"%string.
Proof. intros H ->. discriminate. Qed.

(** A user query that is not pending and has no time stamp goes through a
    poll cycle untouched. *)
Lemma queries_after_keeps_untimed app t queries id e :
  NoDup (keys queries) -> get id queries = Some e ->
  is_control id = false -> timestamp e = None ->
  status_is e "pending" = false ->
  NoDup (keys (queries_after app t queries)) /\
  get id (queries_after app t queries) = Some e.
Proof.
  intros Hnd Hg Hctl Hts Hs. unfold queries_after.
  assert (Hkey : ~ In id (keys (pendingQueries queries)))
    by (apply (@not_awaiting_not_pending_key queries id e Hnd Hg); rewrite Hs;
        apply orb_true_r).
  destruct (check_requested queries).
  - split; [now apply NoDup_delete|]. rewrite get_delete.
    apply not_control_not_check in Hctl.
    destruct (String.eqb_spec id "_check"); [contradiction | exact Hg].
  - destruct (pendingQueries queries) as [|p0 rest] eqn:Hp; [auto|].
    rewrite <- Hp in *. destruct (dataview_api app) as [dv|].
    + split; [now apply NoDup_keys_filter, keys_stamped|].
      apply get_kept; [now rewrite get_stamped_other|].
      unfold expired. simpl. rewrite Hts. now rewrite andb_false_r.
    + split; [now apply keys_stamped|]. now rewrite get_stamped_other.
Qed.

Lemma poll_keeps_untimed apps id e : forall w queries,
  queries_on_disk w = Some queries ->
  NoDup (keys queries) -> get id queries = Some e ->
  is_control id = false -> timestamp e = None ->
  status_is e "pending" = false ->
  exists w' queries',
    poll apps w = Some (tt, w') /\
    queries_on_disk w' = Some queries' /\ get id queries' = Some e.
Proof.
  induction apps as [|app rest IH]; intros w queries Hq Hnd Hg Hctl Hts Hs.
  - exists w, queries. auto.
  - unfold queries_on_disk in Hq. destruct (disk w) as [db|] eqn:Hd;
      [|discriminate].
    destruct (cycle_queries app w Hd Hq) as (w1 & Hrun & Hdisk & _).
    destruct (@queries_after_keeps_untimed app (ticks w) queries id e
                Hnd Hg Hctl Hts Hs)
      as [Hnd1 Hg1].
    destruct (IH w1 _ Hdisk Hnd1 Hg1 Hctl Hts Hs) as (w' & q' & R & D & G).
    exists w', q'. cbn [poll]. unfold bind. rewrite Hrun. auto.
Qed.

(** C9. A user query without a [timestamp] field is kept by the cleanup
    whatever the cutoff; while it is not pending it is still on disk,
    unchanged, after any number of poll cycles; and an entry the cleanup
    deletes is a user query whose time stamp is present, not empty and
    below the cutoff in the order of strings. *)
Theorem untimed_entry_is_never_purged apps w queries id e oneDayAgo :
  queries_on_disk w = Some queries ->
  NoDup (keys queries) ->
  get id queries = Some e ->
  is_control id = false ->
  timestamp e = None ->
  get id (cleanup oneDayAgo queries) = Some e /\
  (status_is e "pending" = false ->
   exists w' queries',
     poll apps w = Some (tt, w') /\
     queries_on_disk w' = Some queries' /\ get id queries' = Some e) /\
  (forall id' e',
     get id' queries = Some e' ->
     get id' (cleanup oneDayAgo queries) = None ->
     is_control id' = false /\
     exists ts, timestamp e' = Some ts /\ truthy ts = true /\
                str_lt ts oneDayAgo = true).
Proof.
  intros Hq Hnd Hg Hctl Hts. split; [|split].
  - apply get_kept; [exact Hg|]. unfold expired. simpl. rewrite Hts.
    now rewrite andb_false_r.
  - intros Hs. now apply (@poll_keeps_untimed apps id e w queries Hq).
  - intros id' e' Hg' Hn'.
    apply (@cleanup_removed oneDayAgo queries id' e' Hg') in Hn'.
    apply expired_spec in Hn'. unfold older_than in Hn'. exact Hn'.
Qed.
End BridgeRuns.

(* ================================================================== *)
(** * Task extraction *)
(* ================================================================== *)

Section Tasks.
Import JS Index.
Local Open Scope string_scope.

Lemma trimStart_app w s : all_space w = true -> trimStart (w ++ s) = trimStart s.
Proof.
  induction w as [|c r IH]; simpl; [reflexivity|].
  intros H. apply andb_true_iff in H. destruct H as [Hc Hr].
  rewrite Hc. auto.
Qed.

Lemma trimStart_nonspace c s :
  is_space c = false -> trimStart (String c s) = String c s.
Proof. intros H. simpl. now rewrite H. Qed.

Lemma trimStart_split s :
  exists w, s = w ++ trimStart s /\ all_space w = true.
Proof.
  induction s as [|c r (w & E & Hw)]; simpl.
  - exists "". auto.
  - destruct (is_space c) eqn:Hc.
    + exists (String c w). simpl. rewrite Hc, Hw. split; [congruence | reflexivity].
    + exists "". auto.
Qed.

Lemma trimStart_idem s : trimStart (trimStart s) = trimStart s.
Proof.
  induction s as [|c r IH]; simpl; [reflexivity|].
  destruct (is_space c) eqn:Hc; [exact IH|]. simpl. now rewrite Hc.
Qed.

Lemma no_line_terminator_trimStart s :
  no_line_terminator s = true -> no_line_terminator (trimStart s) = true.
Proof.
  induction s as [|c r IH]; simpl; [reflexivity|].
  intros H. destruct (is_space c); [|exact H].
  apply andb_true_iff in H. tauto.
Qed.

Lemma trim_trimStart s : trim (trimStart s) = trim s.
Proof. unfold trim. now rewrite trimStart_idem. Qed.

(** The function finds the match of highest priority: the capture group
    starts after all the white space. *)
Lemma task_pattern_sound lineText g :
  task_pattern lineText = Some g ->
  checkbox_line lineText g /\ trimStart g = g.
Proof.
  unfold task_pattern.
  destruct (trimStart_split lineText) as (w1 & E1 & H1).
  destruct (trimStart lineText) as [|hyphen r1]; [discriminate|].
  destruct (Ascii.eqb_spec hyphen "-") as [->|]; [|discriminate].
  destruct (trimStart_split r1) as (w2 & E2 & H2).
  destruct (trimStart r1) as [|open [|c [|close r2]]]; try discriminate.
  destruct (Ascii.eqb_spec open "[") as [->|]; [|discriminate].
  destruct (Ascii.eqb_spec c "]") as [|Hc]; [discriminate|].
  destruct (Ascii.eqb_spec close "]") as [->|]; [|discriminate].
  simpl. destruct (trimStart_split r2) as (w3 & E3 & H3).
  destruct (no_line_terminator (trimStart r2)) eqn:Hg; [|discriminate].
  intros H. inversion H; subst g. split; [|apply trimStart_idem].
  exists w1, w2, c, w3. split; [|repeat split; assumption].
  rewrite <- E3, <- E2. exact E1.
Qed.

(** Whenever the line can be read by the grammar, the function matches,
    and its capture group is the grammar's without leading white space. *)
Lemma task_pattern_complete lineText g :
  checkbox_line lineText g -> task_pattern lineText = Some (trimStart g).
Proof.
  intros (w1 & w2 & c & w3 & -> & H1 & H2 & Hc & H3 & Hg).
  unfold task_pattern.
  rewrite (@trimStart_app w1 _ H1), trimStart_nonspace by reflexivity.
  simpl (Ascii.eqb "-" "-").  cbv iota.
  rewrite (@trimStart_app w2 _ H2), trimStart_nonspace by reflexivity.
  destruct (Ascii.eqb_spec c "]") as [|_]; [contradiction|].
  simpl. rewrite (@trimStart_app w3 _ H3).
  now rewrite (@no_line_terminator_trimStart g Hg).
Qed.

Lemma extract_tasks_app lines l1 l2 :
  extract_tasks lines (l1 ++ l2) =
  (extract_tasks lines l1 ++ extract_tasks lines l2)%list.
Proof. unfold extract_tasks. apply flat_map_app. Qed.

(** C8. A list item with a checkbox marker yields one task, in the place
    of the item among the tasks.  The task is completed exactly when the
    marker is not a single space; its line is the item's line plus one;
    its text is the trimmed text that follows the checkbox pattern when
    the source line matches the pattern, and the whole trimmed line when
    it does not. *)
Theorem task_of_checkbox_item app file md before marker start after :
  md_listItems md =
    Some (before ++ {| li_task := Some marker; li_line := start |} :: after)%list ->
  let lines := split_lines (vault_read app file) in
  let lineText := line_at lines start in
  exists t,
    tasks (note_of app file (Some md)) =
      (extract_tasks lines before ++ t :: extract_tasks lines after)%list /\
    (completed t = true <-> marker <> " ") /\
    line t = start + 1 /\
    (forall g, checkbox_line lineText g -> text t = trim g) /\
    ((forall g, ~ checkbox_line lineText g) -> text t = trim lineText).
Proof.
  intros Hitems lines lineText.
  exists (task_of lines marker start). split; [|split; [|split; [|split]]].
  - unfold note_of, read_lines. cbn [tasks]. rewrite Hitems.
    fold lines. now rewrite extract_tasks_app.
  - cbn [task_of completed]. rewrite negb_true_iff.
    apply String.eqb_neq.
  - reflexivity.
  - intros g Hg. cbn [task_of text]. fold lineText.
    rewrite (@task_pattern_complete lineText g Hg). apply trim_trimStart.
  - intros Hno. cbn [task_of text]. fold lineText.
    destruct (task_pattern lineText) as [g|] eqn:Hp; [|reflexivity].
    exfalso. apply (Hno g). now apply task_pattern_sound.
Qed.
End Tasks.

(* ================================================================== *)
(** * Reachable documents keep their keys and paths in step *)
(* ================================================================== *)

Section Reachable.
Import JS Index.

Lemma path_note_of app file metadata :
  path (note_of app file metadata) = f_path file.
Proof. reflexivity. Qed.

Lemma notes_after_wf step notes :
  notes_wf notes -> notes_wf (notes_after step notes).
Proof.
  intros [Hnd Hp]. destruct step as [app [file metadata|p]];
    unfold notes_after; simpl.
  - split; [now apply NoDup_set|]. intros k n Hin.
    apply In_get in Hin; [|now apply NoDup_set].
    rewrite get_set in Hin.
    destruct (String.eqb_spec k (f_path file)) as [->|Hne].
    + inversion Hin; subst. reflexivity.
    + apply Hp. now apply get_In.
  - split; [now apply NoDup_delete|]. intros k n Hin.
    apply In_get in Hin; [|now apply NoDup_delete].
    rewrite get_delete in Hin.
    destruct (String.eqb k p); [discriminate|].
    apply Hp. now apply get_In.
Qed.

(** In every document a sequence of mutations leaves on disk, and in every
    document the recomputation is applied to on the way, the keys of
    [notes] are distinct and are the paths of their entries. *)
Lemma run_ops_notes_wf steps : forall w db,
  disk w = Some db -> notes_wf (db_notes db) ->
  exists w' db', run_ops steps w = Some (tt, w') /\ disk w' = Some db' /\
                 notes_wf (db_notes db').
Proof.
  induction steps as [|step rest IH]; intros w db Hd Hwf.
  - exists w, db. auto.
  - unfold run_ops. cbn [for_of]. unfold bind at 1.
    rewrite (run_op_run step w Hd).
    apply (IH (after_mutation (fst step) w db
                 (notes_after step (db_notes db)))
              (recompute (first_write (fst step) w db
                            (notes_after step (db_notes db))))
              eq_refl (notes_after_wf step Hwf)).
Qed.

Lemma default_notes_wf now : notes_wf (db_notes (defaultData now)).
Proof. split; [constructor | intros k n []]. Qed.

Lemma In_replace (V : Type) k (v : V) o x :
  In x (replace k v o) -> x = (k, v) \/ In x o.
Proof.
  induction o as [|[k1 v1] r IH]; simpl; [tauto|].
  destruct (String.eqb_spec k k1) as [->|Hne]; simpl.
  - intros [<-|H]; auto.
  - intros [<-|H]; [auto|]. destruct (IH H); auto.
Qed.

Lemma In_insert_index (V : Type) n k (v : V) o x :
  In x (insert_index n k v o) -> x = (k, v) \/ In x o.
Proof.
  induction o as [|[k1 v1] r IH]; simpl; [intros [Hx|[]]; auto|].
  destruct (array_index k1) as [m|]; [destruct (N.ltb n m)|]; simpl;
    try (intros [Hx|[Hx|Hx]]; auto).
  intros [Hx|Hx]; [auto|]. destruct (IH Hx); auto.
Qed.

Lemma In_set (V : Type) k (v : V) o x :
  In x (set k v o) -> x = (k, v) \/ In x o.
Proof.
  unfold set. destruct (has k o); [apply In_replace|].
  destruct (array_index k); [apply In_insert_index|].
  rewrite in_app_iff. simpl. intros [Hx|[Hx|[]]]; auto.
Qed.

Lemma In_delete (V : Type) k (o : obj V) x : In x (delete k o) -> In x o.
Proof.
  induction o as [|[k1 v1] r IH]; simpl; [tauto|].
  destruct (String.eqb k k1); simpl; intuition.
Qed.

(** A mutation with ordinary keys keeps the keys of the notes ordinary. *)
Lemma notes_after_ordinary step notes :
  ordinary_step step = true -> ordinary_notes notes = true ->
  ordinary_notes (notes_after step notes) = true.
Proof.
  unfold ordinary_notes. rewrite !forallb_forall. intros Hs Hn x Hx.
  destruct step as [app [file metadata|p]]; unfold notes_after in Hx;
    cbn [fst snd] in Hx.
  - apply In_set in Hx. destruct Hx as [->|Hx]; [|now apply Hn].
    unfold ordinary_step, ordinary_upsert in Hs. cbn [fst snd] in *.
    apply andb_prop in Hs. destruct Hs as [Hs _]. rewrite Hs.
    unfold ordinary_note in Hs. repeat (apply andb_prop in Hs; destruct Hs as [Hs _]).
    change (path (note_of app file metadata)) with (f_path file) in Hs.
    now rewrite Hs.
  - apply Hn. eapply In_delete. exact Hx.
Qed.

(** The documents reached by mutations with ordinary keys are those the
    statements about one recomputation speak of: their notes have ordinary
    keys. *)
Lemma run_ops_ordinary steps : forall w db,
  forallb ordinary_step steps = true ->
  disk w = Some db -> ordinary_notes (db_notes db) = true ->
  exists w' db', run_ops steps w = Some (tt, w') /\ disk w' = Some db' /\
                 ordinary_notes (db_notes db') = true.
Proof.
  induction steps as [|step rest IH]; intros w db Hs Hd Hn.
  - exists w, db. auto.
  - cbn [forallb] in Hs. apply andb_prop in Hs. destruct Hs as [Hs Hrest].
    unfold run_ops. cbn [for_of]. unfold bind at 1.
    rewrite (run_op_run step w Hd).
    apply (IH (after_mutation (fst step) w db
                 (notes_after step (db_notes db)))
              (recompute (first_write (fst step) w db
                            (notes_after step (db_notes db))))
              Hrest eq_refl).
    cbn [recompute first_write with_notes db_notes].
    now apply notes_after_ordinary.
Qed.

(** The link graph of a document is the one built from its notes. *)
Lemma run_ops_links steps : forall w db,
  disk w = Some db ->
  db_links db = build_links (values (db_notes db)) ->
  exists w' db', run_ops steps w = Some (tt, w') /\ disk w' = Some db' /\
                 db_links db' = build_links (values (db_notes db')).
Proof.
  induction steps as [|step rest IH]; intros w db Hd Hl.
  - exists w, db. auto.
  - unfold run_ops. cbn [for_of]. unfold bind at 1.
    rewrite (run_op_run step w Hd).
    apply (IH (after_mutation (fst step) w db
                 (notes_after step (db_notes db)))
              (recompute (first_write (fst step) w db
                            (notes_after step (db_notes db))))
              eq_refl eq_refl).
Qed.

(** Outlinks and backlinks mirror each other in every document reached from
    the default document by upserts and deletes with ordinary keys. *)
Corollary links_mirror_after_ops (now : string) (steps : list (App * Op)) :
  forallb ordinary_step steps = true ->
  exists w db,
    run_ops steps (fresh_world now) = Some (tt, w) /\
    disk w = Some db /\
    (forall N P, In N (values (db_notes db)) ->
       (in_outlinks (db_links db) (path N) P <->
        in_backlinks (db_links db) P (path N))) /\
    (forall k e, get k (db_links db) = Some e -> NoDup (l_backlinks e)).
Proof.
  intros _.
  destruct (run_ops_notes_wf steps (fresh_world now) eq_refl
              (default_notes_wf now)) as (w & db & Hrun & Hd & Hwf).
  destruct (run_ops_links steps (fresh_world now)
              (db := defaultData now) eq_refl eq_refl)
    as (w2 & db2 & Hrun2 & Hd2 & Hl).
  rewrite Hrun in Hrun2. inversion Hrun2; subst w2.
  rewrite Hd in Hd2. inversion Hd2; subst db2.
  exists w, db. split; [exact Hrun|]. split; [exact Hd|].
  rewrite Hl. apply build_links_spec.
  rewrite (notes_wf_paths Hwf). apply Hwf.
Qed.
End Reachable.

(* ================================================================== *)
(** * The scenarios, evaluated *)
(* ================================================================== *)

Section IndexScenarios.
Import JS Index Scenarios.
Local Open Scope string_scope.

(** Scenario of the specification: after the upsert of "a.md" with a
    frontmatter tag, an inline tag and one link that resolves to "b.md",
    [tags] counts both tags once and "b.md" has "a.md" as its backlink
    although it is not a note. *)
Example upsert_a_scenario :
  exists w db,
    updateNote vault file_a (Some meta_a) index_start = Some (tt, w) /\
    disk w = Some db /\
    db_tags db = [("y", 1); ("x", 1)] /\
    db_links db = [("a.md", {| l_outlinks := ["b.md"]; l_backlinks := [] |});
                   ("b.md", {| l_outlinks := []; l_backlinks := ["a.md"] |})] /\
    get "b.md" (db_notes db) = None /\
    totalTasks (db_stats db) = 3 /\ totalIncompleteTasks (db_stats db) = 2.
Proof. do 2 eexists. repeat split; vm_compute; reflexivity. Qed.

(** Scenario of the specification: deleting the only source of a backlink
    empties the list of backlinks of the target. *)
Example delete_a_scenario :
  exists w db,
    run_ops [(vault, Upsert file_a (Some meta_a)); (vault, Delete "a.md")]
            index_start = Some (tt, w) /\
    disk w = Some db /\
    db_links db = [] /\ db_notes db = [].
Proof. do 2 eexists. repeat split; vm_compute; reflexivity. Qed.

(** Between the two writes of an upsert the statistics can disagree with
    the notes: here the first document written has three tasks in its
    notes and [totalTasks] still 0. *)
Example first_write_is_inconsistent :
  exists w d1 d2,
    updateNote vault file_a (Some meta_a) index_start = Some (tt, w) /\
    journal w = (journal index_start ++ [d1; d2])%list /\
    ~ stats_consistent d1 /\ stats_consistent d2.
Proof.
  do 3 eexists. split; [vm_compute; reflexivity|].
  split; [vm_compute; reflexivity|]. split.
  - intros (_ & _ & _ & _ & H & _). vm_compute in H. discriminate.
  - vm_compute. repeat split.
Qed.

Lemma outlinks_iff_backlinks_witness :
  notes_wf (db_notes rebuilt) /\
  ordinary_notes (db_notes rebuilt) = true /\
  let links := db_links (recompute rebuilt) in
  (forall N P, In N (values (db_notes (recompute rebuilt))) ->
     (in_outlinks links (path N) P <-> in_backlinks links P (path N))) /\
  (forall k e, get k links = Some e -> NoDup (l_backlinks e)).
Proof.
  assert (Hwf : notes_wf (db_notes rebuilt)).
  { split.
    - vm_compute. repeat constructor; simpl; intuition discriminate.
    - vm_compute. intros k n [H|[H|[]]]; inversion H; reflexivity. }
  split; [exact Hwf|]. split; [reflexivity|].
  exact (@outlinks_iff_backlinks rebuilt Hwf eq_refl).
Defined.


Lemma stats_consistent_after_ops_witness :
  forallb ordinary_step upserts_then_delete = true /\
  exists w db,
    run_ops upserts_then_delete index_start = Some (tt, w) /\
    disk w = Some db /\
    stats_consistent db.
Proof.
  split; [reflexivity|].
  exact (@stats_consistent_after_ops "2024-01-20T10:29:59.000Z"
           upserts_then_delete eq_refl).
Defined.

Lemma rebuildDatabase_idempotent_witness :
  ordinary_vault vault = true /\
  exists w1 w2 d1 d2,
    rebuildDatabase vault index_start = Some (tt, w1) /\
    rebuildDatabase vault w1 = Some (tt, w2) /\
    disk w1 = Some d1 /\ disk w2 = Some d2 /\
    content d2 = content d1.
Proof.
  split; [reflexivity|].
  exact (@rebuildDatabase_idempotent vault index_start eq_refl).
Defined.

Lemma task_of_checkbox_item_witness :
  md_listItems meta_a =
    Some ([item (Some " ") 0] ++ item (Some "x") 1 :: [item (Some " ") 2])%list /\
  exists t,
    tasks (note_of vault file_a (Some meta_a)) =
      (extract_tasks (split_lines content_a) [item (Some " ") 0]
       ++ t :: extract_tasks (split_lines content_a) [item (Some " ") 2])%list /\
    (completed t = true <-> "x" <> " ") /\
    line t = 2 /\
    text t = "read the code".
Proof.
  split; [reflexivity|].
  destruct (task_of_checkbox_item vault file_a meta_a
              [item (Some " ") 0] "x" 1 [item (Some " ") 2] eq_refl)
    as (t & Htasks & Hdone & Hline & Hmatch & _).
  exists t. repeat split; try assumption; try apply Hdone.
  apply (Hmatch "read the code  ").
  exists "  ", " ", "x"%char, "   ".
  repeat split; try reflexivity. discriminate.
Defined.
End IndexScenarios.

Section BridgeScenarios.
Import JS Bridge Scenarios.
Local Open Scope string_scope.

(** C4. A cycle that finds [_check] pending while Dataview is available
    deletes [_check] and processes no query, but the document it leaves on
    disk still has [dataviewAvailable] false and the old [lastChecked]:
    the result of the probe, written first, is overwritten by the copy of
    the document read before the probe. *)
Theorem check_cycle_reverts_probe :
  exists w' probe final,
    checkAndExecuteDataviewQueries with_dataview (on_disk check_queries)
      = Some (tt, w') /\
    journal w' = [probe; final] /\ disk w' = Some final /\
    isAvailable with_dataview = true /\
    dataviewAvailable probe = true /\
    lastChecked probe = "2024-01-20T10:30:00.000Z" /\
    dataviewAvailable final = false /\
    lastChecked final = "2024-01-19T08:00:00.000Z" /\
    dataviewQueries final =
      Some [("q1", plain (Some "LIST") "pending" None)].
Proof. do 3 eexists. repeat split; vm_compute; reflexivity. Qed.

(** Whatever the document and the host, the cycle that handles [_check]
    leaves [dataviewAvailable] and [lastChecked] as it found them. *)
Lemma check_cycle_keeps_old_fields app w db queries :
  disk w = Some db -> dataviewQueries db = Some queries ->
  check_requested queries = true ->
  exists w' db',
    checkAndExecuteDataviewQueries app w = Some (tt, w') /\
    disk w' = Some db' /\
    dataviewAvailable db' = dataviewAvailable db /\
    lastChecked db' = lastChecked db /\
    dataviewQueries db' = Some (delete "_check" queries).
Proof.
  intros Hd Hq Hc. rewrite (cycle_check app w Hd Hq Hc).
  do 2 eexists. repeat split.
Qed.

(** C3 as stated fails: a cycle that finds nothing pending returns before
    the cleanup, and the query from 2020 stays on disk. *)
Lemma idle_cycle_purges_nothing :
  ~ purges_every_cycle with_dataview (on_disk idle_queries).
Proof.
  intros H.
  specialize (H (on_disk idle_queries) idle_queries idle_queries "old"
                (plain (Some "LIST") "success"
                       (Some "2020-01-01T00:00:00.000Z"))
                "2020-01-01T00:00:00.000Z"
                eq_refl eq_refl eq_refl eq_refl eq_refl eq_refl).
  assert (Hold : older_than (cutoff (clock with_dataview)
                                    (ticks (on_disk idle_queries)))
                            "2020-01-01T00:00:00.000Z")
    by (split; vm_compute; reflexivity).
  specialize (H Hold). discriminate.
Qed.

(** C5 as stated fails: while [_check] is pending the cycle handles only
    the check, and the pending user query stays pending although Dataview
    is missing. *)
Lemma check_cycle_leaves_pending :
  ~ fails_pending_every_cycle without_dataview (on_disk check_queries).
Proof.
  intros H.
  destruct (H check_queries eq_refl eq_refl) as (w' & q' & Hrun & Hq & _ & Hn).
  - exists "q1", (plain (Some "LIST") "pending" None).
    repeat split.
  - vm_compute in Hrun. inversion Hrun; subst w'.
    vm_compute in Hq. inversion Hq; subst q'.
    specialize (Hn "q1" (plain (Some "LIST") "pending" None) eq_refl eq_refl).
    discriminate.
Qed.

Lemma unavailable_cycle_fails_pending_witness :
  disk (on_disk busy_queries) = Some (bridge_doc busy_queries) /\
  dataviewQueries (bridge_doc busy_queries) = Some busy_queries /\
  NoDup (keys busy_queries) /\
  check_requested busy_queries = false /\
  dataview_api without_dataview = None /\
  exists w' queries',
    checkAndExecuteDataviewQueries without_dataview (on_disk busy_queries)
      = Some (tt, w') /\
    queries_on_disk w' = Some queries' /\
    (forall id e, awaiting busy_queries id e ->
       exists e', get id queries' = Some e' /\
                  failed_between (clock without_dataview)
                    (ticks (on_disk busy_queries)) (ticks w') e e') /\
    none_pending queries'.
Proof.
  assert (Hnd : NoDup (keys busy_queries))
    by (vm_compute; repeat constructor; simpl; intuition discriminate).
  repeat (split; [first [reflexivity | exact Hnd]|]).
  exact (unavailable_cycle_fails_pending without_dataview
           (on_disk busy_queries) eq_refl eq_refl Hnd eq_refl eq_refl).
Defined.

Lemma executing_cycle_purges_witness :
  disk (on_disk busy_queries) = Some (bridge_doc busy_queries) /\
  dataviewQueries (bridge_doc busy_queries) = Some busy_queries /\
  NoDup (keys busy_queries) /\
  check_requested busy_queries = false /\
  pendingQueries busy_queries <> [] /\
  dataview_api with_dataview = Some (fun _ => Successful table_value) /\
  exists w' queries',
    checkAndExecuteDataviewQueries with_dataview (on_disk busy_queries)
      = Some (tt, w') /\
    queries_on_disk w' = Some queries' /\
    get "old" queries' = None.
Proof.
  assert (Hnd : NoDup (keys busy_queries))
    by (vm_compute; repeat constructor; simpl; intuition discriminate).
  assert (Hp : pendingQueries busy_queries <> []) by (vm_compute; discriminate).
  repeat (split; [first [reflexivity | exact Hnd | exact Hp]|]).
  destruct (executing_cycle_purges with_dataview (on_disk busy_queries)
              eq_refl eq_refl Hnd eq_refl Hp eq_refl)
    as (w' & queries' & Hrun & Hq & Hgone & _).
  exists w', queries'. repeat split; try assumption.
  apply (Hgone "old" (plain (Some "LIST") "success"
                            (Some "2020-01-01T00:00:00.000Z"))
               "2020-01-01T00:00:00.000Z");
    try reflexivity.
  split; vm_compute; reflexivity.
Defined.

Lemma cleanup_removes_no_pending_witness :
  disk (on_disk busy_queries) = Some (bridge_doc busy_queries) /\
  dataviewQueries (bridge_doc busy_queries) = Some busy_queries /\
  check_requested busy_queries = false /\
  pendingQueries busy_queries <> [] /\
  dataview_api with_dataview = Some (fun _ => Successful table_value) /\
  exists in_memory w1 w',
    for_of (execute_query (clock with_dataview)
                          (fun _ => Successful table_value))
           (pendingQueries busy_queries) busy_queries (on_disk busy_queries)
      = Some (in_memory, w1) /\
    checkAndExecuteDataviewQueries with_dataview (on_disk busy_queries)
      = Some (tt, w') /\
    queries_on_disk w' =
      Some (cleanup (cutoff (clock with_dataview) (ticks w1)) in_memory) /\
    none_pending in_memory /\
    (forall id e,
       is_control id = false ->
       get id in_memory = Some e ->
       get id (cleanup (cutoff (clock with_dataview) (ticks w1)) in_memory)
         = None ->
       status_is e "pending" = false).
Proof.
  assert (Hp : pendingQueries busy_queries <> []) by (vm_compute; discriminate).
  repeat (split; [first [reflexivity | exact Hp]|]).
  exact (cleanup_removes_no_pending with_dataview (on_disk busy_queries)
           eq_refl eq_refl eq_refl Hp eq_refl).
Defined.

Lemma untimed_entry_is_never_purged_witness :
  queries_on_disk (on_disk busy_queries) = Some busy_queries /\
  NoDup (keys busy_queries) /\
  get "legacy" busy_queries = Some (plain (Some "LIST") "error" None) /\
  is_control "legacy" = false /\
  timestamp (plain (Some "LIST") "error" None) = None /\
  get "legacy" (cleanup "2024-01-19T10:30:00.000Z" busy_queries)
    = Some (plain (Some "LIST") "error" None) /\
  exists w' queries',
    poll [with_dataview; without_dataview; with_dataview]
         (on_disk busy_queries) = Some (tt, w') /\
    queries_on_disk w' = Some queries' /\
    get "legacy" queries' = Some (plain (Some "LIST") "error" None).
Proof.
  assert (Hnd : NoDup (keys busy_queries))
    by (vm_compute; repeat constructor; simpl; intuition discriminate).
  repeat (split; [first [reflexivity | exact Hnd]|]).
  destruct (@untimed_entry_is_never_purged
              [with_dataview; without_dataview; with_dataview]
              (on_disk busy_queries) busy_queries "legacy"
              (plain (Some "LIST") "error" None)
              "2024-01-19T10:30:00.000Z"
              eq_refl Hnd eq_refl eq_refl eq_refl)
    as (_ & Hpoll & _).
  exact (Hpoll eq_refl).
Defined.
End BridgeScenarios.

(* ================================================================== *)
(** * Counters: tags, folders and code blocks *)
(* ================================================================== *)

Section Counters.
Import JS Index Measures.
Local Open Scope string_scope.

Lemma get_bump k o k' :
  get k' (bump k o) =
  if String.eqb k' k
  then Some (match get k o with Some n => n | None => 0 end + 1)
  else get k' o.
Proof. unfold bump. apply get_set. Qed.

(** Counting the elements of [l] one by one adds, for every key, the number
    of its occurrences in [l]. *)
Lemma get_fold_bump l : forall o k,
  get k (fold_left (fun acc t => bump t acc) l o) =
  match count_occ string_dec l k with
  | O => get k o
  | S c => Some (match get k o with Some n => n | None => 0 end + S c)
  end.
Proof.
  induction l as [|t r IH]; intros o k; [reflexivity|].
  cbn [fold_left]. rewrite IH, get_bump. cbn [count_occ].
  destruct (string_dec t k) as [->|Hne].
  - rewrite String.eqb_refl.
    destruct (count_occ string_dec r k); f_equal; lia.
  - destruct (String.eqb_spec k t) as [E|_]; [congruence|]. reflexivity.
Qed.

Lemma NoDup_fold_bump l : forall o,
  NoDup (keys o) -> NoDup (keys (fold_left (fun acc t => bump t acc) l o)).
Proof.
  induction l as [|t r IH]; intros o Hnd; [exact Hnd|].
  cbn [fold_left]. apply IH. unfold bump. now apply NoDup_set.
Qed.

Lemma sum_values_replace k (v : nat) o v0 :
  get k o = Some v0 ->
  list_sum (values (replace k v o)) + v0 = list_sum (values o) + v.
Proof.
  induction o as [|[k1 v1] r IH]; simpl; [discriminate|].
  destruct (String.eqb_spec k k1) as [->|Hne]; intros H.
  - inversion H; subst. simpl. lia.
  - simpl. specialize (IH H). fold (values (replace k v r)) (values r). lia.
Qed.

Lemma sum_values_insert_index n k (v : nat) o :
  list_sum (values (insert_index n k v o)) = v + list_sum (values o).
Proof.
  induction o as [|[k1 v1] r IH]; simpl; [reflexivity|].
  destruct (array_index k1) as [m|]; [destruct (N.ltb n m)|]; simpl;
    try reflexivity.
  fold (values (insert_index n k v r)) (values r). lia.
Qed.

Lemma sum_values_bump k o :
  list_sum (values (bump k o)) = S (list_sum (values o)).
Proof.
  unfold bump, set, has. destruct (get k o) as [v0|] eqn:Hk.
  - pose proof (sum_values_replace k (v0 + 1) o Hk). lia.
  - destruct (array_index k).
    + rewrite sum_values_insert_index. lia.
    + unfold values. rewrite map_app, list_sum_app. simpl. lia.
Qed.

Lemma sum_values_fold_bump l : forall o,
  list_sum (values (fold_left (fun acc t => bump t acc) l o)) =
  List.length l + list_sum (values o).
Proof.
  induction l as [|t r IH]; intros o; [reflexivity|].
  cbn [fold_left]. rewrite IH, sum_values_bump. simpl. lia.
Qed.

(** The first loop of [updateTags] counts the tags of all notes in one
    object and their folder keys in the other. *)
Lemma fold_count_note notes : forall acc,
  fold_left count_note notes acc =
  (fold_left (fun a t => bump t a) (flat_map tags notes) (fst acc),
   fold_left (fun a t => bump t a) (map folder_key notes) (snd acc)).
Proof.
  induction notes as [|n r IH]; intros [tc fc]; [reflexivity|].
  cbn [fold_left flat_map map]. rewrite IH. unfold count_note.
  cbn [fst snd fold_left]. now rewrite fold_left_app.
Qed.

Lemma count_occ_tags notes t :
  count_occ string_dec (flat_map tags notes) t = tag_occurrences notes t.
Proof.
  unfold tag_occurrences. induction notes as [|n r IH]; [reflexivity|].
  cbn [flat_map map list_sum]. now rewrite count_occ_app, IH.
Qed.

Lemma folder_key_lives_in n f :
  lives_in f n = true <-> folder_key n = f.
Proof.
  unfold lives_in, folder_key.
  destruct (folder n) as [|c r].
  - change (String.eqb f "root" = true <-> "root" = f).
    rewrite String.eqb_eq. split; congruence.
  - change (String.eqb (String c r) f = true <-> String c r = f).
    apply String.eqb_eq.
Qed.

Lemma count_occ_folders notes f :
  count_occ string_dec (map folder_key notes) f = notes_in_folder notes f.
Proof.
  unfold notes_in_folder. induction notes as [|n r IH]; [reflexivity|].
  cbn [map count_occ filter].
  destruct (string_dec (folder_key n) f) as [E|Hne].
  - apply folder_key_lives_in in E. rewrite E. simpl. now rewrite IH.
  - destruct (lives_in f n) eqn:Hl; [|exact IH].
    apply folder_key_lives_in in Hl. contradiction.
Qed.

Lemma counted_spec o k c :
  get k o = None ->
  match c with
  | O => get k o
  | S c' => Some (match get k o with Some n => n | None => 0 end + S c')
  end = counted c.
Proof. intros ->. now destruct c. Qed.

(** X1. After [updateTags] on a document whose notes have ordinary keys,
    [tags] maps every tag to the number of times the notes list it and has
    no key for a tag no note lists; the counts add up to the number of tags
    of all notes. *)
Theorem tags_count_occurrences (db : IndexDoc) (t : string) :
  ordinary_notes (db_notes db) = true ->
  let all := values (db_notes db) in
  get t (db_tags (recompute db)) = counted (tag_occurrences all t) /\
  list_sum (values (db_tags (recompute db))) =
    list_sum (map (fun n => List.length (tags n)) all).
Proof.
  intros _. cbv zeta. cbn [recompute db_tags]. rewrite fold_count_note.
  cbn [fst].
  split.
  - rewrite get_fold_bump, count_occ_tags. now apply counted_spec.
  - rewrite sum_values_fold_bump. simpl. rewrite Nat.add_0_r.
    induction (values (db_notes db)) as [|n r IH]; [reflexivity|].
    cbn [flat_map map list_sum]. now rewrite length_app, IH.
Qed.

(** X2. After [updateTags] on a document whose notes have ordinary keys,
    [folders] maps every folder key to the number of notes in that folder,
    the notes without a folder being counted under "root" together with
    those of a folder named "root"; the counts add up to the number of
    notes. *)
Theorem folders_count_notes (db : IndexDoc) (f : string) :
  ordinary_notes (db_notes db) = true ->
  let all := values (db_notes db) in
  get f (db_folders (recompute db)) = counted (notes_in_folder all f) /\
  list_sum (values (db_folders (recompute db))) = List.length (db_notes db).
Proof.
  intros _. cbv zeta. cbn [recompute db_folders]. rewrite fold_count_note.
  cbn [snd].
  split.
  - rewrite get_fold_bump, count_occ_folders. now apply counted_spec.
  - rewrite sum_values_fold_bump. simpl. rewrite Nat.add_0_r.
    unfold values. now rewrite !length_map.
Qed.

Lemma fold_code_sections lines sections : forall counts,
  fold_left (fun counts section =>
               if String.eqb (sec_type section) "code"
               then bump (fence_language (line_at lines (sec_line section)))
                         counts
               else counts) sections counts =
  fold_left (fun a t => bump t a)
    (map (fun s => fence_language (line_at lines (sec_line s)))
         (filter (fun s => String.eqb (sec_type s) "code") sections))
    counts.
Proof.
  induction sections as [|s r IH]; intros counts; [reflexivity|].
  cbn [fold_left filter]. rewrite IH.
  destruct (String.eqb (sec_type s) "code"); reflexivity.
Qed.

(** The conversion of [languageCounts] to the array [codeBlocks]. *)
Lemma extract_codeBlocks_counts (lines : list string)
  (sections : list SectionCache) :
  let languages := fence_languages lines sections in
  let blocks := extract_codeBlocks lines sections in
  NoDup (map language blocks) /\
  (forall b, In b blocks ->
     count b = count_occ string_dec languages (language b) /\ 1 <= count b) /\
  (forall l, In l languages -> exists b, In b blocks /\ language b = l) /\
  list_sum (map count blocks) = List.length languages.
Proof.
  cbv zeta. unfold extract_codeBlocks, fence_languages.
  rewrite fold_code_sections.
  set (languages := map _ (filter _ sections)).
  set (counts := fold_left (fun a t => bump t a) languages []).
  assert (Hnd : NoDup (keys counts))
    by (apply NoDup_fold_bump; constructor).
  assert (Hget : forall k, get k counts =
                           counted (count_occ string_dec languages k)).
  { intros k. unfold counts. rewrite get_fold_bump.
    now apply counted_spec. }
  split; [|split; [|split]].
  - rewrite map_map. exact Hnd.
  - intros b Hb. apply in_map_iff in Hb. destruct Hb as ([k v] & <- & Hin).
    cbn [language count fst snd]. apply In_get in Hin; [|exact Hnd].
    rewrite Hget in Hin.
    destruct (count_occ string_dec languages k); [discriminate|].
    inversion Hin. split; [reflexivity | lia].
  - intros l Hl. apply (count_occ_In string_dec) in Hl.
    specialize (Hget l).
    destruct (count_occ string_dec languages l) as [|c] eqn:Hc; [lia|].
    apply get_In in Hget.
    exists {| language := l; count := S c |}. split; [|reflexivity].
    apply in_map_iff. exists (l, S c). auto.
  - rewrite map_map. cbn [count snd].
    change (list_sum (values counts) = List.length languages).
    unfold counts. rewrite sum_values_fold_bump. simpl. lia.
Qed.

Lemma read_lines_sections app file (md : CachedMetadata) sections :
  md_sections md = Some sections ->
  read_lines app file (Some md) = Some (split_lines (vault_read app file)).
Proof.
  intros Hs. unfold read_lines. rewrite Hs. now destruct (md_listItems md).
Qed.

(** X3. The code blocks stored for a note whose metadata has sections and
    whose fences name ordinary languages: every language read from the
    opening line of a code section is listed once, with the number of code
    sections that give it (at least one), and the counts add up to the
    number of code sections. *)
Theorem codeBlocks_count_sections app file (md : CachedMetadata)
  (sections : list SectionCache) :
  md_sections md = Some sections ->
  let languages :=
    fence_languages (split_lines (vault_read app file)) sections in
  forallb ordinary languages = true ->
  let blocks := codeBlocks (note_of app file (Some md)) in
  NoDup (map language blocks) /\
  (forall b, In b blocks ->
     count b = count_occ string_dec languages (language b) /\ 1 <= count b) /\
  (forall l, In l languages -> exists b, In b blocks /\ language b = l) /\
  list_sum (map count blocks) =
    List.length (filter (fun s => String.eqb (sec_type s) "code") sections).
Proof.
  intros Hs languages _ blocks.
  assert (E : blocks = extract_codeBlocks
                         (split_lines (vault_read app file)) sections).
  { unfold blocks. cbn [note_of codeBlocks].
    now rewrite (read_lines_sections app file md Hs), Hs. }
  rewrite E.
  destruct (extract_codeBlocks_counts (split_lines (vault_read app file))
              sections) as (H1 & H2 & H3 & H4).
  split; [exact H1|]. split; [exact H2|]. split; [exact H3|].
  rewrite H4. unfold fence_languages. apply length_map.
Qed.
End Counters.

(* ================================================================== *)
(** * Extraction: tags and tasks of a note *)
(* ================================================================== *)

Section Extraction.
Import JS Index Measures.
Local Open Scope string_scope.

Lemma existsb_eqb_In x l : existsb (String.eqb x) l = true <-> In x l.
Proof.
  rewrite existsb_exists. split.
  - intros (y & Hy & E). apply String.eqb_eq in E. now subst.
  - intros H. exists x. split; [exact H | apply String.eqb_refl].
Qed.

Lemma In_uniq_from l : forall seen x,
  In x (uniq_from seen l) <-> In x l /\ ~ In x seen.
Proof.
  induction l as [|y r IH]; intros seen x; simpl; [tauto|].
  destruct (existsb (String.eqb y) seen) eqn:Hy.
  - apply existsb_eqb_In in Hy. rewrite IH.
    split; [tauto|]. intros [[->|H] Hn]; [contradiction | tauto].
  - assert (Hn : ~ In y seen)
      by (intros H; apply existsb_eqb_In in H; congruence).
    simpl. rewrite IH. simpl.
    split.
    + intros [->|[H Hs]]; [tauto|]. split; [tauto|]. tauto.
    + intros [[->|H] Hs]; [tauto|].
      destruct (string_dec y x) as [->|Hne]; [tauto|]. right. tauto.
Qed.

Lemma NoDup_uniq_from l : forall seen, NoDup (uniq_from seen l).
Proof.
  induction l as [|y r IH]; intros seen; simpl; [constructor|].
  destruct (existsb (String.eqb y) seen); [apply IH|].
  constructor; [|apply IH]. rewrite In_uniq_from. simpl. tauto.
Qed.

(** X4. The tags stored for a note hold no tag twice, and are the inline
    tags without their first character together with the frontmatter tags:
    the elements of an array, or a single string that is not empty. *)
Theorem note_tags_deduplicated app file (md : CachedMetadata) :
  let note := note_of app file (Some md) in
  NoDup (tags note) /\
  forall t,
    In t (tags note) <->
    (exists raw, In raw (or_empty (md_tags md)) /\ t = substring1 raw) \/
    (exists fm, md_frontmatter md = Some fm /\
                ((exists l, fm_tags fm = TagsArray l /\ In t l) \/
                 (fm_tags fm = TagsString t /\ t <> ""))).
Proof.
  cbv zeta. cbn [note_of tags]. unfold uniq. split; [apply NoDup_uniq_from|].
  intros t. rewrite In_uniq_from. cbn [extract_tags In].
  rewrite in_app_iff, in_map_iff. split.
  - intros [[(raw & E & Hr)|Hfm] _]; [left; eauto|]. right.
    unfold frontmatter_tags in Hfm.
    destruct (md_frontmatter md) as [fm|]; [|destruct Hfm].
    exists fm. split; [reflexivity|].
    destruct (fm_tags fm) as [|l|s|]; try destruct Hfm.
    + left. eauto.
    + destruct s as [|c r]; [destruct Hfm|].
      destruct Hfm as [<-|[]]. right. split; [reflexivity | discriminate].
  - intros [(raw & Hr & ->)|(fm & Hfm & H)]; (split; [|tauto]).
    + left. eauto.
    + right. unfold frontmatter_tags. rewrite Hfm.
      destruct H as [(l & -> & Hl)|[-> Hne]]; [exact Hl|].
      destruct t; [congruence | now left].
Qed.

Lemma extract_tasks_cons lines item r :
  extract_tasks lines (item :: r) =
  (match li_task item with
   | Some marker => [task_of lines marker (li_line item)]
   | None => []
   end ++ extract_tasks lines r)%list.
Proof. reflexivity. Qed.

(** X5. One task per list item that has a checkbox, in the order of the
    items and with the item's line plus one; the tasks that are not
    completed are as many as the items whose marker is a single space. *)
Theorem tasks_follow_checkboxes (lines : list string)
  (items : list ListItemCache) :
  map line (extract_tasks lines items) =
    map (fun item => li_line item + 1) (filter is_checkbox items) /\
  List.length (extract_tasks lines items) =
    List.length (filter is_checkbox items) /\
  List.length (incomplete (extract_tasks lines items)) =
    List.length (filter is_open_checkbox items).
Proof.
  assert (H1 : map line (extract_tasks lines items) =
               map (fun item => li_line item + 1) (filter is_checkbox items)).
  { induction items as [|item r IH]; [reflexivity|].
    rewrite extract_tasks_cons. cbn [filter]. unfold is_checkbox at 1.
    destruct (li_task item); cbn [app map]; now rewrite IH. }
  split; [exact H1|]. split.
  - rewrite <- (length_map line), H1. apply length_map.
  - clear H1. induction items as [|item r IH]; [reflexivity|].
    rewrite extract_tasks_cons. cbn [filter]. unfold is_open_checkbox at 1.
    destruct (li_task item) as [marker|]; cbn [app]; [|exact IH].
    unfold incomplete in *. cbn [filter task_of completed].
    destruct (String.eqb marker " "); cbn [negb]; [cbn [List.length]|];
      now rewrite IH.
Qed.

(** X6. A checkbox item whose line lies beyond the end of the text yields a
    task with an empty text; its line and its completion are those of the
    item all the same. *)
Theorem task_beyond_last_line (lines : list string) (marker : string)
  (start : nat) :
  List.length lines <= start ->
  task_of lines marker start =
  {| text := ""; completed := negb (String.eqb marker " ");
     line := start + 1 |}.
Proof.
  intros H. unfold task_of, line_at.
  apply nth_error_None in H. rewrite H. reflexivity.
Qed.

(** X7. A line that has the shape of a checkbox but whose text holds a
    carriage return or a line feed does not match the pattern: the task
    text is then the whole trimmed line, checkbox included. *)
Theorem line_terminator_defeats_pattern (lines : list string)
  (marker : string) (start : nat) (w1 w2 w3 g : string) (c : ascii) :
  line_at lines start =
    w1 ++ String "-" (w2 ++ String "[" (String c (String "]" (w3 ++ g)))) ->
  all_space w1 = true -> all_space w2 = true -> all_space w3 = true ->
  trimStart g = g ->
  no_line_terminator g = false ->
  text (task_of lines marker start) = trim (line_at lines start).
Proof.
  intros Hl H1 H2 H3 Hg Hlt. cbn [task_of text]. rewrite Hl.
  replace (task_pattern
             (w1 ++ String "-" (w2 ++ String "[" (String c
                (String "]" (w3 ++ g)))))) with (@None string);
    [reflexivity|].
  unfold task_pattern.
  rewrite (@trimStart_app w1 _ H1), trimStart_nonspace by reflexivity.
  simpl (Ascii.eqb "-" "-"). cbv iota.
  rewrite (@trimStart_app w2 _ H2), trimStart_nonspace by reflexivity.
  destruct (Ascii.eqb c "]"); [reflexivity|]. simpl.
  rewrite (@trimStart_app w3 _ H3), Hg, Hlt. reflexivity.
Qed.

Lemma trimEnd_idem s : trimEnd (trimEnd s) = trimEnd s.
Proof.
  induction s as [|c r IH]; [reflexivity|]. cbn [trimEnd].
  destruct (trimEnd r) as [|c' r'] eqn:Hr.
  - destruct (is_space c) eqn:Hc; [reflexivity|].
    cbn [trimEnd]. now rewrite Hc.
  - cbn [trimEnd]. cbn [trimEnd] in IH. rewrite IH. reflexivity.
Qed.

Lemma trimEnd_keeps_head c r :
  is_space c = false -> exists r', trimEnd (String c r) = String c r'.
Proof.
  intros Hc. cbn [trimEnd]. destruct (trimEnd r); [rewrite Hc|]; eauto.
Qed.

Lemma trimStart_trim s : trimStart (trim s) = trim s.
Proof.
  unfold trim. destruct (trimStart s) as [|c r] eqn:Hs; [reflexivity|].
  assert (Hc : is_space c = false).
  { clear -Hs. induction s as [|a t IH]; [discriminate|].
    simpl in Hs. destruct (is_space a) eqn:Ha; [auto|].
    inversion Hs; subst. exact Ha. }
  destruct (@trimEnd_keeps_head c r Hc) as (r' & ->).
  now apply trimStart_nonspace.
Qed.

(** X8. The text of a task neither starts nor ends with white space. *)
Theorem task_text_is_trimmed (lines : list string) (marker : string)
  (start : nat) :
  let t := task_of lines marker start in
  trimStart (text t) = text t /\ trimEnd (text t) = text t.
Proof.
  cbv zeta. cbn [task_of text].
  destruct (task_pattern (line_at lines start)); split;
    try apply trimStart_trim; unfold trim; apply trimEnd_idem.
Qed.
End Extraction.


(* ================================================================== *)
(** * Mutations of the index *)
(* ================================================================== *)

Section Mutations.
Import JS Index Measures.
Local Open Scope string_scope.

Lemma delete_absent (V : Type) k (o : obj V) : get k o = None -> delete k o = o.
Proof.
  induction o as [|[k1 v1] r IH]; simpl; [reflexivity|].
  destruct (String.eqb k k1); [discriminate|]. intros H. now rewrite IH.
Qed.

Lemma replace_same (V : Type) k (v : V) o : get k o = Some v -> replace k v o = o.
Proof.
  induction o as [|[k1 v1] r IH]; simpl; [reflexivity|].
  destruct (String.eqb_spec k k1) as [->|Hne]; intros H.
  - now inversion H.
  - now rewrite IH.
Qed.

Lemma set_set_same (V : Type) k (v : V) o : set k v (set k v o) = set k v o.
Proof.
  unfold set at 1. unfold has. rewrite get_set_same.
  apply replace_same, get_set_same.
Qed.

Lemma keys_set (V : Type) k (v : V) o x :
  In x (keys (set k v o)) <-> x = k \/ In x (keys o).
Proof.
  unfold set, has. destruct (get k o) as [v0|] eqn:Hk.
  - rewrite keys_replace. split; [tauto|]. intros [->|H]; [|exact H].
    apply get_In in Hk. now apply (in_map fst _ (k, v0)).
  - destruct (array_index k).
    + apply keys_insert_index.
    + unfold keys. rewrite map_app, in_app_iff. simpl. intuition.
Qed.

Lemma total_replace (V : Type) (f : V -> nat) k v o v0 :
  get k o = Some v0 ->
  list_sum (map f (values (replace k v o))) + f v0 =
  list_sum (map f (values o)) + f v.
Proof.
  induction o as [|[k1 v1] r IH]; simpl; [discriminate|].
  destruct (String.eqb_spec k k1) as [->|Hne]; intros H.
  - inversion H; subst. simpl. lia.
  - simpl. specialize (IH H). fold (values (replace k v r)) (values r). lia.
Qed.

Lemma total_insert_index (V : Type) (f : V -> nat) n k v o :
  list_sum (map f (values (insert_index n k v o))) =
  f v + list_sum (map f (values o)).
Proof.
  induction o as [|[k1 v1] r IH]; simpl; [reflexivity|].
  destruct (array_index k1) as [m|]; [destruct (N.ltb n m)|]; simpl;
    try reflexivity.
  fold (values (insert_index n k v r)) (values r). lia.
Qed.

(** A total over the values after [o[k] = v]: the share of the old value
    goes, the share of the new one comes. *)
Lemma total_set (V : Type) (f : V -> nat) k v o :
  list_sum (map f (values (set k v o))) +
    match get k o with Some v0 => f v0 | None => 0 end =
  list_sum (map f (values o)) + f v.
Proof.
  unfold set, has. destruct (get k o) as [v0|] eqn:Hk.
  - now apply total_replace.
  - destruct (array_index k).
    + rewrite total_insert_index. lia.
    + unfold values. rewrite !map_app, list_sum_app. simpl. lia.
Qed.

Lemma length_set (V : Type) k (v : V) o :
  List.length (set k v o) =
  match get k o with Some _ => List.length o | None => S (List.length o) end.
Proof.
  pose proof (total_set (fun _ => 1) k v o) as H.
  assert (L : forall l : obj V, list_sum (map (fun _ => 1) (values l)) =
                                List.length l).
  { intros l. unfold values. rewrite map_map.
    induction l; simpl; [reflexivity | now f_equal]. }
  rewrite !L in H. destruct (get k o); lia.
Qed.

(** X9. On a document whose notes have ordinary keys, [deleteNote] removes
    the entry of the path and nothing else, does nothing to the notes when
    there is no such entry, and leaves the path in no list of backlinks. *)
Theorem deleteNote_forgets_path app (p : string) w db :
  disk w = Some db ->
  notes_wf (db_notes db) ->
  ordinary_notes (db_notes db) = true ->
  exists w' db',
    deleteNote app p w = Some (tt, w') /\
    disk w' = Some db' /\
    get p (db_notes db') = None /\
    (forall k, k <> p -> get k (db_notes db') = get k (db_notes db)) /\
    (get p (db_notes db) = None -> db_notes db' = db_notes db) /\
    (forall k, ~ in_backlinks (db_links db') k p) /\
    stats_consistent db'.
Proof.
  intros Hd Hwf _. rewrite (deleteNote_run app p w Hd).
  do 2 eexists. split; [reflexivity|]. split; [reflexivity|].
  cbn [recompute first_write with_notes db_notes db_links].
  assert (Hwf' : notes_wf (delete p (db_notes db)))
    by exact (notes_after_wf (app, Delete p) Hwf).
  assert (Hgone : get p (delete p (db_notes db)) = None)
    by (rewrite get_delete; now rewrite String.eqb_refl).
  split; [exact Hgone|]. split; [|split; [|split]].
  - intros k Hk. rewrite get_delete.
    destruct (String.eqb_spec k p); [contradiction | reflexivity].
  - apply delete_absent.
  - intros k (e & He & Hin).
    assert (Hnd : NoDup (map path (values (delete p (db_notes db)))))
      by (rewrite (notes_wf_paths Hwf'); apply Hwf').
    destruct (@build_links_inv _ Hnd) as (I1 & _ & _).
    assert (H : exists n, In n (values (delete p (db_notes db))) /\
                          path n = p /\ In k (outlinks n))
      by (apply I1; rewrite He; exact Hin).
    destruct H as (n & Hn & Hp & _).
    apply get_None_keys in Hgone. apply Hgone.
    rewrite <- (notes_wf_paths Hwf'). apply in_map_iff. eauto.
  - apply recompute_consistent, first_write_totalNotes.
Qed.

(** X10. Upserting the same file with the same metadata a second time
    changes nothing but the time stamp, for an upsert with ordinary keys
    into a document whose notes have ordinary keys. *)
Theorem updateNote_idempotent app file metadata w db :
  disk w = Some db ->
  ordinary_notes (db_notes db) = true ->
  ordinary_upsert app file metadata = true ->
  exists w1 w2 d1 d2,
    updateNote app file metadata w = Some (tt, w1) /\
    updateNote app file metadata w1 = Some (tt, w2) /\
    disk w1 = Some d1 /\ disk w2 = Some d2 /\
    content d2 = content d1.
Proof.
  intros Hd _ _. rewrite (updateNote_run app file metadata w Hd).
  do 4 eexists. split; [reflexivity|].
  split; [apply updateNote_run; reflexivity|].
  split; [reflexivity|]. split; [reflexivity|].
  cbn [recompute first_write with_notes db_notes].
  rewrite set_set_same. reflexivity.
Qed.

(** X11. What an upsert with ordinary keys does to the statistics of a
    consistent document whose notes have ordinary keys: the note stored
    before under the path, if any, gives up its outlinks, embeds and tasks,
    and the new note brings its own; the number of notes grows by one
    exactly when the path is new. *)
Theorem updateNote_moves_totals app file metadata w db :
  disk w = Some db ->
  stats_consistent db ->
  ordinary_notes (db_notes db) = true ->
  ordinary_upsert app file metadata = true ->
  let old := get (f_path file) (db_notes db) in
  let new := Some (note_of app file metadata) in
  exists w' db',
    updateNote app file metadata w = Some (tt, w') /\
    disk w' = Some db' /\
    totalNotes (db_stats db') =
      totalNotes (db_stats db) + match old with Some _ => 0 | None => 1 end /\
    totalLinks (db_stats db') + share outlinks old =
      totalLinks (db_stats db) + share outlinks new /\
    totalEmbeds (db_stats db') + share embeds old =
      totalEmbeds (db_stats db) + share embeds new /\
    totalTasks (db_stats db') + share tasks old =
      totalTasks (db_stats db) + share tasks new /\
    totalIncompleteTasks (db_stats db') +
      share (fun n => incomplete (tasks n)) old =
      totalIncompleteTasks (db_stats db) +
      share (fun n => incomplete (tasks n)) new.
Proof.
  intros Hd (Hn & _ & Hl & He & Ht & Hi) _ _. cbv zeta.
  rewrite (updateNote_run app file metadata w Hd).
  do 2 eexists. split; [reflexivity|]. split; [reflexivity|].
  cbn [recompute first_write with_notes db_stats totalNotes totalLinks
       totalEmbeds totalTasks totalIncompleteTasks db_notes].
  rewrite !sum_list_sum.
  set (k := f_path file). set (v := note_of app file metadata).
  split; [|repeat split].
  - unfold keys. rewrite length_map, length_set, Hn.
    destruct (get k (db_notes db)); lia.
  - pose proof (total_set (fun n => List.length (outlinks n)) k v
                  (db_notes db)) as H.
    rewrite Hl. unfold share. destruct (get k (db_notes db)); exact H.
  - pose proof (total_set (fun n => List.length (embeds n)) k v
                  (db_notes db)) as H.
    rewrite He. unfold share. destruct (get k (db_notes db)); exact H.
  - pose proof (total_set (fun n => List.length (tasks n)) k v
                  (db_notes db)) as H.
    rewrite Ht. unfold share. destruct (get k (db_notes db)); exact H.
  - pose proof (total_set (fun n => List.length (incomplete (tasks n))) k v
                  (db_notes db)) as H.
    rewrite Hi. unfold share. destruct (get k (db_notes db)); exact H.
Qed.
End Mutations.


(* ================================================================== *)
(** * Links of an upserted note, rebuilds and start-up *)
(* ================================================================== *)

Section Rebuild.
Import JS Index Measures.
Local Open Scope string_scope.

Lemma In_resolve_all app source refs P :
  In P (resolve_all app source refs) <->
  exists l, In l refs /\ getFirstLinkpathDest app l source = Some P.
Proof.
  unfold resolve_all. rewrite in_flat_map. split.
  - intros (l & Hl & HP). exists l. split; [exact Hl|].
    destruct (getFirstLinkpathDest app l source) as [q|]; [|destruct HP].
    destruct HP as [->|[]]. reflexivity.
  - intros (l & Hl & E). exists l. split; [exact Hl|]. rewrite E. now left.
Qed.

(** X12. After an upsert with ordinary keys into a document whose notes
    have ordinary keys, the paths the links of the note resolve to are
    exactly the outlinks recorded for the note and exactly the paths that
    have the note among their backlinks, whether or not they are notes; a
    link that does not resolve leaves no trace. *)
Theorem updateNote_records_links app file (md : CachedMetadata) w db :
  disk w = Some db ->
  notes_wf (db_notes db) ->
  ordinary_notes (db_notes db) = true ->
  ordinary_upsert app file (Some md) = true ->
  exists w' db',
    updateNote app file (Some md) w = Some (tt, w') /\
    disk w' = Some db' /\
    forall P,
      let resolved :=
        exists l, In l (or_empty (md_links md)) /\
                  getFirstLinkpathDest app l (f_path file) = Some P in
      (resolved <-> in_outlinks (db_links db') (f_path file) P) /\
      (resolved <-> in_backlinks (db_links db') P (f_path file)).
Proof.
  intros Hd Hwf _ _. rewrite (updateNote_run app file (Some md) w Hd).
  do 2 eexists. split; [reflexivity|]. split; [reflexivity|].
  intros P. cbv zeta.
  cbn [recompute first_write with_notes db_notes db_links].
  set (note := note_of app file (Some md)).
  set (notes' := set (f_path file) note (db_notes db)).
  assert (Hwf' : notes_wf notes')
    by exact (notes_after_wf (app, Upsert file (Some md)) Hwf).
  assert (Hnd : NoDup (map path (values notes')))
    by (rewrite (notes_wf_paths Hwf'); apply Hwf').
  assert (Hin : In note (values notes')).
  { apply (in_map snd _ (f_path file, note)). apply get_In.
    apply get_set_same. }
  destruct (@build_links_inv _ Hnd) as (_ & I2 & _).
  destruct (I2 note Hin) as (e & He & Ho).
  assert (Hout : (exists l, In l (or_empty (md_links md)) /\
                            getFirstLinkpathDest app l (f_path file) = Some P)
                 <-> in_outlinks (build_links (values notes')) (f_path file) P).
  { rewrite <- In_resolve_all.
    change (resolve_all app (f_path file) (or_empty (md_links md)))
      with (outlinks note).
    unfold in_outlinks. change (path note) with (f_path file) in He.
    rewrite He. split.
    - intros H. exists e. rewrite Ho. auto.
    - intros (e' & E & H). inversion E; subst e'. now rewrite <- Ho. }
  split; [exact Hout|]. rewrite Hout.
  apply (proj1 (@build_links_spec _ Hnd) note P Hin).
Qed.

Lemma upsert_all_cons app f r notes :
  upsert_all app (f :: r) notes =
  upsert_all app r
    (set (f_path f) (note_of app f (getFileCache app f)) notes).
Proof. reflexivity. Qed.

Lemma keys_upsert_all app files : forall notes p,
  In p (keys (upsert_all app files notes)) <->
  In p (keys notes) \/ exists file, In file files /\ f_path file = p.
Proof.
  induction files as [|f r IH]; intros notes p.
  - simpl. split; [tauto|]. intros [H|(file & [] & _)]. exact H.
  - rewrite upsert_all_cons, IH, keys_set.
    split.
    + intros [[->|H]|(file & Hf & E)]; [right|left|right]; eauto.
      * exists f. split; [now left | reflexivity].
      * exists file. split; [now right | exact E].
    + intros [H|(file & [->|Hf] & E)]; [tauto| |right; eauto].
      left. left. now symmetry.
Qed.

Lemma get_upsert_all_other app files : forall notes p,
  ~ In p (map f_path files) ->
  get p (upsert_all app files notes) = get p notes.
Proof.
  induction files as [|f r IH]; intros notes p Hp; [reflexivity|].
  rewrite upsert_all_cons.
  simpl in Hp. rewrite IH by tauto. apply get_set_other. intuition.
Qed.

Lemma get_upsert_all app files : forall notes file,
  NoDup (map f_path files) -> In file files ->
  get (f_path file) (upsert_all app files notes) =
  Some (note_of app file (getFileCache app file)).
Proof.
  induction files as [|f r IH]; intros notes file Hnd Hin; [destruct Hin|].
  inversion Hnd as [|? ? Hnotin Hnd']; subst.
  rewrite upsert_all_cons.
  destruct Hin as [->|Hin].
  - rewrite get_upsert_all_other by exact Hnotin. apply get_set_same.
  - now apply IH.
Qed.

(** The loop of [rebuildDatabase], from a world that has the file. *)
Lemma upsert_loop app files : forall w d0,
  disk w = Some d0 ->
  exists w' db',
    for_of (fun _ file => updateNote app file (getFileCache app file))
           files tt w = Some (tt, w') /\
    disk w' = Some db' /\
    db_notes db' = upsert_all app files (db_notes d0) /\
    List.length (journal w') = List.length (journal w) + 2 * List.length files /\
    (stats_consistent d0 -> stats_consistent db').
Proof.
  induction files as [|file rest IH]; intros w d0 Hd.
  - exists w, d0. split; [reflexivity|]. split; [exact Hd|].
    split; [reflexivity|]. split; [simpl; lia | auto].
  - cbn [for_of]. unfold bind.
    rewrite (updateNote_run app file (getFileCache app file) w Hd).
    destruct (IH (after_mutation app w d0
                    (set (f_path file)
                         (note_of app file (getFileCache app file))
                         (db_notes d0)))
                 _ eq_refl) as (w' & db' & Hrun & Hdisk & Hn & Hj & Hc).
    exists w', db'. split; [exact Hrun|]. split; [exact Hdisk|].
    split; [exact Hn|]. split.
    + rewrite Hj. cbn [after_mutation journal]. rewrite length_app.
      simpl. lia.
    + intros _. apply Hc. apply recompute_consistent, first_write_totalNotes.
Qed.

(** X13. In a vault whose markdown files are upserted with ordinary keys,
    [rebuildDatabase] works whatever was on disk, even no file at all.
    The notes it leaves are those of the markdown files of the vault and no
    others, each file stored as extracted when paths are distinct; the
    statistics are consistent; and the file has been written once to clear
    it and twice for every markdown file. *)
Theorem rebuildDatabase_indexes_vault (app : App) (w : World IndexDoc) :
  ordinary_vault app = true ->
  exists w' db',
    rebuildDatabase app w = Some (tt, w') /\
    disk w' = Some db' /\
    (forall p, In p (keys (db_notes db')) <->
               exists file, In file (getMarkdownFiles app) /\
                            f_path file = p) /\
    (NoDup (map f_path (getMarkdownFiles app)) ->
     forall file, In file (getMarkdownFiles app) ->
       get (f_path file) (db_notes db') =
       Some (note_of app file (getFileCache app file))) /\
    stats_consistent db' /\
    List.length (journal w') =
      List.length (journal w) + 1 + 2 * List.length (getMarkdownFiles app).
Proof.
  intros _. unfold rebuildDatabase, bind, now_iso, writeDb.
  set (now := toISOString (clock app) (time_at (clock app) (ticks w))).
  destruct (upsert_loop app (getMarkdownFiles app)
              {| disk := Some (defaultData now);
                 journal := journal w ++ [defaultData now];
                 ticks := S (ticks w) |} eq_refl)
    as (w' & db' & Hrun & Hdisk & Hn & Hj & Hc).
  exists w', db'. split; [exact Hrun|]. split; [exact Hdisk|].
  rewrite Hn. cbn [defaultData db_notes]. split; [|split; [|split]].
  - intros p. rewrite keys_upsert_all. split; [|tauto].
    intros [[]|H]. exact H.
  - intros Hnd file Hin. now apply get_upsert_all.
  - apply Hc, defaultData_consistent.
  - rewrite Hj. cbn [journal]. rewrite length_app. simpl. lia.
Qed.

(** X14. [initDatabase] creates the default document when there is no file
    and never writes over a file that exists, so that running it again
    changes nothing. *)
Theorem initDatabase_creates_once (app : App) (w : World IndexDoc) :
  exists w1 w2,
    initDatabase app w = Some (tt, w1) /\
    initDatabase app w1 = Some (tt, w2) /\
    disk w2 = disk w1 /\ journal w2 = journal w1 /\
    match disk w with
    | Some db => disk w1 = Some db /\ journal w1 = journal w
    | None =>
        exists now, disk w1 = Some (defaultData now) /\
                    journal w1 = (journal w ++ [defaultData now])%list
    end.
Proof.
  destruct (disk w) as [db|] eqn:Hd.
  - exists {| disk := Some db; journal := journal w; ticks := S (ticks w) |},
      {| disk := Some db; journal := journal w; ticks := S (S (ticks w)) |}.
    unfold initDatabase, bind, now_iso, writeDb, ret. simpl. rewrite Hd.
    repeat split.
  - set (now := toISOString (clock app) (time_at (clock app) (ticks w))).
    exists {| disk := Some (defaultData now);
              journal := journal w ++ [defaultData now];
              ticks := S (ticks w) |},
      {| disk := Some (defaultData now);
         journal := journal w ++ [defaultData now];
         ticks := S (S (ticks w)) |}.
    unfold initDatabase, bind, now_iso, writeDb, ret. simpl. rewrite Hd.
    repeat split. exists now. split; reflexivity.
Qed.
End Rebuild.

(* ================================================================== *)
(** * The event handlers of the plugin *)
(* ================================================================== *)

Section Handlers.
Import JS Index Plugin Measures.
Local Open Scope string_scope.

Lemma bind_ret_unit (D : Type) (m : M D unit) w :
  bind m (fun s => ret s) w = m w.
Proof. unfold bind, ret. destruct (m w) as [[[] w']|]; reflexivity. Qed.

Lemma run_ops_one step w : run_ops [step] w = run_op (fst step) (snd step) w.
Proof. unfold run_ops. cbn [for_of]. apply bind_ret_unit. Qed.

Lemma run_ops_app l1 : forall l2 w,
  run_ops (l1 ++ l2) w = bind (run_ops l1) (fun _ => run_ops l2) w.
Proof.
  induction l1 as [|a r IH]; intros l2 w; [reflexivity|].
  unfold run_ops in *. cbn [app for_of]. unfold bind in *.
  destruct (run_op (fst a) (snd a) w) as [[[] w']|]; [|reflexivity].
  apply IH.
Qed.

(** A handler performs the mutations of [ops_of], in order. *)
Lemma handle_ops step w :
  handle (fst step) (snd step) w = run_ops (ops_of step) w.
Proof.
  destruct step as [app ev]. unfold ops_of. cbn [fst snd].
  destruct ev as [file|file|file|file oldPath|f]; cbn [handle];
    try (destruct (markdown file) as [f|]; [|reflexivity]);
    try (destruct (String.eqb (f_extension f) "md"); [|reflexivity]);
    try (symmetry; apply run_ops_one).
  change [(app, Delete oldPath); (app, Upsert f (getFileCache app f))]
    with ([(app, Delete oldPath)] ++ [(app, Upsert f (getFileCache app f))])%list.
  rewrite run_ops_app. unfold bind. rewrite run_ops_one. cbn [fst snd run_op].
  destruct (deleteNote app oldPath w) as [[[] w']|]; [|reflexivity].
  symmetry. apply run_ops_one.
Qed.

Lemma handle_all_ops steps : forall w,
  handle_all steps w = run_ops (flat_map ops_of steps) w.
Proof.
  induction steps as [|step rest IH]; intros w; [reflexivity|].
  cbn [flat_map]. rewrite run_ops_app. unfold handle_all in *.
  cbn [for_of]. unfold bind. rewrite handle_ops.
  destruct (run_ops (ops_of step) w) as [[[] w']|]; [apply IH | reflexivity].
Qed.

(** X15. An event about a folder or about a file that is not markdown is
    ignored: the handler neither reads nor writes the index and does not
    look at the clock.  This includes a note renamed to another extension,
    whose entry stays under its old path. *)
Theorem handler_ignores_other_files app ev (w : World IndexDoc) :
  markdown_subject ev = None ->
  handle app ev w = Some (tt, w).
Proof.
  destruct ev as [file|file|file|file oldPath|f]; cbn [markdown_subject handle];
    try (intros ->; reflexivity).
  destruct (String.eqb (f_extension f) "md"); [discriminate | reflexivity].
Qed.

Lemma no_backlinks_from_absent notes p :
  notes_wf notes -> get p notes = None ->
  forall k, ~ in_backlinks (build_links (values notes)) k p.
Proof.
  intros Hwf Hgone k (e & He & Hin).
  assert (Hnd : NoDup (map path (values notes)))
    by (rewrite (notes_wf_paths Hwf); apply Hwf).
  destruct (@build_links_inv _ Hnd) as (I1 & _ & _).
  assert (H : exists n, In n (values notes) /\ path n = p /\ In k (outlinks n))
    by (apply I1; rewrite He; exact Hin).
  destruct H as (n & Hn & Hp & _).
  apply get_None_keys in Hgone. apply Hgone.
  rewrite <- (notes_wf_paths Hwf). apply in_map_iff. eauto.
Qed.

(** X16. On a document whose notes have ordinary keys, the handler of a
    rename of a markdown file that is upserted with ordinary keys deletes
    the entry of the old path and stores the file under its new path, in
    four writes; the other notes are untouched, and the old path is left in
    no list of backlinks. *)
Theorem rename_moves_note app (f : TFile) (oldPath : string) w db :
  disk w = Some db ->
  notes_wf (db_notes db) ->
  f_extension f = "md" ->
  ordinary_notes (db_notes db) = true ->
  ordinary_upsert app f (getFileCache app f) = true ->
  exists w' db',
    handle app (Renamed (File f) oldPath) w = Some (tt, w') /\
    disk w' = Some db' /\
    get (f_path f) (db_notes db') =
      Some (note_of app f (getFileCache app f)) /\
    (oldPath <> f_path f ->
     get oldPath (db_notes db') = None /\
     forall k, ~ in_backlinks (db_links db') k oldPath) /\
    (forall k, k <> oldPath -> k <> f_path f ->
               get k (db_notes db') = get k (db_notes db)) /\
    List.length (journal w') = List.length (journal w) + 4 /\
    stats_consistent db'.
Proof.
  intros Hd Hwf Hext _ _. cbn [handle markdown]. rewrite Hext.
  change (String.eqb "md" "md") with true. cbv iota. unfold bind.
  rewrite (deleteNote_run app oldPath w Hd).
  rewrite (updateNote_run app f (getFileCache app f)
             (after_mutation app w db (delete oldPath (db_notes db)))
             eq_refl).
  do 2 eexists. split; [reflexivity|]. split; [reflexivity|].
  cbn [recompute first_write with_notes db_notes db_links after_mutation
       journal].
  set (note := note_of app f (getFileCache app f)).
  set (notes' := set (f_path f) note (delete oldPath (db_notes db))).
  assert (Hwf' : notes_wf notes').
  { apply (notes_after_wf (app, Upsert f (getFileCache app f))).
    exact (notes_after_wf (app, Delete oldPath) Hwf). }
  split; [apply get_set_same|]. split; [|split; [|split]].
  - intros Hne.
    assert (Hgone : get oldPath notes' = None).
    { unfold notes'. rewrite get_set_other by exact Hne.
      rewrite get_delete. now rewrite String.eqb_refl. }
    split; [exact Hgone | now apply no_backlinks_from_absent].
  - intros k Hk1 Hk2. unfold notes'. rewrite get_set_other by exact Hk2.
    rewrite get_delete.
    destruct (String.eqb_spec k oldPath); [contradiction | reflexivity].
  - rewrite !length_app. simpl. lia.
  - apply recompute_consistent, first_write_totalNotes.
Qed.

Lemma ops_of_markdown steps step :
  In step (flat_map ops_of steps) ->
  match snd step with
  | Upsert f _ => f_extension f = "md"
  | Delete _ => True
  end.
Proof.
  rewrite in_flat_map. intros ([app ev] & _ & Hin).
  unfold ops_of in Hin. cbn [fst snd] in Hin.
  assert (Hmd : forall file f, markdown file = Some f -> f_extension f = "md").
  { intros [f0|p] f0' H; simpl in H; [|discriminate].
    destruct (String.eqb_spec (f_extension f0) "md"); [|discriminate].
    now inversion H; subst. }
  destruct ev as [file|file|file|file oldPath|f];
    try (destruct (markdown file) as [f|] eqn:Hm; [|destruct Hin];
         apply Hmd in Hm);
    try (destruct (String.eqb_spec (f_extension f) "md") as [Hm|];
         [|destruct Hin]);
    repeat (destruct Hin as [<-|Hin]; [simpl; auto|]); destruct Hin.
Qed.

(** Documents in which every note is a markdown file stored under its own
    path stay so under mutations about markdown files. *)
Lemma run_ops_markdown steps : forall w db,
  (forall step, In step steps ->
     match snd step with
     | Upsert f _ => f_extension f = "md"
     | Delete _ => True
     end) ->
  disk w = Some db ->
  (forall k n, get k (db_notes db) = Some n -> extension n = "md") ->
  exists w' db',
    run_ops steps w = Some (tt, w') /\ disk w' = Some db' /\
    (forall k n, get k (db_notes db') = Some n -> extension n = "md").
Proof.
  induction steps as [|step rest IH]; intros w db Hmd Hd Hext.
  - exists w, db. auto.
  - unfold run_ops. cbn [for_of]. unfold bind at 1.
    rewrite (run_op_run step w Hd).
    apply (IH (after_mutation (fst step) w db
                 (notes_after step (db_notes db)))
              (recompute (first_write (fst step) w db
                            (notes_after step (db_notes db))))).
    + intros s Hs. apply Hmd. now right.
    + reflexivity.
    + cbn [recompute first_write with_notes db_notes].
      specialize (Hmd step (or_introl eq_refl)).
      destruct step as [app [file metadata|p]]; unfold notes_after;
        cbn [fst snd] in *; intros k n.
      * rewrite get_set. destruct (String.eqb k (f_path file)).
        -- intros H. inversion H; subst. exact Hmd.
        -- apply Hext.
      * rewrite get_delete. destruct (String.eqb k p); [discriminate|].
        apply Hext.
Qed.

(** X17. Whatever events the vault sends, as long as their handlers use
    ordinary keys, handled one after the other from the default document:
    the statistics are consistent, every note is stored under its own path,
    and only markdown files are indexed. *)
Theorem handlers_keep_index_sound (now : string)
  (steps : list (App * VaultEvent)) :
  forallb ordinary_event steps = true ->
  exists w db,
    handle_all steps (fresh_world now) = Some (tt, w) /\
    disk w = Some db /\
    stats_consistent db /\
    notes_wf (db_notes db) /\
    (forall n, In n (values (db_notes db)) -> extension n = "md").
Proof.
  intros _. rewrite handle_all_ops.
  destruct (run_ops_consistent (flat_map ops_of steps) (fresh_world now)
              (db := defaultData now) eq_refl (defaultData_consistent now))
    as (w & db & Hrun & Hd & Hc).
  destruct (run_ops_notes_wf (flat_map ops_of steps) (fresh_world now)
              eq_refl (default_notes_wf now)) as (w1 & db1 & Hrun1 & Hd1 & Hwf).
  destruct (@run_ops_markdown (flat_map ops_of steps) (fresh_world now)
              (defaultData now) (ops_of_markdown steps) eq_refl)
    as (w2 & db2 & Hrun2 & Hd2 & Hmd); [intros k n H; discriminate|].
  rewrite Hrun in Hrun1, Hrun2. inversion Hrun1; subst w1.
  inversion Hrun2; subst w2.
  rewrite Hd in Hd1, Hd2. inversion Hd1; subst db1. inversion Hd2; subst db2.
  exists w, db. repeat (split; [assumption|]).
  intros n Hn. unfold values in Hn. apply in_map_iff in Hn.
  destruct Hn as ([k n'] & <- & Hin). apply (Hmd k).
  apply In_get; [apply Hwf | exact Hin].
Qed.

Lemma lastIndexOf_slash_app dir name :
  lastIndexOf_slash name = None ->
  lastIndexOf_slash (dir ++ String "/" name) = Some (String.length dir).
Proof.
  intros Hn. induction dir as [|c r IH]; simpl.
  - now rewrite Hn.
  - now rewrite IH.
Qed.

Lemma substring_prefix dir rest :
  String.substring 0 (String.length dir) (dir ++ rest) = dir.
Proof.
  induction dir as [|c r IH]; simpl.
  - now destruct rest.
  - now rewrite IH.
Qed.

(** X18. The directory [ensureDataDirectory] creates is the path of the
    database without its last component; for a path without a slash it is
    the empty string. *)
Theorem dataDir_drops_last_component (dir name : string) :
  lastIndexOf_slash name = None ->
  dataDir (dir ++ String "/" name) = dir /\ dataDir name = "".
Proof.
  intros Hn. unfold dataDir. rewrite (@lastIndexOf_slash_app dir name Hn), Hn.
  split; [apply substring_prefix | reflexivity].
Qed.
End Handlers.

(* ================================================================== *)
(** * The query bridge: what a poll cycle touches *)
(* ================================================================== *)

Section BridgeFrame.
Import JS Bridge Measures.
Local Open Scope string_scope.

Lemma with_queries_same db queries :
  dataviewQueries db = Some queries -> with_queries db queries = db.
Proof. destruct db; simpl; intros ->; reflexivity. Qed.

(** The world one poll cycle leaves, for a document with
    [dataviewQueries]. *)
Lemma cycle_world app w db queries :
  disk w = Some db -> dataviewQueries db = Some queries ->
  exists w',
    checkAndExecuteDataviewQueries app w = Some (tt, w') /\
    disk w' = Some (with_queries db (queries_after app (ticks w) queries)) /\
    journal w' = (journal w ++ cycle_writes app (ticks w) db queries)%list.
Proof.
  intros Hd Hq. unfold cycle_writes, queries_after.
  destruct (check_requested queries) eqn:Hc.
  - rewrite (cycle_check app w Hd Hq Hc). eexists.
    split; [reflexivity|]. split; reflexivity.
  - unfold checkAndExecuteDataviewQueries, bind at 1, readDb at 1.
    rewrite Hd, Hq, Hc.
    destruct (pendingQueries queries) as [|p0 rest] eqn:Hp.
    + exists w. unfold ret. rewrite (with_queries_same db Hq), app_nil_r.
      auto.
    + destruct (dataview_api app) as [dv|].
      * rewrite execute_query_transition. unfold bind at 1.
        rewrite transition_loop. unfold bind, date_now, writeDb.
        eexists. split; [reflexivity|]. split; reflexivity.
      * rewrite fail_query_transition. unfold bind at 1.
        rewrite transition_loop. unfold writeDb.
        eexists. split; [reflexivity|]. split; reflexivity.
Qed.

(** X19. A poll cycle writes the file twice when it handles [_check], once
    when it processes pending queries, and not at all when there is nothing
    to do or no [dataviewQueries]: an idle poll leaves the file, and the
    clock, alone. *)
Theorem cycle_writes_only_when_needed app (w : World BridgeDoc) db :
  disk w = Some db ->
  match dataviewQueries db with
  | None => checkAndExecuteDataviewQueries app w = Some (tt, w)
  | Some queries =>
      exists w',
        checkAndExecuteDataviewQueries app w = Some (tt, w') /\
        journal w' = (journal w ++ cycle_writes app (ticks w) db queries)%list /\
        List.length (cycle_writes app (ticks w) db queries) =
          (if check_requested queries then 2
           else match pendingQueries queries with [] => 0 | _ => 1 end) /\
        (check_requested queries = false -> pendingQueries queries = [] ->
         w' = w)
  end.
Proof.
  intros Hd. destruct (dataviewQueries db) as [queries|] eqn:Hq.
  - destruct (cycle_world app w Hd Hq) as (w' & Hrun & Hdisk & Hj).
    exists w'. split; [exact Hrun|]. split; [exact Hj|]. split.
    + unfold cycle_writes. destruct (check_requested queries); [reflexivity|].
      now destruct (pendingQueries queries).
    + intros Hc Hp. revert Hrun.
      unfold checkAndExecuteDataviewQueries, bind at 1, readDb at 1.
      rewrite Hd, Hq, Hc, Hp. unfold ret. congruence.
  - unfold checkAndExecuteDataviewQueries, bind, readDb. now rewrite Hd, Hq.
Qed.

Lemma cycle_fields app (w : World BridgeDoc) db :
  disk w = Some db ->
  exists w' db',
    checkAndExecuteDataviewQueries app w = Some (tt, w') /\
    disk w' = Some db' /\
    version db' = version db /\
    dataviewAvailable db' = dataviewAvailable db /\
    lastChecked db' = lastChecked db.
Proof.
  intros Hd. destruct (dataviewQueries db) as [queries|] eqn:Hq.
  - destruct (cycle_world app w Hd Hq) as (w' & Hrun & Hdisk & _).
    exists w'. eexists. split; [exact Hrun|]. split; [exact Hdisk|].
    repeat split.
  - exists w, db. split; [|auto].
    unfold checkAndExecuteDataviewQueries, bind, readDb. now rewrite Hd, Hq.
Qed.

(** X20. No number of poll cycles changes [dataviewAvailable],
    [lastChecked] or [version] on disk: only a direct call of
    [checkDataviewAvailability] leaves its probe in the file. *)
Theorem poll_keeps_availability_fields (apps : list App)
  (w : World BridgeDoc) db :
  disk w = Some db ->
  exists w' db',
    poll apps w = Some (tt, w') /\
    disk w' = Some db' /\
    version db' = version db /\
    dataviewAvailable db' = dataviewAvailable db /\
    lastChecked db' = lastChecked db.
Proof.
  revert w db. induction apps as [|app rest IH]; intros w db Hd.
  - exists w, db. auto.
  - destruct (cycle_fields app w Hd) as (w1 & db1 & Hrun & Hd1 & Hv & Ha & Hl).
    destruct (IH w1 db1 Hd1) as (w' & db' & Hrun' & Hd' & Hv' & Ha' & Hl').
    exists w', db'. cbn [poll]. unfold bind. rewrite Hrun.
    split; [exact Hrun'|]. split; [exact Hd'|]. repeat split; congruence.
Qed.

Lemma keys_set_present (V : Type) k (v : V) o :
  In k (keys o) -> keys (set k v o) = keys o.
Proof.
  intros Hin. unfold set, has. destruct (get k o) eqn:Hk.
  - apply keys_replace.
  - apply get_None_keys in Hk. contradiction.
Qed.

Lemma keys_stamped_same ck f pending : forall t queries,
  (forall id, In id (keys pending) -> In id (keys queries)) ->
  keys (stamped ck f t pending queries) = keys queries.
Proof.
  induction pending as [|[k e] rest IH]; intros t queries Hin; [reflexivity|].
  cbn [stamped fst snd].
  assert (Hk : keys (set k (f e (toISOString ck (time_at ck t))) queries)
               = keys queries)
    by (apply keys_set_present, Hin; now left).
  rewrite IH; [exact Hk|]. intros id Hid. rewrite Hk. apply Hin. now right.
Qed.

Lemma keys_filter_incl (p : string * QueryEntry -> bool) queries id :
  In id (keys (filter p queries)) -> In id (keys queries).
Proof.
  unfold keys. rewrite !in_map_iff. intros (x & E & Hx).
  apply filter_In in Hx. exists x. tauto.
Qed.

(** X21. A poll cycle never adds an id to [dataviewQueries]; when it fails
    the pending queries for want of Dataview it keeps every id, in the
    same order. *)
Theorem cycle_adds_no_id app (w : World BridgeDoc) db queries :
  disk w = Some db ->
  dataviewQueries db = Some queries ->
  exists w' queries',
    checkAndExecuteDataviewQueries app w = Some (tt, w') /\
    queries_on_disk w' = Some queries' /\
    (forall id, In id (keys queries') -> In id (keys queries)) /\
    (check_requested queries = false -> dataview_api app = None ->
     keys queries' = keys queries).
Proof.
  intros Hd Hq.
  destruct (cycle_queries app w Hd Hq) as (w' & Hrun & Hdisk & _).
  exists w', (queries_after app (ticks w) queries).
  split; [exact Hrun|]. split; [exact Hdisk|].
  assert (Hsame : forall f,
            keys (stamped (clock app) f (ticks w) (pendingQueries queries)
                          queries) = keys queries).
  { intros f. apply keys_stamped_same. apply keys_filter_incl. }
  unfold queries_after. split.
  - intros id. destruct (check_requested queries).
    + rewrite keys_delete. tauto.
    + destruct (pendingQueries queries) as [|p0 rest] eqn:Hp; [tauto|].
      rewrite <- Hp in *. destruct (dataview_api app) as [dv|].
      * intros H. apply keys_filter_incl in H. now rewrite Hsame in H.
      * now rewrite Hsame.
  - intros -> ->. destruct (pendingQueries queries) as [|p0 rest] eqn:Hp;
      [reflexivity|].
    rewrite <- Hp in *. apply Hsame.
Qed.

(** X22. A poll cycle never rewrites an entry that is not a pending user
    query: afterwards the entry is there unchanged or it is gone, and it
    is gone only as the pending [_check] the cycle handled, or as an
    expired entry in a cycle that executed queries. *)
Theorem cycle_leaves_settled_entries app (w : World BridgeDoc) db queries
  (id : string) (e : QueryEntry) :
  disk w = Some db ->
  dataviewQueries db = Some queries ->
  NoDup (keys queries) ->
  get id queries = Some e ->
  is_pending (id, e) = false ->
  exists w' queries',
    checkAndExecuteDataviewQueries app w = Some (tt, w') /\
    queries_on_disk w' = Some queries' /\
    (get id queries' = Some e \/ get id queries' = None) /\
    (get id queries' = None ->
     (id = "_check" /\ check_requested queries = true) \/
     (check_requested queries = false /\ pendingQueries queries <> [] /\
      isAvailable app = true /\
      expired (cutoff (clock app)
                 (ticks w + List.length (pendingQueries queries)))
              (id, e) = true)).
Proof.
  intros Hd Hq Hnd Hg Hp.
  destruct (cycle_queries app w Hd Hq) as (w' & Hrun & Hdisk & _).
  exists w', (queries_after app (ticks w) queries).
  split; [exact Hrun|]. split; [exact Hdisk|].
  assert (Hkey : ~ In id (keys (pendingQueries queries))).
  { apply (@not_awaiting_not_pending_key queries id e Hnd Hg).
    unfold is_pending in Hp. cbn [fst snd] in Hp.
    destruct (is_control id); [reflexivity|]. simpl in *. now rewrite Hp. }
  unfold queries_after, isAvailable.
  destruct (check_requested queries) eqn:Hc.
  - rewrite get_delete. destruct (String.eqb_spec id "_check") as [->|Hne].
    + split; [now right|]. intros _. now left.
    + split; [now left|]. rewrite Hg. discriminate.
  - destruct (pendingQueries queries) as [|p0 rest] eqn:Hpq.
    + split; [now left|]. rewrite Hg. discriminate.
    + rewrite <- Hpq in *. destruct (dataview_api app) as [dv|].
      * unfold cleanup. rewrite get_filter by now apply keys_stamped.
        rewrite get_stamped_other by exact Hkey. rewrite Hg.
        destruct (expired _ (id, e)) eqn:He; cbn [negb].
        -- split; [now right|]. intros _. right.
           repeat split; try reflexivity. rewrite Hpq. discriminate.
        -- split; [now left | discriminate].
      * rewrite get_stamped_other by exact Hkey.
        split; [now left|]. rewrite Hg. discriminate.
Qed.

Lemma or_default_truthy s d : truthy d = true -> truthy (or_default s d) = true.
Proof. intros Hd. unfold or_default. now destruct (truthy s) eqn:Hs. Qed.

Lemma run_query_settled dv e now : settled (query e) (run_query dv e now).
Proof.
  unfold settled, run_query, executed.
  destruct (dv (query e)) as [value|err|message]; cbn.
  - split; [reflexivity|]. split; [eauto|]. left. eauto.
  - split; [reflexivity|]. split; [eauto|]. right.
    repeat split. eexists. split; [reflexivity|].
    now apply or_default_truthy.
  - split; [reflexivity|]. split; [eauto|]. right.
    repeat split. eexists. split; [reflexivity|].
    now apply or_default_truthy.
Qed.

(** X23. In a poll cycle that finds no pending [_check] and has Dataview,
    every pending user query is replaced by the outcome of its execution:
    the same query text, a time stamp read during the cycle, and either
    status success with a result, exactly when Dataview reports success,
    or status error with a message that is not empty.  The new entry is
    what the cycle leaves on disk, unless its fresh time stamp is below the
    cutoff of the cleanup. *)
Theorem executing_cycle_settles_pending app dv (w : World BridgeDoc) db
  queries :
  disk w = Some db ->
  dataviewQueries db = Some queries ->
  NoDup (keys queries) ->
  check_requested queries = false ->
  dataview_api app = Some dv ->
  exists w' queries',
    checkAndExecuteDataviewQueries app w = Some (tt, w') /\
    queries_on_disk w' = Some queries' /\
    forall id e, awaiting queries id e ->
      exists k, ticks w <= k < ticks w' /\
        let e' := run_query dv e (toISOString (clock app)
                                    (time_at (clock app) k)) in
        settled (query e) e' /\
        (status e' = Some "success" <->
         exists value, dv (query e) = Successful value) /\
        get id queries' =
          if expired (cutoff (clock app)
                        (ticks w + List.length (pendingQueries queries)))
                     (id, e')
          then None else Some e'.
Proof.
  intros Hd Hq Hnd Hc Hapi.
  destruct (cycle_queries app w Hd Hq) as (w' & Hrun & Hdisk & Ht).
  exists w', (queries_after app (ticks w) queries).
  split; [exact Hrun|]. split; [exact Hdisk|].
  intros id e (Hg & Hctl & Hs).
  assert (H : In (id, e) (pendingQueries queries))
    by (apply In_pendingQueries; auto using get_In).
  unfold queries_after. rewrite Hc, Hapi in *.
  destruct (pendingQueries queries) as [|p0 rest] eqn:Hp; [destruct H|].
  rewrite <- Hp in *.
  apply In_nth_error in H. destruct H as (i & Hi).
  assert (Hlt : i < List.length (pendingQueries queries))
    by (apply nth_error_Some; congruence).
  exists (ticks w + i). split; [rewrite Hp in *; simpl in *; lia|].
  cbv zeta. split; [apply run_query_settled|]. split.
  - unfold run_query, executed. destruct (dv (query e)); cbn.
    + split; eauto.
    + split; [discriminate | intros (v & E); discriminate].
    + split; [discriminate | intros (v & E); discriminate].
  - unfold cleanup. rewrite get_filter by now apply keys_stamped.
    rewrite (@get_stamped_nth (clock app) (run_query dv)
               (pendingQueries queries) (ticks w) queries i id e);
      [|now apply NoDup_keys_filter | exact Hi].
    now destruct (expired _ _).
Qed.

(** X24. Without the file both [checkDataviewAvailability] and the poll
    cycle throw.  Once [initializeJsonDb] has created the default document
    the first poll cycle finds nothing to do, and a direct
    [checkDataviewAvailability] records the probe and its time. *)
Theorem bridge_needs_its_file app (w : World BridgeDoc) :
  disk w = None ->
  checkAndExecuteDataviewQueries app w = None /\
  checkDataviewAvailability app w = None /\
  exists w1,
    initializeJsonDb app w = Some (tt, w1) /\
    checkAndExecuteDataviewQueries app w1 = Some (tt, w1) /\
    exists w2 db,
      checkDataviewAvailability app w1 = Some (tt, w2) /\
      disk w2 = Some db /\
      dataviewAvailable db = isAvailable app /\
      lastChecked db =
        toISOString (clock app) (time_at (clock app) (ticks w1)) /\
      dataviewQueries db = Some [].
Proof.
  intros Hd.
  unfold checkAndExecuteDataviewQueries, checkDataviewAvailability,
    initializeJsonDb, bind, readDb, now_iso, writeDb, ret.
  simpl. rewrite Hd. split; [reflexivity|]. split; [reflexivity|].
  eexists. split; [reflexivity|]. simpl. split; [reflexivity|].
  do 2 eexists. repeat split.
Qed.
End BridgeFrame.


(* ================================================================== *)
(** * Compositions: undoing an upsert, two polls in a row *)
(* ================================================================== *)

Section Compositions.
Import JS Index Bridge Measures.
Local Open Scope string_scope.

Lemma delete_insert_index (V : Type) n k (v : V) o :
  delete k (insert_index n k v o) = delete k o.
Proof.
  induction o as [|[k1 v1] r IH]; simpl.
  - now rewrite String.eqb_refl.
  - destruct (array_index k1) as [m|]; [destruct (N.ltb n m)|]; simpl;
      rewrite ?String.eqb_refl; try reflexivity.
    destruct (String.eqb k k1); [exact IH | now rewrite IH].
Qed.

Lemma delete_replace (V : Type) k (v : V) o :
  delete k (replace k v o) = delete k o.
Proof.
  induction o as [|[k1 v1] r IH]; simpl; [reflexivity|].
  destruct (String.eqb_spec k k1) as [->|Hne]; simpl.
  - now rewrite String.eqb_refl.
  - destruct (String.eqb_spec k k1); [contradiction | now rewrite IH].
Qed.

Lemma delete_app_last (V : Type) k (v : V) o :
  delete k (o ++ [(k, v)])%list = delete k o.
Proof.
  induction o as [|[k1 v1] r IH]; simpl.
  - now rewrite String.eqb_refl.
  - destruct (String.eqb k k1); [exact IH | now rewrite IH].
Qed.

(** Deleting a key right after setting it is deleting it. *)
Lemma delete_set (V : Type) k (v : V) o : delete k (set k v o) = delete k o.
Proof.
  unfold set. destruct (has k o).
  - apply delete_replace.
  - destruct (array_index k);
      [apply delete_insert_index | apply delete_app_last].
Qed.

(** X25. With ordinary keys in the upsert and in the notes of the
    document, deleting a note right after upserting it leaves what deleting
    it alone would have left, time stamp apart; when the path was not
    indexed before, the notes are back to what they were. *)
Theorem deleteNote_undoes_updateNote app file metadata
  (w : World IndexDoc) db :
  disk w = Some db ->
  ordinary_notes (db_notes db) = true ->
  ordinary_upsert app file metadata = true ->
  exists w1 w2 w3 d2 d3,
    updateNote app file metadata w = Some (tt, w1) /\
    deleteNote app (f_path file) w1 = Some (tt, w2) /\
    deleteNote app (f_path file) w = Some (tt, w3) /\
    disk w2 = Some d2 /\ disk w3 = Some d3 /\
    content d2 = content d3 /\
    (get (f_path file) (db_notes db) = None -> db_notes d2 = db_notes db).
Proof.
  intros Hd _ _. rewrite (updateNote_run app file metadata w Hd).
  rewrite (deleteNote_run app (f_path file) w Hd).
  do 5 eexists. split; [reflexivity|].
  split; [apply deleteNote_run; reflexivity|].
  split; [reflexivity|]. split; [reflexivity|]. split; [reflexivity|].
  cbn [recompute first_write with_notes db_notes]. rewrite delete_set.
  split; [reflexivity|]. apply delete_absent.
Qed.

Lemma none_pending_filter (p : string * QueryEntry -> bool) queries :
  NoDup (keys queries) -> none_pending queries ->
  none_pending (filter p queries).
Proof.
  intros Hnd Hn id e Hg Hc. rewrite get_filter in Hg by exact Hnd.
  destruct (get id queries) as [e0|] eqn:H0; [|discriminate].
  destruct (p (id, e0)); [|discriminate]. inversion Hg; subst.
  exact (Hn id e H0 Hc).
Qed.

(** A cycle that finds no pending [_check] leaves no user query pending. *)
Lemma queries_after_none_pending app t queries :
  NoDup (keys queries) -> check_requested queries = false ->
  none_pending (queries_after app t queries).
Proof.
  intros Hnd Hc. unfold queries_after. rewrite Hc.
  destruct (pendingQueries queries) as [|p0 rest] eqn:Hp.
  - now apply none_pending_idle.
  - rewrite <- Hp. destruct (dataview_api app) as [dv|].
    + apply none_pending_filter; [now apply keys_stamped|].
      apply stamped_none_pending, run_query_not_pending.
    + apply stamped_none_pending, mark_failed_not_pending.
Qed.

Lemma NoDup_queries_after app t queries :
  NoDup (keys queries) -> NoDup (keys (queries_after app t queries)).
Proof.
  intros Hnd. unfold queries_after. destruct (check_requested queries).
  - now apply NoDup_delete.
  - destruct (pendingQueries queries) as [|p0 rest] eqn:Hp; [exact Hnd|].
    rewrite <- Hp. destruct (dataview_api app) as [dv|].
    + now apply NoDup_keys_filter, keys_stamped.
    + now apply keys_stamped.
Qed.

Lemma none_pending_no_pendingQueries queries :
  none_pending queries -> NoDup (keys queries) -> pendingQueries queries = [].
Proof.
  intros Hn Hnd. destruct (pendingQueries queries) as [|[id e] rest] eqn:Hp;
    [reflexivity|].
  assert (H : In (id, e) (pendingQueries queries)) by (rewrite Hp; now left).
  apply In_pendingQueries in H. destruct H as (Hin & Hc & Hs).
  apply In_get in Hin; [|exact Hnd]. rewrite (Hn id e Hin Hc) in Hs.
  discriminate.
Qed.

(** Once no user query is pending, a cycle leaves it so. *)
Lemma queries_after_keeps_none_pending app t queries :
  NoDup (keys queries) -> none_pending queries ->
  none_pending (queries_after app t queries).
Proof.
  intros Hnd Hn. unfold queries_after. destruct (check_requested queries).
  - intros id e Hg Hc. rewrite get_delete in Hg.
    destruct (String.eqb id "_check"); [discriminate|]. exact (Hn id e Hg Hc).
  - now rewrite (none_pending_no_pendingQueries Hn Hnd).
Qed.

(** X26. Two poll cycles in a row settle every user query: whatever the
    document holds and whether or not Dataview is there, after the second
    cycle no user query is pending.  One cycle is not always enough, as a
    pending [_check] takes a cycle of its own. *)
Theorem two_polls_settle_everything (app1 app2 : Bridge.App)
  (w : World BridgeDoc) db queries :
  disk w = Some db ->
  dataviewQueries db = Some queries ->
  NoDup (keys queries) ->
  exists w' queries',
    poll [app1; app2] w = Some (tt, w') /\
    queries_on_disk w' = Some queries' /\
    none_pending queries'.
Proof.
  intros Hd Hq Hnd.
  destruct (cycle_world app1 w Hd Hq) as (w1 & Hrun1 & Hd1 & _).
  set (q1 := queries_after app1 (ticks w) queries) in *.
  destruct (@cycle_world app2 w1 (with_queries db q1) q1 Hd1 eq_refl)
    as (w2 & Hrun2 & Hd2 & _).
  exists w2, (queries_after app2 (ticks w1) q1).
  cbn [poll]. unfold bind. rewrite Hrun1, Hrun2.
  split; [reflexivity|]. split; [unfold queries_on_disk; now rewrite Hd2|].
  assert (Hnd1 : NoDup (keys q1)) by now apply NoDup_queries_after.
  destruct (check_requested queries) eqn:Hc.
  - apply queries_after_none_pending; [exact Hnd1|].
    unfold q1, queries_after. rewrite Hc. unfold check_requested.
    rewrite get_delete. reflexivity.
  - apply queries_after_keeps_none_pending; [exact Hnd1|].
    now apply queries_after_none_pending.
Qed.
End Compositions.

(* ================================================================== *)
(** * More scenarios, evaluated *)
(* ================================================================== *)

Section MoreIndexScenarios.
Import JS Index Plugin Measures Scenarios MoreScenarios.
Local Open Scope string_scope.

Lemma task_beyond_last_line_witness :
  List.length [""] <= 3 /\
  task_of [""] "x" 3 = {| text := ""; completed := true; line := 4 |}.
Proof.
  assert (H : List.length [""] <= 3) by (simpl; lia).
  split; [exact H | exact (@task_beyond_last_line [""] "x" 3 H)].
Defined.

Lemma line_terminator_defeats_pattern_witness :
  line_at crlf_lines 0 =
    "" ++ String "-" (" " ++ String "[" (String " " (String "]"
       (" " ++ "task" ++ String "013" "")))) /\
  text (task_of crlf_lines " " 0) = "- [ ] task".
Proof.
  split; [reflexivity|].
  exact (@line_terminator_defeats_pattern crlf_lines " " 0 "" " " " "
           ("task" ++ String "013" "") " "
           eq_refl eq_refl eq_refl eq_refl eq_refl eq_refl).
Defined.

Lemma deleteNote_forgets_path_witness :
  disk indexed = Some rebuilt /\
  notes_wf (db_notes rebuilt) /\
  ordinary_notes (db_notes rebuilt) = true /\
  exists w' db',
    deleteNote vault "a.md" indexed = Some (tt, w') /\
    disk w' = Some db' /\
    get "a.md" (db_notes db') = None /\
    (forall k, ~ in_backlinks (db_links db') k "a.md").
Proof.
  assert (Hwf : notes_wf (db_notes rebuilt)).
  { split.
    - vm_compute. repeat constructor; simpl; intuition discriminate.
    - vm_compute. intros k n [H|[H|[]]]; inversion H; reflexivity. }
  split; [reflexivity|]. split; [exact Hwf|]. split; [reflexivity|].
  destruct (@deleteNote_forgets_path vault "a.md" indexed rebuilt
              eq_refl Hwf eq_refl)
    as (w' & db' & Hrun & Hd & Hgone & _ & _ & Hback & _).
  exists w', db'. auto.
Defined.

Lemma updateNote_idempotent_witness :
  disk index_start = Some (defaultData "2024-01-20T10:29:59.000Z") /\
  ordinary_notes (db_notes (defaultData "2024-01-20T10:29:59.000Z")) = true /\
  ordinary_upsert vault file_a (Some meta_a) = true /\
  exists w1 w2 d1 d2,
    updateNote vault file_a (Some meta_a) index_start = Some (tt, w1) /\
    updateNote vault file_a (Some meta_a) w1 = Some (tt, w2) /\
    disk w1 = Some d1 /\ disk w2 = Some d2 /\
    content d2 = content d1.
Proof.
  split; [reflexivity|]. split; [reflexivity|]. split; [reflexivity|].
  exact (@updateNote_idempotent vault file_a (Some meta_a) index_start
           (defaultData "2024-01-20T10:29:59.000Z") eq_refl eq_refl eq_refl).
Defined.

Lemma updateNote_moves_totals_witness :
  disk index_start = Some (defaultData "2024-01-20T10:29:59.000Z") /\
  stats_consistent (defaultData "2024-01-20T10:29:59.000Z") /\
  ordinary_notes (db_notes (defaultData "2024-01-20T10:29:59.000Z")) = true /\
  ordinary_upsert vault file_a (Some meta_a) = true /\
  exists w' db',
    updateNote vault file_a (Some meta_a) index_start = Some (tt, w') /\
    disk w' = Some db' /\
    totalNotes (db_stats db') = 1 /\
    totalTasks (db_stats db') = 3 /\
    totalIncompleteTasks (db_stats db') = 2.
Proof.
  assert (Hc : stats_consistent (defaultData "2024-01-20T10:29:59.000Z"))
    by (vm_compute; repeat split).
  split; [reflexivity|]. split; [exact Hc|].
  split; [reflexivity|]. split; [reflexivity|].
  destruct (@updateNote_moves_totals vault file_a (Some meta_a) index_start
              (defaultData "2024-01-20T10:29:59.000Z") eq_refl Hc eq_refl
              eq_refl)
    as (w' & db' & Hrun & Hd & Hn & _ & _ & Ht & Hi).
  exists w', db'. split; [exact Hrun|]. split; [exact Hd|].
  split; [exact Hn|]. split.
  - rewrite <- (Nat.add_0_r (totalTasks (db_stats db'))). exact Ht.
  - rewrite <- (Nat.add_0_r (totalIncompleteTasks (db_stats db'))). exact Hi.
Defined.

Lemma updateNote_records_links_witness :
  disk index_start = Some (defaultData "2024-01-20T10:29:59.000Z") /\
  notes_wf (db_notes (defaultData "2024-01-20T10:29:59.000Z")) /\
  ordinary_notes (db_notes (defaultData "2024-01-20T10:29:59.000Z")) = true /\
  ordinary_upsert vault file_a (Some meta_a) = true /\
  exists w' db',
    updateNote vault file_a (Some meta_a) index_start = Some (tt, w') /\
    disk w' = Some db' /\
    in_backlinks (db_links db') "b.md" "a.md" /\
    ~ in_outlinks (db_links db') "a.md" "ghost.md".
Proof.
  assert (Hwf : notes_wf (db_notes (defaultData "2024-01-20T10:29:59.000Z")))
    by (split; [constructor | intros k n []]).
  split; [reflexivity|]. split; [exact Hwf|].
  split; [reflexivity|]. split; [reflexivity|].
  destruct (@updateNote_records_links vault file_a meta_a index_start
              (defaultData "2024-01-20T10:29:59.000Z") eq_refl Hwf eq_refl
              eq_refl)
    as (w' & db' & Hrun & Hd & Hlinks).
  exists w', db'. split; [exact Hrun|]. split; [exact Hd|]. split.
  - apply (Hlinks "b.md"). exists "b". split; [simpl; auto | reflexivity].
  - intros H. apply (Hlinks "ghost.md") in H.
    destruct H as (l & [<-|[<-|[]]] & E); discriminate.
Defined.

Lemma handler_ignores_other_files_witness :
  markdown_subject (Renamed (File file_a_txt) "a.md") = None /\
  handle vault (Renamed (File file_a_txt) "a.md") indexed =
    Some (tt, indexed) /\
  exists n, get "a.md" (db_notes rebuilt) = Some n.
Proof.
  split; [reflexivity|]. split.
  - exact (@handler_ignores_other_files vault
             (Renamed (File file_a_txt) "a.md") indexed eq_refl).
  - vm_compute. eauto.
Defined.

Lemma rename_moves_note_witness :
  disk indexed = Some rebuilt /\
  notes_wf (db_notes rebuilt) /\
  f_extension file_a_moved = "md" /\
  ordinary_notes (db_notes rebuilt) = true /\
  ordinary_upsert vault file_a_moved (getFileCache vault file_a_moved) = true /\
  exists w' db',
    handle vault (Renamed (File file_a_moved) "a.md") indexed = Some (tt, w') /\
    disk w' = Some db' /\
    get "a.md" (db_notes db') = None /\
    (exists n, get "notes/a.md" (db_notes db') = Some n) /\
    List.length (journal w') = 5.
Proof.
  assert (Hwf : notes_wf (db_notes rebuilt)).
  { split.
    - vm_compute. repeat constructor; simpl; intuition discriminate.
    - vm_compute. intros k n [H|[H|[]]]; inversion H; reflexivity. }
  split; [reflexivity|]. split; [exact Hwf|]. split; [reflexivity|].
  split; [reflexivity|]. split; [reflexivity|].
  destruct (@rename_moves_note vault file_a_moved "a.md" indexed rebuilt
              eq_refl Hwf eq_refl eq_refl eq_refl)
    as (w' & db' & Hrun & Hd & Hnew & Hold & _ & Hj & _).
  exists w', db'. split; [exact Hrun|]. split; [exact Hd|].
  split; [apply Hold; discriminate|]. split; [eauto | exact Hj].
Defined.

Lemma dataDir_drops_last_component_witness :
  lastIndexOf_slash "metadata.json" = None /\
  dataDir (getDbPath ".obsidian") = ".obsidian/plugins/obsidian-metadata-api" /\
  dataDir "metadata.json" = "".
Proof.
  split; [reflexivity|].
  exact (@dataDir_drops_last_component
           ".obsidian/plugins/obsidian-metadata-api" "metadata.json" eq_refl).
Defined.

Lemma deleteNote_undoes_updateNote_witness :
  disk index_start = Some (defaultData "2024-01-20T10:29:59.000Z") /\
  ordinary_notes (db_notes (defaultData "2024-01-20T10:29:59.000Z")) = true /\
  ordinary_upsert vault file_a (Some meta_a) = true /\
  exists w1 w2 d2,
    updateNote vault file_a (Some meta_a) index_start = Some (tt, w1) /\
    deleteNote vault "a.md" w1 = Some (tt, w2) /\
    disk w2 = Some d2 /\
    db_notes d2 = [].
Proof.
  split; [reflexivity|]. split; [reflexivity|]. split; [reflexivity|].
  destruct (@deleteNote_undoes_updateNote vault file_a (Some meta_a)
              index_start (defaultData "2024-01-20T10:29:59.000Z") eq_refl
              eq_refl eq_refl)
    as (w1 & w2 & w3 & d2 & d3 & Hup & Hdel & _ & Hd2 & _ & _ & Hnotes).
  exists w1, w2, d2. split; [exact Hup|]. split; [exact Hdel|].
  split; [exact Hd2 | exact (Hnotes eq_refl)].
Defined.

Lemma tags_count_occurrences_witness :
  ordinary_notes (db_notes rebuilt) = true /\
  get "y" (db_tags (recompute rebuilt)) = Some 2 /\
  get "z" (db_tags (recompute rebuilt)) = None /\
  list_sum (values (db_tags (recompute rebuilt))) = 3.
Proof.
  split; [reflexivity|].
  destruct (@tags_count_occurrences rebuilt "y" eq_refl) as [Hy Hsum].
  destruct (@tags_count_occurrences rebuilt "z" eq_refl) as [Hz _].
  split; [exact Hy|]. split; [exact Hz | exact Hsum].
Defined.

Lemma folders_count_notes_witness :
  ordinary_notes (db_notes rebuilt) = true /\
  get "notes" (db_folders (recompute rebuilt)) = Some 1 /\
  get "root" (db_folders (recompute rebuilt)) = None /\
  list_sum (values (db_folders (recompute rebuilt))) = 2.
Proof.
  split; [reflexivity|].
  destruct (@folders_count_notes rebuilt "notes" eq_refl) as [Hn Hsum].
  destruct (@folders_count_notes rebuilt "root" eq_refl) as [Hr _].
  split; [exact Hn|]. split; [exact Hr | exact Hsum].
Defined.

Lemma codeBlocks_count_sections_witness :
  md_sections meta_code = Some sections_code /\
  forallb ordinary
    (fence_languages (split_lines (vault_read code_vault file_code))
                     sections_code) = true /\
  codeBlocks (note_of code_vault file_code (Some meta_code)) =
    [{| language := "rocq"; count := 2 |};
     {| language := "unknown"; count := 1 |}] /\
  list_sum (map count
              (codeBlocks (note_of code_vault file_code (Some meta_code)))) = 3.
Proof.
  split; [reflexivity|]. split; [reflexivity|]. split; [reflexivity|].
  exact (proj2 (proj2 (proj2
           (@codeBlocks_count_sections code_vault file_code meta_code
              sections_code eq_refl eq_refl)))).
Defined.

Lemma rebuildDatabase_indexes_vault_witness :
  ordinary_vault vault = true /\
  exists w' db',
    rebuildDatabase vault index_start = Some (tt, w') /\
    disk w' = Some db' /\
    keys (db_notes db') = ["a.md"; "notes/c.md"] /\
    stats_consistent db' /\
    List.length (journal w') = 6.
Proof.
  split; [reflexivity|].
  destruct (@rebuildDatabase_indexes_vault vault index_start eq_refl)
    as (w' & db' & Hrun & Hd & _ & _ & Hc & Hj).
  exists w', db'. split; [exact Hrun|]. split; [exact Hd|].
  split; [|split; [exact Hc | exact Hj]].
  vm_compute in Hrun. inversion Hrun; subst w'.
  vm_compute in Hd. inversion Hd; subst db'. reflexivity.
Defined.

Lemma handlers_keep_index_sound_witness :
  forallb ordinary_event events = true /\
  exists w db,
    handle_all events index_start = Some (tt, w) /\
    disk w = Some db /\
    stats_consistent db /\
    notes_wf (db_notes db) /\
    (forall n, In n (values (db_notes db)) -> extension n = "md").
Proof.
  split; [reflexivity|].
  exact (@handlers_keep_index_sound "2024-01-20T10:29:59.000Z" events
           eq_refl).
Defined.
End MoreIndexScenarios.

Section MoreBridgeScenarios.
Import JS Bridge Measures Scenarios MoreScenarios.
Local Open Scope string_scope.

Lemma cycle_writes_only_when_needed_witness :
  disk (on_disk idle_queries) = Some (bridge_doc idle_queries) /\
  exists w',
    checkAndExecuteDataviewQueries with_dataview (on_disk idle_queries)
      = Some (tt, w') /\
    w' = on_disk idle_queries.
Proof.
  split; [reflexivity|].
  pose proof (@cycle_writes_only_when_needed with_dataview
                (on_disk idle_queries) (bridge_doc idle_queries) eq_refl)
    as H.
  change (exists w',
            checkAndExecuteDataviewQueries with_dataview (on_disk idle_queries)
              = Some (tt, w') /\
            journal w' = (journal (on_disk idle_queries) ++
                          cycle_writes with_dataview 0
                            (bridge_doc idle_queries) idle_queries)%list /\
            List.length (cycle_writes with_dataview 0
                           (bridge_doc idle_queries) idle_queries) = 0 /\
            (check_requested idle_queries = false ->
             pendingQueries idle_queries = [] -> w' = on_disk idle_queries))
    in H.
  destruct H as (w' & Hrun & _ & _ & Hsame).
  exists w'. split; [exact Hrun | exact (Hsame eq_refl eq_refl)].
Defined.

Lemma poll_keeps_availability_fields_witness :
  disk (on_disk check_queries) = Some (bridge_doc check_queries) /\
  exists w' db',
    poll [with_dataview; without_dataview; with_dataview]
         (on_disk check_queries) = Some (tt, w') /\
    disk w' = Some db' /\
    dataviewAvailable db' = false /\
    lastChecked db' = "2024-01-19T08:00:00.000Z".
Proof.
  split; [reflexivity|].
  destruct (@poll_keeps_availability_fields
              [with_dataview; without_dataview; with_dataview]
              (on_disk check_queries) (bridge_doc check_queries) eq_refl)
    as (w' & db' & Hrun & Hd & _ & Ha & Hl).
  exists w', db'. auto.
Defined.

Lemma cycle_adds_no_id_witness :
  disk (on_disk busy_queries) = Some (bridge_doc busy_queries) /\
  dataviewQueries (bridge_doc busy_queries) = Some busy_queries /\
  exists w' queries',
    checkAndExecuteDataviewQueries with_dataview (on_disk busy_queries)
      = Some (tt, w') /\
    queries_on_disk w' = Some queries' /\
    (forall id, In id (keys queries') -> In id ["old"; "q1"; "legacy"]).
Proof.
  split; [reflexivity|]. split; [reflexivity|].
  destruct (@cycle_adds_no_id with_dataview (on_disk busy_queries)
              (bridge_doc busy_queries) busy_queries eq_refl eq_refl)
    as (w' & queries' & Hrun & Hq & Hin & _).
  exists w', queries'. auto.
Defined.

Lemma cycle_leaves_settled_entries_witness :
  disk (on_disk busy_queries) = Some (bridge_doc busy_queries) /\
  dataviewQueries (bridge_doc busy_queries) = Some busy_queries /\
  NoDup (keys busy_queries) /\
  get "legacy" busy_queries = Some (plain (Some "LIST") "error" None) /\
  is_pending ("legacy", plain (Some "LIST") "error" None) = false /\
  exists w' queries',
    checkAndExecuteDataviewQueries with_dataview (on_disk busy_queries)
      = Some (tt, w') /\
    queries_on_disk w' = Some queries' /\
    get "legacy" queries' = Some (plain (Some "LIST") "error" None).
Proof.
  assert (Hnd : NoDup (keys busy_queries))
    by (vm_compute; repeat constructor; simpl; intuition discriminate).
  repeat (split; [first [reflexivity | exact Hnd]|]).
  destruct (@cycle_leaves_settled_entries with_dataview
              (on_disk busy_queries) (bridge_doc busy_queries) busy_queries
              "legacy" (plain (Some "LIST") "error" None)
              eq_refl eq_refl Hnd eq_refl eq_refl)
    as (w' & queries' & Hrun & Hq & [Hkept|Hgone] & Hwhy).
  - exists w', queries'. auto.
  - exfalso. destruct (Hwhy Hgone) as [[E _]|(_ & _ & _ & E)]; discriminate.
Defined.

Lemma executing_cycle_settles_pending_witness :
  disk (on_disk busy_queries) = Some (bridge_doc busy_queries) /\
  dataviewQueries (bridge_doc busy_queries) = Some busy_queries /\
  NoDup (keys busy_queries) /\
  check_requested busy_queries = false /\
  dataview_api with_dataview = Some (fun _ => Successful table_value) /\
  exists w' queries',
    checkAndExecuteDataviewQueries with_dataview (on_disk busy_queries)
      = Some (tt, w') /\
    queries_on_disk w' = Some queries' /\
    (get "q1" queries' = None \/
     exists e', get "q1" queries' = Some e' /\
                status e' = Some "success" /\
                query e' = Some "TABLE file.name").
Proof.
  assert (Hnd : NoDup (keys busy_queries))
    by (vm_compute; repeat constructor; simpl; intuition discriminate).
  repeat (split; [first [reflexivity | exact Hnd]|]).
  destruct (@executing_cycle_settles_pending with_dataview
              (fun _ => Successful table_value)
              (on_disk busy_queries) (bridge_doc busy_queries) busy_queries
              eq_refl eq_refl Hnd eq_refl eq_refl)
    as (w' & queries' & Hrun & Hq & Hall).
  exists w', queries'. split; [exact Hrun|]. split; [exact Hq|].
  destruct (Hall "q1" (plain (Some "TABLE file.name") "pending" None))
    as (k & _ & Hset & Hok & Hget); [repeat split|].
  destruct (expired _ _) in Hget; [now left|]. right.
  eexists. split; [exact Hget|]. split.
  - apply Hok. eexists. reflexivity.
  - apply Hset.
Defined.

Lemma bridge_needs_its_file_witness :
  disk no_file = None /\
  checkAndExecuteDataviewQueries with_dataview no_file = None /\
  exists w1,
    initializeJsonDb with_dataview no_file = Some (tt, w1) /\
    checkAndExecuteDataviewQueries with_dataview w1 = Some (tt, w1).
Proof.
  split; [reflexivity|].
  destruct (@bridge_needs_its_file with_dataview no_file eq_refl)
    as (Hthrow & _ & w1 & Hinit & Hidle & _).
  split; [exact Hthrow|]. exists w1. auto.
Defined.
Lemma two_polls_settle_everything_witness :
  disk (on_disk check_queries) = Some (bridge_doc check_queries) /\
  dataviewQueries (bridge_doc check_queries) = Some check_queries /\
  NoDup (keys check_queries) /\
  exists w' queries',
    poll [without_dataview; with_dataview] (on_disk check_queries)
      = Some (tt, w') /\
    queries_on_disk w' = Some queries' /\
    none_pending queries'.
Proof.
  assert (Hnd : NoDup (keys check_queries))
    by (vm_compute; repeat constructor; simpl; intuition discriminate).
  repeat (split; [first [reflexivity | exact Hnd]|]).
  exact (@two_polls_settle_everything without_dataview with_dataview
           (on_disk check_queries) (bridge_doc check_queries) check_queries
           eq_refl eq_refl Hnd).
Defined.
End MoreBridgeScenarios.
